(** * Mini Battle Royale (ff.py): a shallow embedding and its verified properties

    The program is a single-file Tkinter game.  Its numeric state (positions,
    health, timestamps) lives in Python floats; the embedding reads them as
    real numbers, so [math.hypot] is the Euclidean norm and comparisons are
    the order of [R].  Wall-clock readings ([time.time()]) and random draws
    ([random.random()], [random.uniform], [random.choice]) are taken from an
    oracle that is threaded through the code by a small monad; a Python
    exception is an outcome of that monad. *)

From Stdlib Require Import Reals Lra Lia List String Bool Arith.
Import ListNotations.
Open Scope R_scope.

(** ** Boolean readings of the comparisons of [R] *)

Definition Rlt_b (a b : R) : bool := if Rlt_dec a b then true else false.
Definition Rle_b (a b : R) : bool := if Rle_dec a b then true else false.
Definition Rgt_b (a b : R) : bool := if Rgt_dec a b then true else false.
Definition Rge_b (a b : R) : bool := if Rge_dec a b then true else false.
Definition Req_b (a b : R) : bool := if Req_dec_T a b then true else false.

(** ** Game settings (ff.py, lines 27-47) *)

Definition WIDTH : R := 900.
Definition HEIGHT : R := 600.
Definition PLAYER_RADIUS : R := 10.
Definition BOT_RADIUS : R := 10.
Definition BULLET_RADIUS : R := 3.
Definition PLAYER_COLOR : string := "dodgerblue".
Definition BOT_COLOR : string := "orange".
Definition FPS : nat := 30.
Definition MAX_BOTS : nat := 10.
Definition BOT_SPAWN_MARGIN : R := 60.
Definition BULLET_SPEED : R := 12.
Definition PLAYER_SPEED : R := 5.
Definition BOT_SPEED : R := 3.
Definition FIRE_COOLDOWN : R := 35 / 100.
Definition BOT_FIRE_CHANCE : R := 8 / 1000.
Definition ZONE_SHRINK_START : R := 8.
Definition ZONE_SHRINK_DURATION : R := 60.
Definition INITIAL_ZONE_RADIUS : R := Rmin WIDTH HEIGHT * (45 / 100).
Definition FINAL_ZONE_RADIUS : R := 60.
Definition OUTSIDE_DAMAGE : R := 6 / 10.
Definition MAX_HEALTH : R := 100.

(** ** Utilities (lines 51-63) *)

Definition clamp (v a b : R) : R := Rmax a (Rmin b v).

Definition hypot (x y : R) : R := sqrt (x * x + y * y).

Definition distance (a b : R * R) : R :=
  hypot (fst a - fst b) (snd a - snd b).

Definition normalize (vx vy : R) : R * R :=
  let mag := hypot vx vy in
  if Req_b mag 0 then (0, 0) else (vx / mag, vy / mag).

(** ** The oracle monad

    [time.time()], [random.random()] and [random.choice] read the [n]-th
    answer of an oracle and advance the position [n]; a computation either
    returns a value and the next position or raises. *)

Record Oracle : Type := mkOracle {
  time_at : nat -> R;
  random_at : nat -> R;
  index_at : nat -> nat
}.

Inductive exn : Type := TypeError.

Inductive outcome (A : Type) : Type :=
| Returns (a : A) (next : nat)
| Raises (e : exn).
Arguments Returns {A} a next.
Arguments Raises {A} e.

Definition M (A : Type) : Type := Oracle -> nat -> outcome A.

Definition ret {A : Type} (a : A) : M A := fun _ n => Returns a n.

Definition bind {A B : Type} (m : M A) (k : A -> M B) : M B :=
  fun o n => match m o n with
             | Returns a n' => k a o n'
             | Raises e => Raises e
             end.

Definition raise {A : Type} (e : exn) : M A := fun _ _ => Raises e.

Notation "x <- m ;; k" := (bind m (fun x => k))
  (at level 61, m at next level, right associativity).

Definition time_time : M R := fun o n => Returns (time_at o n) (S n).

Definition random_random : M R := fun o n => Returns (random_at o n) (S n).

(** [random.uniform(a, b)] is [a + (b - a) * random()]. *)
Definition random_uniform (a b : R) : M R :=
  r <- random_random ;; ret (a + (b - a) * r).

(** [random.choice(seq)] is [seq[randbelow(len(seq))]]. *)
Definition random_choice {A : Type} (seq : list A) (d : A) : M A :=
  fun o n => Returns (nth (index_at o n mod List.length seq)%nat seq d) (S n).

(** Identity of the objects that hold health: the player, or the bot at a
    position of [self.bots] (bots are appended, never removed). *)
Inductive EntityRef : Type :=
| PlayerRef
| BotRef (i : nat).

Definition ref_eqb (a b : EntityRef) : bool :=
  match a, b with
  | PlayerRef, PlayerRef => true
  | BotRef i, BotRef j => Nat.eqb i j
  | _, _ => false
  end.

(** ** class Bullet (lines 67-80) *)
Module Bullet.

Record t : Type := mk {
  owner : EntityRef;
  x : R;
  y : R;
  vx : R;
  vy : R;
  alive : bool
}.

Definition set_alive (b : t) (a : bool) : t :=
  mk (owner b) (x b) (y b) (vx b) (vy b) a.

Definition update (b : t) : t :=
  let b1 := mk (owner b) (x b + vx b) (y b + vy b) (vx b) (vy b) (alive b) in
  if Rlt_b (x b1) (-50) || Rgt_b (x b1) (WIDTH + 50)
     || Rlt_b (y b1) (-50) || Rgt_b (y b1) (HEIGHT + 50)
  then set_alive b1 false
  else b1.

(** The bullet after [k] calls of [update], one per tick. *)
Fixpoint ticks (k : nat) (b : t) : t :=
  match k with
  | O => b
  | S k' => update (ticks k' b)
  end.

End Bullet.

(** The least number of whole steps of length [b] that cover [a]. *)
Definition ceil_div (a b : nat) : nat := ((a + b - 1) / b)%nat.

(** ** class Entity (lines 83-96) *)
Module Entity.

Record t : Type := mk {
  x : R;
  y : R;
  radius : R;
  color : string;
  speed : R;
  hp : R;
  alive : bool
}.

Definition init (x0 y0 radius0 : R) (color0 : string) (speed0 : R) : t :=
  mk x0 y0 radius0 color0 speed0 MAX_HEALTH true.

Definition set_pos (e : t) (x1 y1 : R) : t :=
  mk x1 y1 (radius e) (color e) (speed e) (hp e) (alive e).

Definition set_hp (e : t) (h : R) : t :=
  mk (x e) (y e) (radius e) (color e) (speed e) h (alive e).

Definition set_alive (e : t) (a : bool) : t :=
  mk (x e) (y e) (radius e) (color e) (speed e) (hp e) a.

Definition hit (e : t) (damage : R) : t :=
  let e1 := set_hp e (hp e - damage) in
  if Rle_b (hp e1) 0 then set_alive e1 false else e1.

End Entity.

(** ** class Player (lines 99-114)

    [fire] mutates the player and returns a bullet or [None]; the embedding
    returns the player after the call beside the result. *)
Module Player.

Record t : Type := mk {
  ent : Entity.t;
  last_fire : R
}.

Definition init (x0 y0 : R) : t :=
  mk (Entity.init x0 y0 PLAYER_RADIUS PLAYER_COLOR PLAYER_SPEED) 0.

Definition set_ent (p : t) (e : Entity.t) : t := mk e (last_fire p).

Definition set_last_fire (p : t) (now : R) : t := mk (ent p) now.

Definition hit (p : t) (damage : R) : t := set_ent p (Entity.hit (ent p) damage).

Definition can_fire (p : t) : M bool :=
  now <- time_time ;;
  ret (Rge_b (now - last_fire p) FIRE_COOLDOWN).

Definition fire (p : t) (target_x target_y : R) : M (t * option Bullet.t) :=
  ok <- can_fire p ;;
  if negb ok || negb (Entity.alive (ent p)) then ret (p, None)
  else
    let dx := target_x - Entity.x (ent p) in
    let dy := target_y - Entity.y (ent p) in
    let '(nx, ny) := normalize dx dy in
    let vx := nx * BULLET_SPEED in
    let vy := ny * BULLET_SPEED in
    now <- time_time ;;
    ret (set_last_fire p now,
         Some (Bullet.mk PlayerRef
                 (Entity.x (ent p) + nx * (Entity.radius (ent p) + BULLET_RADIUS + 1))
                 (Entity.y (ent p) + ny * (Entity.radius (ent p) + BULLET_RADIUS + 1))
                 vx vy true)).

End Player.

(** ** class Bot (lines 117-165)

    [self.target] is [None], an entity (held by reference and followed
    live) or a pair of coordinates. *)
Inductive Target : Type :=
| TEntity (r : EntityRef)
| TPoint (px py : R).

Module Bot.

Record t : Type := mk {
  ent : Entity.t;
  target : option Target;
  last_target_time : R;
  last_fire : R
}.

Definition init (x0 y0 : R) : t :=
  mk (Entity.init x0 y0 BOT_RADIUS BOT_COLOR BOT_SPEED) None 0 0.

Definition set_ent (b : t) (e : Entity.t) : t :=
  mk e (target b) (last_target_time b) (last_fire b).

Definition set_target (b : t) (tg : option Target) : t :=
  mk (ent b) tg (last_target_time b) (last_fire b).

Definition set_last_target_time (b : t) (now : R) : t :=
  mk (ent b) (target b) now (last_fire b).

Definition hit (b : t) (damage : R) : t := set_ent b (Entity.hit (ent b) damage).

(** The entity a reference stands for.  A reference held by a Python object
    cannot dangle; a position past the end of [bots] reads a fresh bot. *)
Definition deref (player : Player.t) (bots : list t) (r : EntityRef) : Entity.t :=
  match r with
  | PlayerRef => Player.ent player
  | BotRef i => ent (nth i bots (init 0 0))
  end.

Definition is_none {A : Type} (v : option A) : bool :=
  match v with None => true | Some _ => false end.

(** [update_ai(self, player, bots)]; [bots] is not read by the source. *)
Definition update_ai (b : t) (player : Player.t) : M t :=
  now <- time_time ;;
  if Rgt_b (now - last_target_time b) (12 / 10) || is_none (target b) then
    now' <- time_time ;;
    let b1 := set_last_target_time b now' in
    r <- random_random ;;
    if Rlt_b r (7 / 10) && Entity.alive (Player.ent player) then
      ret (set_target b1 (Some (TEntity PlayerRef)))
    else
      wx <- random_uniform 0 WIDTH ;;
      wy <- random_uniform 0 HEIGHT ;;
      ret (set_target b1 (Some (TPoint wx wy)))
  else ret b.

(** [step(self, player, bots)]: subscripting a [None] target raises
    [TypeError]; an entity target is read through [bots] and [player]. *)
Definition step (b : t) (player : Player.t) (bots : list t) : M t :=
  b1 <- update_ai b player ;;
  match target b1 with
  | None => raise TypeError
  | Some tg =>
    let '(tx, ty) :=
      match tg with
      | TEntity r => (Entity.x (deref player bots r), Entity.y (deref player bots r))
      | TPoint px py => (px, py)
      end in
    let dx := tx - Entity.x (ent b1) in
    let dy := ty - Entity.y (ent b1) in
    let '(nx, ny) := normalize dx dy in
    let jitter := 2 / 10 in
    jx <- random_uniform (- jitter) jitter ;;
    let x1 := Entity.x (ent b1) + (nx * Entity.speed (ent b1) + jx) in
    jy <- random_uniform (- jitter) jitter ;;
    let y1 := Entity.y (ent b1) + (ny * Entity.speed (ent b1) + jy) in
    ret (set_ent b1 (Entity.set_pos (ent b1) (clamp x1 0 WIDTH) (clamp y1 0 HEIGHT)))
  end.

(** [try_fire(self, player)]; [self_ref] is the identity of [self], which
    the bullet keeps as its owner. *)
Definition try_fire (self_ref : EntityRef) (b : t) (player : Player.t)
  : M (option Bullet.t) :=
  if negb (Entity.alive (Player.ent player)) || negb (Entity.alive (ent b)) then ret None
  else
    r <- random_random ;;
    if Rlt_b r BOT_FIRE_CHANCE then
      let dx := Entity.x (Player.ent player) - Entity.x (ent b) in
      let dy := Entity.y (Player.ent player) - Entity.y (ent b) in
      let '(nx, ny) := normalize dx dy in
      let vx := nx * BULLET_SPEED in
      let vy := ny * BULLET_SPEED in
      ret (Some (Bullet.mk self_ref
                   (Entity.x (ent b) + nx * (Entity.radius (ent b) + BULLET_RADIUS + 1))
                   (Entity.y (ent b) + ny * (Entity.radius (ent b) + BULLET_RADIUS + 1))
                   vx vy true))
    else ret None.

(** [choose_target(self, player, bots)] (lines 124-133); [self_idx] is the
    position of [self] in [bots].  [living_others] is the list [living] of
    the source, each bot beside its position; [min_by] is [min(..., key=...)],
    which keeps the first of the least elements. *)
Definition living_others (self_idx : nat) (bots : list t) : list (nat * t) :=
  filter (fun c => Entity.alive (ent (snd c)) && negb (Nat.eqb (fst c) self_idx))
         (combine (seq 0 (List.length bots)) bots).

Fixpoint min_by {A : Type} (key : A -> R) (best : A) (rest : list A) : A :=
  match rest with
  | [] => best
  | c :: rest' =>
    if Rlt_b (key c) (key best) then min_by key c rest' else min_by key best rest'
  end.

Definition choose_target (self_idx : nat) (b : t) (player : Player.t) (bots : list t) : t :=
  if Entity.alive (Player.ent player) then set_target b (Some (TEntity PlayerRef))
  else
    match living_others self_idx bots with
    | [] => set_target b None
    | c :: rest =>
      let key := fun e : nat * t =>
        distance (Entity.x (ent b), Entity.y (ent b))
                 (Entity.x (ent (snd e)), Entity.y (ent (snd e))) in
      set_target b (Some (TEntity (BotRef (fst (min_by key c rest)))))
    end.

End Bot.

(** ** class BattleRoyale (lines 169-409)

    Beside the attributes of the object, the state carries the two things
    the host (Tk) holds for it: how many [after] callbacks are registered
    and not yet run, and how many render passes have drawn the canvas. *)
Module BattleRoyale.

Record t : Type := mk {
  player : Player.t;
  bots : list Bot.t;
  bullets : list Bullet.t;
  keys : list string;
  mouse_pos : R * R;
  paused : bool;
  start_time : R;
  zone_center : R * R;
  zone_radius : R;
  last_time : R;
  running : bool;
  end_time : option R;
  pending : nat;
  frames : nat
}.

Definition set_entities (g : t) (p : Player.t) (bs : list Bot.t) (bl : list Bullet.t) : t :=
  mk p bs bl (keys g) (mouse_pos g) (paused g) (start_time g) (zone_center g)
     (zone_radius g) (last_time g) (running g) (end_time g) (pending g) (frames g).

Definition set_player (g : t) (p : Player.t) : t := set_entities g p (bots g) (bullets g).

Definition set_bots (g : t) (bs : list Bot.t) : t := set_entities g (player g) bs (bullets g).

Definition set_input (g : t) (ks : list string) (mp : R * R) (pz : bool) : t :=
  mk (player g) (bots g) (bullets g) ks mp pz (start_time g) (zone_center g)
     (zone_radius g) (last_time g) (running g) (end_time g) (pending g) (frames g).

Definition set_zone_radius (g : t) (r : R) : t :=
  mk (player g) (bots g) (bullets g) (keys g) (mouse_pos g) (paused g) (start_time g)
     (zone_center g) r (last_time g) (running g) (end_time g) (pending g) (frames g).

Definition set_clock (g : t) (start last : R) : t :=
  mk (player g) (bots g) (bullets g) (keys g) (mouse_pos g) (paused g) start
     (zone_center g) (zone_radius g) last (running g) (end_time g) (pending g) (frames g).

Definition set_running (g : t) (r : bool) (e : option R) : t :=
  mk (player g) (bots g) (bullets g) (keys g) (mouse_pos g) (paused g) (start_time g)
     (zone_center g) (zone_radius g) (last_time g) r e (pending g) (frames g).

Definition set_host (g : t) (pend fr : nat) : t :=
  mk (player g) (bots g) (bullets g) (keys g) (mouse_pos g) (paused g) (start_time g)
     (zone_center g) (zone_radius g) (last_time g) (running g) (end_time g) pend fr.

(** [spawn_bot] (lines 208-223). *)
Definition spawn_bot (g : t) : M t :=
  side <- random_choice ["top"; "bottom"; "left"; "right"]%string ""%string ;;
  if String.eqb side "top" then
    x <- random_uniform (0 + BOT_SPAWN_MARGIN) (WIDTH - BOT_SPAWN_MARGIN) ;;
    y <- random_uniform 0 BOT_SPAWN_MARGIN ;;
    ret (set_bots g (bots g ++ [Bot.init x y]))
  else if String.eqb side "bottom" then
    x <- random_uniform (0 + BOT_SPAWN_MARGIN) (WIDTH - BOT_SPAWN_MARGIN) ;;
    y <- random_uniform (HEIGHT - BOT_SPAWN_MARGIN) HEIGHT ;;
    ret (set_bots g (bots g ++ [Bot.init x y]))
  else if String.eqb side "left" then
    x <- random_uniform 0 BOT_SPAWN_MARGIN ;;
    y <- random_uniform (0 + BOT_SPAWN_MARGIN) (HEIGHT - BOT_SPAWN_MARGIN) ;;
    ret (set_bots g (bots g ++ [Bot.init x y]))
  else
    x <- random_uniform (WIDTH - BOT_SPAWN_MARGIN) WIDTH ;;
    y <- random_uniform (0 + BOT_SPAWN_MARGIN) (HEIGHT - BOT_SPAWN_MARGIN) ;;
    ret (set_bots g (bots g ++ [Bot.init x y])).

(** [for _ in range(n): self.spawn_bot()]. *)
Fixpoint spawn_bots (n : nat) (g : t) : M t :=
  match n with
  | O => ret g
  | S n' => g1 <- spawn_bot g ;; spawn_bots n' g1
  end.

(** [on_click] (lines 238-242). *)
Definition on_click (g : t) (ex ey : R) : M t :=
  let g1 := set_input g (keys g) (ex, ey) (paused g) in
  r <- Player.fire (player g1) ex ey ;;
  let '(p1, bullet) := r in
  match bullet with
  | Some b => ret (set_entities g1 p1 (bots g1) (bullets g1 ++ [b]))
  | None => ret (set_player g1 p1)
  end.

Definition has_key (g : t) (k : string) : bool := existsb (String.eqb k) (keys g).

(** Player movement (lines 262-275). *)
Definition move_player (g : t) : t :=
  let move_y := 0 in
  let move_x := 0 in
  let move_y := if has_key g "w" || has_key g "up" then move_y - 1 else move_y in
  let move_y := if has_key g "s" || has_key g "down" then move_y + 1 else move_y in
  let move_x := if has_key g "a" || has_key g "left" then move_x - 1 else move_x in
  let move_x := if has_key g "d" || has_key g "right" then move_x + 1 else move_x in
  let '(nx, ny) := normalize move_x move_y in
  let e := Player.ent (player g) in
  let x1 := Entity.x e + nx * Entity.speed e in
  let y1 := Entity.y e + ny * Entity.speed e in
  set_player g (Player.set_ent (player g)
                  (Entity.set_pos e (clamp x1 0 WIDTH) (clamp y1 0 HEIGHT))).

(** Bots update (lines 278-285): [done] are the bots the loop has passed,
    [todo] those still to come, so the bot in hand stands at position
    [length done] of [self.bots]. *)
Fixpoint update_bots (p : Player.t) (done todo : list Bot.t) (bl : list Bullet.t)
  : M (list Bot.t * list Bullet.t) :=
  match todo with
  | [] => ret (done, bl)
  | bot :: rest =>
    if negb (Entity.alive (Bot.ent bot)) then update_bots p (done ++ [bot]) rest bl
    else
      bot1 <- Bot.step bot p (done ++ bot :: rest) ;;
      b <- Bot.try_fire (BotRef (List.length done)) bot1 p ;;
      update_bots p (done ++ [bot1]) rest
        (match b with Some b' => bl ++ [b'] | None => bl end)
  end.

(** The scan of the bots for one bullet (lines 300-306); [i] is the position
    of the head of [bs] in [self.bots].  The flag tells whether a bot was
    hit (the [break]). *)
Fixpoint scan_bots (bullet : Bullet.t) (i : nat) (bs : list Bot.t) : list Bot.t * bool :=
  match bs with
  | [] => ([], false)
  | bot :: rest =>
    if negb (Entity.alive (Bot.ent bot)) || ref_eqb (Bullet.owner bullet) (BotRef i) then
      let '(rest', h) := scan_bots bullet (S i) rest in (bot :: rest', h)
    else if Rle_b (distance (Bullet.x bullet, Bullet.y bullet)
                            (Entity.x (Bot.ent bot), Entity.y (Bot.ent bot)))
                  (BULLET_RADIUS + Entity.radius (Bot.ent bot)) then
      (Bot.hit bot 22 :: rest, true)
    else
      let '(rest', h) := scan_bots bullet (S i) rest in (bot :: rest', h)
  end.

(** The test of a bullet against the player (lines 294-295). *)
Definition hits_player (p : Player.t) (bs : list Bot.t) (bullet : Bullet.t) : bool :=
  negb (ref_eqb (Bullet.owner bullet) PlayerRef)
  && Entity.alive (Player.ent p)
  && Rle_b (distance (Bullet.x bullet, Bullet.y bullet)
                     (Entity.x (Player.ent p), Entity.y (Player.ent p)))
           (Entity.radius (Bot.deref p bs (Bullet.owner bullet))
            + Entity.radius (Player.ent p) + BULLET_RADIUS).

(** The body of the bullet loop for a bullet that is alive (lines 292-306). *)
Definition update_bullet (p : Player.t) (bs : list Bot.t) (bullet : Bullet.t)
  : Player.t * list Bot.t * Bullet.t :=
  let bullet1 := Bullet.update bullet in
  if hits_player p bs bullet1 then
    (Player.hit p 18, bs, Bullet.set_alive bullet1 false)
  else
    let '(bs', h) := scan_bots bullet1 0 bs in
    (p, bs', if h then Bullet.set_alive bullet1 false else bullet1).

(** Bullets update (lines 288-306): a bullet found dead is removed from
    [self.bullets], the others are advanced and tested in order. *)
Fixpoint update_bullets (p : Player.t) (bs : list Bot.t) (bl : list Bullet.t)
  : Player.t * list Bot.t * list Bullet.t :=
  match bl with
  | [] => (p, bs, [])
  | bullet :: rest =>
    if negb (Bullet.alive bullet) then update_bullets p bs rest
    else
      let '(p1, bs1, bullet1) := update_bullet p bs bullet in
      let '(p2, bs2, rest') := update_bullets p1 bs1 rest in
      (p2, bs2, bullet1 :: rest')
  end.

(** Zone update (lines 310-314), as a function of [game_elapsed]. *)
Definition zone_update (game_elapsed : R) : R :=
  if Rlt_b game_elapsed ZONE_SHRINK_START then INITIAL_ZONE_RADIUS
  else
    let t := clamp ((game_elapsed - ZONE_SHRINK_START) / ZONE_SHRINK_DURATION) 0 1 in
    INITIAL_ZONE_RADIUS + (FINAL_ZONE_RADIUS - INITIAL_ZONE_RADIUS) * t.

(** Damage outside zone (lines 317-321), for one entity of the loop. *)
Definition outside_damage (center : R * R) (radius dt : R) (e : Entity.t) : Entity.t :=
  if negb (Entity.alive e) then e
  else if Rgt_b (distance (Entity.x e, Entity.y e) center) radius
       then Entity.hit e (OUTSIDE_DAMAGE * dt * 60)
       else e.

Definition zone_damage (g : t) (dt : R) : t :=
  let f := outside_damage (zone_center g) (zone_radius g) dt in
  set_entities g
    (Player.set_ent (player g) (f (Player.ent (player g))))
    (map (fun b => Bot.set_ent b (f (Bot.ent b))) (bots g))
    (bullets g).

(** Win/loss conditions (lines 327-330). *)
Definition living (g : t) : list Entity.t :=
  filter Entity.alive (Player.ent (player g) :: map Bot.ent (bots g)).

Definition check_win (g : t) : M t :=
  if (List.length (living g) <=? 1)%nat then
    now <- time_time ;;
    ret (set_running g false (Some now))
  else ret g.

(** Ensure at least some bots exist (lines 333-336). *)
Definition live_bots (g : t) : nat :=
  List.length (filter (fun b => Entity.alive (Bot.ent b)) (bots g)).

Definition replenish (g : t) : M t :=
  if (live_bots g <? Nat.max 2 (MAX_BOTS / 3))%nat
     && (List.length (bots g) <? MAX_BOTS * 2)%nat then
    r <- random_random ;;
    if Rlt_b r (2 / 100) then spawn_bot g else ret g
  else ret g.

(** [update(self, dt)] (lines 260-336). *)
Definition update (g : t) (dt : R) : M t :=
  let g1 := move_player g in
  r <- update_bots (player g1) [] (bots g1) (bullets g1) ;;
  let '(bs, bl) := r in
  let '(p3, bs3, bl3) := update_bullets (player g1) bs bl in
  let g3 := set_entities g1 p3 bs3 bl3 in
  now <- time_time ;;
  let g4 := set_zone_radius g3 (zone_update (now - start_time g3)) in
  let g5 := zone_damage g4 dt in
  g6 <- check_win g5 ;;
  replenish g6.

(** The host's canvas with one more frame drawn on it. *)
Definition drawn (g : t) : t := set_host g (pending g) (S (frames g)).

(** [render] (lines 339-396) changes nothing of the game: it reads the state,
    reads the clock for the time shown in the HUD (line 376) and draws; the
    host's canvas holds one more frame afterwards. *)
Definition render (g : t) : M t :=
  now <- time_time ;;
  ret (drawn g).

(** [self.master.after(int(1000 / FPS), self.update_loop)]. *)
Definition after (g : t) : t := set_host g (S (pending g)) (frames g).

(** [update_loop] (lines 248-258). *)
Definition update_loop (g : t) : M t :=
  if negb (running g) then ret g
  else
    now <- time_time ;;
    let dt := now - last_time g in
    let g1 := set_clock g (start_time g) now in
    g2 <- (if negb (paused g1) then update g1 dt else ret g1) ;;
    g3 <- render g2 ;;
    ret (after g3).

(** The host runs a registered callback when its delay has passed; with
    none registered nothing runs. *)
Definition timer_fire (g : t) : M t :=
  match pending g with
  | O => ret g
  | S k => update_loop (set_host g k (frames g))
  end.

(** [restart] (lines 399-409). *)
Definition restart (g : t) : M t :=
  let g1 := set_entities g (Player.init (WIDTH / 2) (HEIGHT / 2)) [] [] in
  g2 <- spawn_bots MAX_BOTS g1 ;;
  start <- time_time ;;
  let g3 := set_running (set_clock g2 start (last_time g2)) true (end_time g2) in
  let g4 := set_input g3 (keys g3) (mouse_pos g3) false in
  last <- time_time ;;
  ret (set_clock g4 (start_time g4) last).

(** [str.lower] on the ASCII letters, which is all a Tk keysym holds. *)
Definition lower_ascii (c : Ascii.ascii) : Ascii.ascii :=
  let k := Ascii.nat_of_ascii c in
  if ((65 <=? k) && (k <=? 90))%nat then Ascii.ascii_of_nat (k + 32) else c.

Fixpoint lower (s : string) : string :=
  match s with
  | EmptyString => EmptyString
  | String c rest => String (lower_ascii c) (lower rest)
  end.

(** [self.keys] is a set; the list holds each held key once. *)
Definition keys_add (k : string) (ks : list string) : list string :=
  if existsb (String.eqb k) ks then ks else k :: ks.

Definition keys_remove (k : string) (ks : list string) : list string :=
  filter (fun k' => negb (String.eqb k k')) ks.

(** [on_keypress] (lines 226-231). *)
Definition on_keypress (g : t) (keysym : string) : t :=
  let key := lower keysym in
  if String.eqb key "p" then set_input g (keys g) (mouse_pos g) (negb (paused g))
  else set_input g (keys_add key (keys g)) (mouse_pos g) (paused g).

(** [on_keyrelease] (lines 233-236). *)
Definition on_keyrelease (g : t) (keysym : string) : t :=
  let key := lower keysym in
  if existsb (String.eqb key) (keys g)
  then set_input g (keys_remove key (keys g)) (mouse_pos g) (paused g)
  else g.

(** [on_motion] (lines 244-245). *)
Definition on_motion (g : t) (ex ey : R) : t :=
  set_input g (keys g) (ex, ey) (paused g).

(** The winner that [render] prints once the session is over (lines
    383-392); nothing is printed while it runs. *)
Definition winner (g : t) : option string :=
  if negb (running g) then
    if Entity.alive (Player.ent (player g)) then Some "Player (You)"%string
    else
      match filter (fun b => Entity.alive (Bot.ent b)) (bots g) with
      | _ :: _ => Some "Bot"%string
      | [] => Some "No one"%string
      end
  else None.

(** [__init__] (lines 170-206).  [last_time] and [running] do not exist
    before they are assigned, after the bots are spawned; nothing reads the
    values that stand for them until then. *)
Definition init : M t :=
  start <- time_time ;;
  let g0 := mk (Player.init (WIDTH / 2) (HEIGHT / 2)) [] [] []
               (WIDTH / 2, HEIGHT / 2) false start (WIDTH / 2, HEIGHT / 2)
               INITIAL_ZONE_RADIUS 0 false None 0 0 in
  g1 <- spawn_bots MAX_BOTS g0 ;;
  last <- time_time ;;
  update_loop (set_running (set_clock g1 (start_time g1) last) true None).

End BattleRoyale.

(** * Vocabulary of the statements *)

(** The player is within reach of a bullet (the test of lines 294-295). *)
Definition player_in_reach (p : Player.t) (bs : list Bot.t) (bullet : Bullet.t) : Prop :=
  Bullet.owner bullet <> PlayerRef
  /\ Entity.alive (Player.ent p) = true
  /\ distance (Bullet.x bullet, Bullet.y bullet)
              (Entity.x (Player.ent p), Entity.y (Player.ent p))
     <= Entity.radius (Bot.deref p bs (Bullet.owner bullet))
        + Entity.radius (Player.ent p) + BULLET_RADIUS.

(** The bot at position [i] is one the scan of a bullet stops at: alive,
    not the bullet's owner, and within reach (lines 301-303). *)
Definition bot_in_reach (bullet : Bullet.t) (i : nat) (bot : Bot.t) : Prop :=
  Entity.alive (Bot.ent bot) = true
  /\ Bullet.owner bullet <> BotRef i
  /\ distance (Bullet.x bullet, Bullet.y bullet)
              (Entity.x (Bot.ent bot), Entity.y (Bot.ent bot))
     <= BULLET_RADIUS + Entity.radius (Bot.ent bot).

(** [bot] at position [j] is the first bot of [bs] in reach of the bullet. *)
Definition first_in_reach (bullet : Bullet.t) (bs : list Bot.t) (j : nat) (bot : Bot.t)
  : Prop :=
  nth_error bs j = Some bot
  /\ bot_in_reach bullet j bot
  /\ forall k bot', (k < j)%nat -> nth_error bs k = Some bot' -> ~ bot_in_reach bullet k bot'.

Definition none_in_reach (bullet : Bullet.t) (bs : list Bot.t) : Prop :=
  forall k bot', nth_error bs k = Some bot' -> ~ bot_in_reach bullet k bot'.

(** The state after the host has let [k] timer delays pass. *)
Fixpoint timer_fires (k : nat) (g : BattleRoyale.t) : M BattleRoyale.t :=
  match k with
  | O => ret g
  | S k' => g1 <- BattleRoyale.timer_fire g ;; timer_fires k' g1
  end.

(** A session that has ended with the player as the last one alive: no bot
    ever spawned is alive, the running flag is down and the callback
    registered by the last [update_loop] is still to run. *)
Definition ended_game : BattleRoyale.t :=
  BattleRoyale.mk (Player.init 450 300)
    [Bot.mk (Entity.mk 40 40 10 "orange" 3 (-10) false) (Some (TEntity PlayerRef)) 0 0]
    [] [] (450, 300) false 0 (450, 300) 270 30 false (Some 30) 1 900.

(** An oracle whose clock stands at 31 s and whose draws are all 0. *)
Definition still_oracle : Oracle := mkOracle (fun _ => 31) (fun _ => 0) (fun _ => O).

(** An entity whose alive flag tells whether its health has come down to 0. *)
Definition consistent (e : Entity.t) : Prop :=
  Entity.alive e = false <-> Entity.hp e <= 0.

(** [e'] is a later state of the entity [e]: no more health than before,
    still dead if it was dead, and still consistent if it was. *)
Definition decays (e e' : Entity.t) : Prop :=
  Entity.hp e' <= Entity.hp e
  /\ (Entity.alive e = false -> Entity.alive e' = false)
  /\ (consistent e -> consistent e').

Definition bots_decay : list Bot.t -> list Bot.t -> Prop :=
  Forall2 (fun b b' => decays (Bot.ent b) (Bot.ent b')).

(** The entity a reference names in a state of the game, if it exists yet. *)
Definition entity_at (g : BattleRoyale.t) (r : EntityRef) : option Entity.t :=
  match r with
  | PlayerRef => Some (Player.ent (BattleRoyale.player g))
  | BotRef i => option_map Bot.ent (nth_error (BattleRoyale.bots g) i)
  end.

Definition all_consistent (g : BattleRoyale.t) : Prop :=
  forall r e, entity_at g r = Some e -> consistent e.

(** [g'] is a later state of the session [g]: every entity of [g] has
    decayed, and the bots that joined are consistent. *)
Definition evolves (g g' : BattleRoyale.t) : Prop :=
  decays (Player.ent (BattleRoyale.player g)) (Player.ent (BattleRoyale.player g'))
  /\ exists bs1 extra,
       BattleRoyale.bots g' = bs1 ++ extra
       /\ bots_decay (BattleRoyale.bots g) bs1
       /\ Forall (fun b => consistent (Bot.ent b)) extra.

(** What happens to the entities during a session: a simulation step with
    the time [dt] since the last one, or a mouse click that asks to fire. *)
Inductive event : Type :=
| Tick (dt : R)
| Click (ex ey : R).

Definition handle (g : BattleRoyale.t) (ev : event) : M BattleRoyale.t :=
  match ev with
  | Tick dt => BattleRoyale.update g dt
  | Click ex ey => BattleRoyale.on_click g ex ey
  end.

Fixpoint run (g : BattleRoyale.t) (evs : list event) : M BattleRoyale.t :=
  match evs with
  | [] => ret g
  | ev :: rest => g1 <- handle g ev ;; run g1 rest
  end.

(** The clock did not go backwards between two simulation steps. *)
Definition forward (ev : event) : Prop :=
  match ev with
  | Tick dt => 0 <= dt
  | Click _ _ => True
  end.

(** [m] returns, whatever the oracle answers, a value that satisfies [Q],
    and leaves the oracle at the same or a later position. *)
Definition returns {A : Type} (m : M A) (Q : A -> Prop) : Prop :=
  forall o n, exists a n', m o n = Returns a n' /\ (n <= n')%nat /\ Q a.

(** The entity stands inside the playfield. *)
Definition in_playfield (e : Entity.t) : Prop :=
  0 <= Entity.x e <= WIDTH /\ 0 <= Entity.y e <= HEIGHT.

(** The entity stands within [BOT_SPAWN_MARGIN] of an edge of the playfield. *)
Definition near_edge (e : Entity.t) : Prop :=
  Entity.x e <= BOT_SPAWN_MARGIN \/ WIDTH - BOT_SPAWN_MARGIN <= Entity.x e
  \/ Entity.y e <= BOT_SPAWN_MARGIN \/ HEIGHT - BOT_SPAWN_MARGIN <= Entity.y e.

(** [random.random()] answers in the unit interval. *)
Definition unit_draws (o : Oracle) : Prop :=
  forall k, 0 <= random_at o k <= 1.

(** [b'] is the bullet [b] one tick later: moved by its velocity, with
    the same velocity and owner. *)
Definition advanced (b b' : Bullet.t) : Prop :=
  Bullet.owner b' = Bullet.owner b
  /\ Bullet.x b' = Bullet.x b + Bullet.vx b
  /\ Bullet.y b' = Bullet.y b + Bullet.vy b
  /\ Bullet.vx b' = Bullet.vx b
  /\ Bullet.vy b' = Bullet.vy b.

(** A bullet that one of the living bots of [bots], counted from position
    [base] of [self.bots], has just fired. *)
Definition shot_by_living_bot (base : nat) (bots : list Bot.t) (b : Bullet.t) : Prop :=
  Bullet.alive b = true
  /\ hypot (Bullet.vx b) (Bullet.vy b) <= BULLET_SPEED
  /\ exists j bot,
       Bullet.owner b = BotRef (base + j)
       /\ nth_error bots j = Some bot
       /\ Entity.alive (Bot.ent bot) = true.

(** The entity after [k] steps of the damage loop with the same zone and
    the same [dt], when nothing else touches it. *)
Fixpoint zone_ticks (c : R * R) (radius dt : R) (k : nat) (e : Entity.t) : Entity.t :=
  match k with
  | O => e
  | S k' => BattleRoyale.outside_damage c radius dt (zone_ticks c radius dt k' e)
  end.

(** A bot as [Bot(x, y)] builds it: alive, at full health, with no target. *)
Definition fresh_bot (b : Bot.t) : Prop :=
  exists x y, b = Bot.init x y.

(** The input state, the clocks and the host's bookkeeping agree in [g]
    and [g']. *)
Definition same_controls (g g' : BattleRoyale.t) : Prop :=
  BattleRoyale.keys g' = BattleRoyale.keys g
  /\ BattleRoyale.mouse_pos g' = BattleRoyale.mouse_pos g
  /\ BattleRoyale.paused g' = BattleRoyale.paused g
  /\ BattleRoyale.start_time g' = BattleRoyale.start_time g
  /\ BattleRoyale.zone_center g' = BattleRoyale.zone_center g
  /\ BattleRoyale.last_time g' = BattleRoyale.last_time g
  /\ BattleRoyale.pending g' = BattleRoyale.pending g
  /\ BattleRoyale.frames g' = BattleRoyale.frames g.

(** What the host can deliver to the game: a timer callback, a mouse
    click or move, a key press or release, and the R key, which the global
    handler (lines 418-420) turns into [restart]. *)
Inductive input : Type :=
| Timer
| Mouse (ex ey : R)
| Motion (ex ey : R)
| Press (keysym : string)
| Release (keysym : string)
| Restart.

Definition deliver (g : BattleRoyale.t) (i : input) : M BattleRoyale.t :=
  match i with
  | Timer => BattleRoyale.timer_fire g
  | Mouse ex ey => BattleRoyale.on_click g ex ey
  | Motion ex ey => ret (BattleRoyale.on_motion g ex ey)
  | Press k => ret (BattleRoyale.on_keypress g k)
  | Release k => ret (BattleRoyale.on_keyrelease g k)
  | Restart => BattleRoyale.restart g
  end.

Fixpoint session (g : BattleRoyale.t) (inputs : list input) : M BattleRoyale.t :=
  match inputs with
  | [] => ret g
  | i :: rest => g1 <- deliver g i ;; session g1 rest
  end.

(** A session that runs, paused, with its callback registered. *)
Definition paused_game : BattleRoyale.t :=
  BattleRoyale.mk (Player.init 450 300) [Bot.init 30 30; Bot.init 870 570]
    [Bullet.mk PlayerRef 460 300 12 0 true] [] (450, 300) true 0 (450, 300) 270 5
    true None 1 150.

(** A session that runs with its player alive in the corner of the
    playfield, outside the zone; the last frame was taken at 10 s. *)
Definition corner_game : BattleRoyale.t :=
  BattleRoyale.mk (Player.init 0 0) [] [] [] (0, 0) false 0 (450, 300) 270 10
    true None 1 0.

(** An oracle whose clock stands at 9 s, a second before the last frame of
    [corner_game], and whose draws are all 1. *)
Definition early_oracle : Oracle := mkOracle (fun _ => 9) (fun _ => 1) (fun _ => O).

(** The result of the bullet loop over the bullets that follow, with the
    bullet [b] the loop has just handled kept in front of them: a bullet
    that has hit stays in [self.bullets] until the next tick finds it dead. *)
Definition kept_before (b : Bullet.t) (r : Player.t * list Bot.t * list Bullet.t)
  : Player.t * list Bot.t * list Bullet.t :=
  let '(p2, bs2, rest') := r in (p2, bs2, b :: rest').

(** The bots of [g] that are alive in the later state [g']; bots are only
    ever appended, so they are the first [len(bots)] of [g']. *)
Definition survivors (g g' : BattleRoyale.t) : nat :=
  List.length (filter (fun b => Entity.alive (Bot.ent b))
                 (firstn (List.length (BattleRoyale.bots g)) (BattleRoyale.bots g'))).

(** A bot that is dead in the first list is the same bot in the second. *)
Definition dead_stay : list Bot.t -> list Bot.t -> Prop :=
  Forall2 (fun b b' => Entity.alive (Bot.ent b) = false -> b' = b).

(** * Properties *)

(** ** Comparisons *)

Lemma Rlt_b_true (a b : R) : Rlt_b a b = true <-> a < b.
Proof. unfold Rlt_b; destruct (Rlt_dec a b); split; intros; try discriminate; tauto. Qed.

Lemma Rlt_b_false (a b : R) : Rlt_b a b = false <-> b <= a.
Proof. unfold Rlt_b; destruct (Rlt_dec a b); split; intros; try discriminate; try lra; tauto. Qed.

Lemma Rle_b_true (a b : R) : Rle_b a b = true <-> a <= b.
Proof. unfold Rle_b; destruct (Rle_dec a b); split; intros; try discriminate; tauto. Qed.

Lemma Rle_b_false (a b : R) : Rle_b a b = false <-> b < a.
Proof. unfold Rle_b; destruct (Rle_dec a b); split; intros; try discriminate; try lra; tauto. Qed.

Lemma Rgt_b_true (a b : R) : Rgt_b a b = true <-> a > b.
Proof. unfold Rgt_b; destruct (Rgt_dec a b); split; intros; try discriminate; tauto. Qed.

Lemma Rgt_b_false (a b : R) : Rgt_b a b = false <-> a <= b.
Proof. unfold Rgt_b; destruct (Rgt_dec a b); split; intros; try discriminate; try lra; tauto. Qed.

Lemma Rge_b_true (a b : R) : Rge_b a b = true <-> a >= b.
Proof. unfold Rge_b; destruct (Rge_dec a b); split; intros; try discriminate; tauto. Qed.

Lemma Rge_b_false (a b : R) : Rge_b a b = false <-> a < b.
Proof. unfold Rge_b; destruct (Rge_dec a b); split; intros; try discriminate; try lra; tauto. Qed.

(** ** Entity.hit *)

Lemma hit_hp (e : Entity.t) (amount : R) :
  Entity.hp (Entity.hit e amount) = Entity.hp e - amount.
Proof. unfold Entity.hit; cbn. destruct (Rle_b _ _); reflexivity. Qed.

Lemma hit_alive (e : Entity.t) (amount : R) :
  Entity.alive (Entity.hit e amount)
  = if Rle_b (Entity.hp e - amount) 0 then false else Entity.alive e.
Proof. unfold Entity.hit; cbn. destruct (Rle_b _ _); reflexivity. Qed.

(** C3, as the code has it: [hit] lowers the health by the amount whatever
    the state of the entity, clears the alive flag when the new health is at
    most 0 and otherwise keeps it, and touches nothing else; on a dead
    entity the flag stays false while the health still goes down. *)
Theorem hit_subtracts_and_kills (e : Entity.t) (amount : R) :
  Entity.hp (Entity.hit e amount) = Entity.hp e - amount
  /\ Entity.alive (Entity.hit e amount)
     = (if Rle_b (Entity.hp e - amount) 0 then false else Entity.alive e)
  /\ Entity.hit e amount
     = Entity.set_alive (Entity.set_hp e (Entity.hp e - amount))
         (Entity.alive (Entity.hit e amount))
  /\ (Entity.alive e = false -> Entity.alive (Entity.hit e amount) = false).
Proof.
  unfold Entity.hit; cbn.
  destruct (Rle_b (Entity.hp e - amount) 0) eqn:E; cbn; repeat split; auto.
Qed.

(** C3, the claim as stated fails: a dead entity at health 0 that is hit
    for 18 is not left as it was, its health drops to -18. *)
Lemma hit_dead_is_not_noop :
  let e := Entity.mk 0 0 10 "orange" 3 0 false in
  Entity.hit e 18 <> e /\ Entity.hp (Entity.hit e 18) = -18.
Proof.
  cbn. split.
  - intros H. apply (f_equal Entity.hp) in H. revert H.
    unfold Entity.hit; cbn. destruct (Rle_b (0 - 18) 0); cbn; lra.
  - unfold Entity.hit; cbn. destruct (Rle_b (0 - 18) 0); cbn; lra.
Qed.

(** ** Bullet.update *)

Lemma bullet_update_alive (b : Bullet.t) :
  Bullet.alive (Bullet.update b) = false <->
  Bullet.alive b = false
  \/ Bullet.x b + Bullet.vx b < -50 \/ Bullet.x b + Bullet.vx b > WIDTH + 50
  \/ Bullet.y b + Bullet.vy b < -50 \/ Bullet.y b + Bullet.vy b > HEIGHT + 50.
Proof.
  unfold Bullet.update; cbn.
  destruct (Rlt_b (Bullet.x b + Bullet.vx b) (-50)) eqn:E1;
  destruct (Rgt_b (Bullet.x b + Bullet.vx b) (WIDTH + 50)) eqn:E2;
  destruct (Rlt_b (Bullet.y b + Bullet.vy b) (-50)) eqn:E3;
  destruct (Rgt_b (Bullet.y b + Bullet.vy b) (HEIGHT + 50)) eqn:E4; cbn;
  try apply Rlt_b_true in E1; try apply Rlt_b_false in E1;
  try apply Rgt_b_true in E2; try apply Rgt_b_false in E2;
  try apply Rlt_b_true in E3; try apply Rlt_b_false in E3;
  try apply Rgt_b_true in E4; try apply Rgt_b_false in E4;
  split; intros H; auto; try tauto.
  destruct H as [H | [H | [H | [H | H]]]]; auto; lra.
Qed.

Lemma bullet_update_moves (b : Bullet.t) :
  Bullet.x (Bullet.update b) = Bullet.x b + Bullet.vx b
  /\ Bullet.y (Bullet.update b) = Bullet.y b + Bullet.vy b
  /\ Bullet.vx (Bullet.update b) = Bullet.vx b
  /\ Bullet.vy (Bullet.update b) = Bullet.vy b
  /\ Bullet.owner (Bullet.update b) = Bullet.owner b.
Proof.
  unfold Bullet.update; cbn.
  destruct (_ || _); cbn; auto.
Qed.

(** The flight along the x axis from (100,100) at 12 units a tick. *)
Lemma flight_position (k : nat) :
  (k <= 70)%nat ->
  Bullet.ticks k (Bullet.mk PlayerRef 100 100 12 0 true)
  = Bullet.mk PlayerRef (100 + 12 * INR k) 100 12 0 true.
Proof.
  induction k as [|k IH]; intros Hk.
  - cbn. f_equal. lra.
  - cbn [Bullet.ticks]. rewrite IH by lia.
    assert (Hb : INR k <= 69) by (replace 69 with (INR 69) by (cbn; lra); apply le_INR; lia).
    assert (0 <= INR k) by apply pos_INR.
    rewrite S_INR.
    unfold Bullet.update, WIDTH, HEIGHT; cbn.
    replace (Rlt_b (100 + 12 * INR k + 12) (-50)) with false
      by (symmetry; apply Rlt_b_false; lra).
    replace (Rgt_b (100 + 12 * INR k + 12) (900 + 50)) with false
      by (symmetry; apply Rgt_b_false; lra).
    replace (Rlt_b (100 + 0) (-50)) with false by (symmetry; apply Rlt_b_false; lra).
    replace (Rgt_b (100 + 0) (600 + 50)) with false by (symmetry; apply Rgt_b_false; lra).
    cbn. f_equal; lra.
Qed.

(** C7, as the code has it: with the playfield 900 wide the bullet from
    (100,100) at velocity (12,0) is alive through its first 70 ticks and is
    marked not alive by the 71st, where x = 952 passes WIDTH + 50 = 950; and
    one [update] marks a bullet not alive exactly when it was so already or
    the advanced position is more than 50 outside the playfield on a side. *)
Theorem bullet_leaves_playfield_after_71_ticks :
  let b := Bullet.mk PlayerRef 100 100 12 0 true in
  (forall k, (k <= 70)%nat -> Bullet.alive (Bullet.ticks k b) = true)
  /\ Bullet.alive (Bullet.ticks 71 b) = false
  /\ Bullet.x (Bullet.ticks 71 b) = 952
  /\ (forall b' : Bullet.t,
        Bullet.alive (Bullet.update b') = false <->
        Bullet.alive b' = false
        \/ Bullet.x b' + Bullet.vx b' < -50 \/ Bullet.x b' + Bullet.vx b' > WIDTH + 50
        \/ Bullet.y b' + Bullet.vy b' < -50 \/ Bullet.y b' + Bullet.vy b' > HEIGHT + 50).
Proof.
  cbv zeta. split; [| split; [| split]].
  - intros k Hk. rewrite flight_position by exact Hk. reflexivity.
  - change (Bullet.ticks 71 ?b) with (Bullet.update (Bullet.ticks 70 b)).
    rewrite flight_position by lia.
    apply bullet_update_alive. right; right; left.
    unfold WIDTH; cbn. lra.
  - change (Bullet.ticks 71 ?b) with (Bullet.update (Bullet.ticks 70 b)).
    rewrite flight_position by lia.
    destruct (bullet_update_moves (Bullet.mk PlayerRef (100 + 12 * INR 70) 100 12 0 true))
      as [Hx _].
    rewrite Hx. cbn. lra.
  - exact bullet_update_alive.
Qed.

(** C7, the claim as stated fails: after ceil(200/12) = 17 ticks the bullet
    stands at x = 304, inside WIDTH + 50 = 950, and is still alive. *)
Lemma bullet_alive_after_17_ticks :
  let b := Bullet.mk PlayerRef 100 100 12 0 true in
  ceil_div 200 12 = 17%nat
  /\ Bullet.x (Bullet.ticks (ceil_div 200 12) b) = 304
  /\ Bullet.alive (Bullet.ticks (ceil_div 200 12) b) = true.
Proof.
  cbv zeta.
  assert (E : ceil_div 200 12 = 17%nat) by reflexivity.
  rewrite E. split; [reflexivity|].
  rewrite flight_position by lia. cbn. split; [lra | reflexivity].
Qed.

(** ** The safe zone *)

Lemma initial_zone_radius_value : INITIAL_ZONE_RADIUS = 270.
Proof.
  unfold INITIAL_ZONE_RADIUS, WIDTH, HEIGHT.
  rewrite Rmin_right by lra. lra.
Qed.

Lemma clamp_bounds (v a b : R) : a <= b -> a <= clamp v a b <= b.
Proof.
  intros Hab. unfold clamp, Rmax, Rmin.
  destruct (Rle_dec b v); destruct (Rle_dec a _); lra.
Qed.

Lemma clamp_monotone (v w a b : R) : v <= w -> clamp v a b <= clamp w a b.
Proof.
  intros Hvw. unfold clamp, Rmax, Rmin.
  destruct (Rle_dec b v); destruct (Rle_dec b w);
    repeat match goal with |- context [Rle_dec ?p ?q] => destruct (Rle_dec p q) end; lra.
Qed.

Lemma zone_update_bounds (t : R) :
  FINAL_ZONE_RADIUS <= BattleRoyale.zone_update t <= INITIAL_ZONE_RADIUS.
Proof.
  unfold BattleRoyale.zone_update. rewrite initial_zone_radius_value.
  unfold FINAL_ZONE_RADIUS.
  destruct (Rlt_b t ZONE_SHRINK_START); [lra|].
  pose proof (clamp_bounds ((t - ZONE_SHRINK_START) / ZONE_SHRINK_DURATION) 0 1) as H.
  specialize (H ltac:(lra)). nra.
Qed.

(** ** Player.fire *)

(** C2: a fire request is turned down, leaving the player as it was and
    giving no bullet, exactly when the player is dead or the clock read by
    [can_fire] is less than 0.35 s past [last_fire]; otherwise the player
    that results has the next clock reading as its [last_fire] and is
    otherwise the same, and the bullet starts at the player's position moved
    along the unit direction to the target by radius + BULLET_RADIUS + 1,
    with that direction times 12 as velocity.  Whatever the outcome,
    [last_fire] of the player that results is that reading when a bullet is
    returned and the old [last_fire] when none is. *)
Theorem player_fire_contract (p : Player.t) (tx ty : R) (o : Oracle) (n : nat) :
  let e := Player.ent p in
  let rejected :=
    Entity.alive e = false \/ time_at o n - Player.last_fire p < 35 / 100 in
  let d := normalize (tx - Entity.x e) (ty - Entity.y e) in
  let off := Entity.radius e + BULLET_RADIUS + 1 in
  ((exists n', Player.fire p tx ty o n = Returns (p, None) n') <-> rejected)
  /\ (rejected -> Player.fire p tx ty o n = Returns (p, None) (S n))
  /\ (~ rejected ->
      Player.fire p tx ty o n
      = Returns (Player.mk e (time_at o (S n)),
                 Some (Bullet.mk PlayerRef
                         (Entity.x e + fst d * off) (Entity.y e + snd d * off)
                         (fst d * 12) (snd d * 12) true))
                (S (S n)))
  /\ (exists p' b n',
        Player.fire p tx ty o n = Returns (p', b) n'
        /\ Player.ent p' = e
        /\ Player.last_fire p'
           = match b with
             | Some _ => time_at o (S n)
             | None => Player.last_fire p
             end).
Proof.
  cbv zeta.
  unfold Player.fire, Player.can_fire, bind, ret, time_time, FIRE_COOLDOWN, BULLET_SPEED.
  destruct (normalize _ _) as [nx ny]; cbn [fst snd].
  destruct (Rge_b (time_at o n - Player.last_fire p) (35 / 100)) eqn:Ec;
    [apply Rge_b_true in Ec | apply Rge_b_false in Ec];
    destruct (Entity.alive (Player.ent p)) eqn:Ea; cbn.
  - split; [split | split; [| split]].
    + intros [n' H]. discriminate H.
    + intros [H | H]; [discriminate | lra].
    + intros [H | H]; [discriminate | lra].
    + intros _. reflexivity.
    + eexists; eexists; eexists. split; [reflexivity | split; reflexivity].
  - split; [split | split; [| split]]; eauto.
    + intros H; exfalso; apply H; auto.
    + eexists; eexists; eexists. split; [reflexivity | split; reflexivity].
  - split; [split | split; [| split]]; eauto.
    + intros H; exfalso; apply H; auto.
    + eexists; eexists; eexists. split; [reflexivity | split; reflexivity].
  - split; [split | split; [| split]]; eauto.
    + intros H; exfalso; apply H; auto.
    + eexists; eexists; eexists. split; [reflexivity | split; reflexivity].
Qed.

(** ** Bot.update_ai and Bot.step *)

(** C5, as the code has it: a call of [update_ai] picks a new target, and
    stamps the retarget time, exactly when the clock is more than 1.2 s past
    the last retarget or no target is set; otherwise the bot is left as it
    was, whether or not the entity it tracks is still alive. *)
Theorem bot_retargets_when_due (b : Bot.t) (p : Player.t) (o : Oracle) (n : nat) :
  let due :=
    time_at o n - Bot.last_target_time b > 12 / 10 \/ Bot.target b = None in
  let stamped := Bot.set_last_target_time b (time_at o (S n)) in
  let chase := Rlt_b (random_at o (S (S n))) (7 / 10) && Entity.alive (Player.ent p) in
  let wander :=
    TPoint (0 + (WIDTH - 0) * random_at o (S (S (S n))))
           (0 + (HEIGHT - 0) * random_at o (S (S (S (S n))))) in
  (due ->
   Bot.update_ai b p o n
   = if chase
     then Returns (Bot.set_target stamped (Some (TEntity PlayerRef))) (S (S (S n)))
     else Returns (Bot.set_target stamped (Some wander)) (S (S (S (S (S n))))))
  /\ (~ due -> Bot.update_ai b p o n = Returns b (S n)).
Proof.
  cbv zeta.
  unfold Bot.update_ai, bind, ret, time_time, random_uniform, random_random, bind, ret.
  destruct (Rgt_b (time_at o n - Bot.last_target_time b) (12 / 10)) eqn:Ec;
    [apply Rgt_b_true in Ec | apply Rgt_b_false in Ec];
    destruct (Bot.target b) eqn:Et; cbn [orb Bot.is_none].
  - split; [intros _ | intros H; exfalso; apply H; auto].
    destruct (_ && _); reflexivity.
  - split; [intros _ | intros H; exfalso; apply H; auto].
    destruct (_ && _); reflexivity.
  - split; [intros [H | H]; [lra | discriminate] | reflexivity].
  - split; [intros _ | intros H; exfalso; apply H; auto].
    destruct (_ && _); reflexivity.
Qed.

(** C5, the claim as stated fails: a bot that tracks the player and last
    retargeted at 100 s is ticked at 100.5 s with the player dead; it is
    left as it was, still tracking the dead player. *)
Lemma dead_target_is_kept_until_due :
  let p := Player.mk (Entity.mk 450 300 10 "dodgerblue" 5 (-8) false) 0 in
  let b := Bot.mk (Entity.mk 30 30 10 "orange" 3 100 true)
                  (Some (TEntity PlayerRef)) 100 0 in
  let o := mkOracle (fun _ => 1005 / 10) (fun _ => 0) (fun _ => O) in
  Entity.alive (Bot.deref p [b] PlayerRef) = false
  /\ Bot.update_ai b p o 0%nat = Returns b 1%nat.
Proof.
  cbv zeta. split; [reflexivity|].
  unfold Bot.update_ai, bind, ret, time_time; cbn.
  replace (Rgt_b (1005 / 10 - 100) (12 / 10)) with false
    by (symmetry; apply Rgt_b_false; lra).
  reflexivity.
Qed.

Lemma update_ai_sets_target (b : Bot.t) (p : Player.t) (o : Oracle) (n : nat) :
  exists b1 n1,
    Bot.update_ai b p o n = Returns b1 n1 /\ Bot.target b1 <> None
    /\ Bot.ent b1 = Bot.ent b /\ (n <= n1)%nat.
Proof.
  unfold Bot.update_ai, bind, ret, time_time, random_uniform, random_random, bind, ret.
  destruct (Rgt_b (time_at o n - Bot.last_target_time b) (12 / 10));
    destruct (Bot.target b) eqn:Et; cbn [orb Bot.is_none];
    try (destruct (_ && _); eexists; eexists; repeat split; cbn; try discriminate; lia).
  exists b, (S n). rewrite Et. repeat split; try discriminate; lia.
Qed.

(** C10: whatever the bot's state, the [update_ai] call that opens [step]
    returns with a target set, so [step] resolves the target position of an
    entity or of a point, never of [None]: it returns and raises nothing. *)
Theorem step_never_meets_absent_target
  (b : Bot.t) (p : Player.t) (bs : list Bot.t) (o : Oracle) (n : nat) :
  (exists b1 n1, Bot.update_ai b p o n = Returns b1 n1 /\ Bot.target b1 <> None)
  /\ (exists b' n', Bot.step b p bs o n = Returns b' n' /\ Bot.target b' <> None)
  /\ Bot.step b p bs o n <> Raises TypeError.
Proof.
  destruct (update_ai_sets_target b p o n) as (b1 & n1 & Hu & Ht & _).
  split; [eauto|].
  assert (Hs : exists b' n', Bot.step b p bs o n = Returns b' n' /\ Bot.target b' <> None).
  { unfold Bot.step, bind. rewrite Hu.
    destruct (Bot.target b1) as [tg|] eqn:E; [| contradiction].
    destruct tg as [r | px py];
      destruct (normalize _ _) as [nx ny];
      unfold random_uniform, random_random, bind, ret; cbn;
      eexists; eexists; (split; [reflexivity |]); cbn; rewrite E; discriminate. }
  split; [exact Hs|].
  destruct Hs as (b' & n' & Hs & _). rewrite Hs. discriminate.
Qed.

(** ** Collision resolution *)

Lemma ref_eqb_eq (a b : EntityRef) : ref_eqb a b = true <-> a = b.
Proof.
  destruct a as [|i], b as [|j]; cbn; split; intros H;
    try discriminate; try reflexivity.
  - apply Nat.eqb_eq in H. now subst.
  - injection H as ->. apply Nat.eqb_refl.
Qed.

Lemma ref_eqb_neq (a b : EntityRef) : ref_eqb a b = false <-> a <> b.
Proof.
  split.
  - intros H E. apply ref_eqb_eq in E. congruence.
  - intros H. destruct (ref_eqb a b) eqn:E; [| reflexivity].
    apply ref_eqb_eq in E. contradiction.
Qed.

Lemma hits_player_reach (p : Player.t) (bs : list Bot.t) (bullet : Bullet.t) :
  BattleRoyale.hits_player p bs bullet = true <-> player_in_reach p bs bullet.
Proof.
  unfold BattleRoyale.hits_player, player_in_reach.
  rewrite !andb_true_iff, negb_true_iff, ref_eqb_neq, Rle_b_true. tauto.
Qed.

(** The test the scan makes on one bot. *)
Lemma scan_test_reach (bullet : Bullet.t) (i : nat) (bot : Bot.t) :
  bot_in_reach bullet i bot <->
  negb (Entity.alive (Bot.ent bot)) || ref_eqb (Bullet.owner bullet) (BotRef i) = false
  /\ Rle_b (distance (Bullet.x bullet, Bullet.y bullet)
                     (Entity.x (Bot.ent bot), Entity.y (Bot.ent bot)))
           (BULLET_RADIUS + Entity.radius (Bot.ent bot)) = true.
Proof.
  unfold bot_in_reach.
  rewrite orb_false_iff, negb_false_iff, ref_eqb_neq, Rle_b_true. tauto.
Qed.

Lemma scan_bots_none (bullet : Bullet.t) (bs : list Bot.t) (i : nat) :
  (forall k bot', nth_error bs k = Some bot' -> ~ bot_in_reach bullet (i + k) bot') ->
  BattleRoyale.scan_bots bullet i bs = (bs, false).
Proof.
  revert i. induction bs as [|bot rest IH]; intros i Hno; [reflexivity|].
  cbn [BattleRoyale.scan_bots].
  assert (Hrest : BattleRoyale.scan_bots bullet (S i) rest = (rest, false)).
  { apply IH. intros k bot' Hk. replace (S i + k)%nat with (i + S k)%nat by lia.
    apply Hno. exact Hk. }
  rewrite Hrest.
  specialize (Hno O bot eq_refl). rewrite Nat.add_0_r in Hno.
  rewrite scan_test_reach in Hno.
  destruct (negb _ || _); [reflexivity|].
  destruct (Rle_b _ _); [exfalso; apply Hno; auto | reflexivity].
Qed.

Lemma scan_bots_first (bullet : Bullet.t) (bs : list Bot.t) (i j : nat) (bot : Bot.t) :
  nth_error bs j = Some bot ->
  bot_in_reach bullet (i + j) bot ->
  (forall k bot', (k < j)%nat -> nth_error bs k = Some bot' ->
                  ~ bot_in_reach bullet (i + k) bot') ->
  BattleRoyale.scan_bots bullet i bs
  = (firstn j bs ++ Bot.hit bot 22 :: skipn (S j) bs, true).
Proof.
  revert i j. induction bs as [|b0 rest IH]; intros i j Hj Hin Hbefore.
  - destruct j; discriminate Hj.
  - destruct j as [|j].
    + cbn in Hj. injection Hj as ->. rewrite Nat.add_0_r in Hin.
      apply scan_test_reach in Hin. destruct Hin as [H1 H2].
      cbn [BattleRoyale.scan_bots]. rewrite H1, H2. reflexivity.
    + cbn in Hj. cbn [BattleRoyale.scan_bots firstn skipn app].
      rewrite (IH (S i) j Hj).
      * specialize (Hbefore O b0 ltac:(lia) eq_refl). rewrite Nat.add_0_r in Hbefore.
        rewrite scan_test_reach in Hbefore.
        destruct (negb _ || _); [reflexivity|].
        destruct (Rle_b _ _); [exfalso; apply Hbefore; auto | reflexivity].
      * replace (S i + j)%nat with (i + S j)%nat by lia. exact Hin.
      * intros k bot' Hk Hn. replace (S i + k)%nat with (i + S k)%nat by lia.
        apply Hbefore; [lia | exact Hn].
Qed.

Lemma nth_error_replaced {A : Type} (l : list A) (j k : nat) (a a' : A) :
  nth_error l j = Some a -> k <> j ->
  nth_error (firstn j l ++ a' :: skipn (S j) l) k = nth_error l k.
Proof.
  revert j k. induction l as [|h l IH]; intros j k Hj Hk.
  - destruct j; discriminate Hj.
  - destruct j as [|j]; destruct k as [|k]; cbn in *; try congruence.
    apply IH; [exact Hj | lia].
Qed.

(** The body of the loop for a live bullet, by what is in reach of the bullet
    after it has advanced. *)
Lemma update_bullet_cases (p : Player.t) (bs : list Bot.t) (bullet : Bullet.t) :
  let b1 := Bullet.update bullet in
  (player_in_reach p bs b1 ->
   BattleRoyale.update_bullet p bs bullet
   = (Player.hit p 18, bs, Bullet.set_alive b1 false)
   /\ Entity.hp (Player.ent (Player.hit p 18)) = Entity.hp (Player.ent p) - 18)
  /\ (~ player_in_reach p bs b1 ->
      (forall j bot, first_in_reach b1 bs j bot ->
         let bs' := firstn j bs ++ Bot.hit bot 22 :: skipn (S j) bs in
         BattleRoyale.update_bullet p bs bullet = (p, bs', Bullet.set_alive b1 false)
         /\ Entity.hp (Bot.ent (Bot.hit bot 22)) = Entity.hp (Bot.ent bot) - 22
         /\ forall k, k <> j -> nth_error bs' k = nth_error bs k)
      /\ (none_in_reach b1 bs -> BattleRoyale.update_bullet p bs bullet = (p, bs, b1))).
Proof.
  cbv zeta. split.
  - intros Hp. apply hits_player_reach in Hp.
    unfold BattleRoyale.update_bullet. rewrite Hp. split; [reflexivity|].
    unfold Player.hit; cbn. apply hit_hp.
  - intros Hp.
    assert (Hf : BattleRoyale.hits_player p bs (Bullet.update bullet) = false).
    { destruct (BattleRoyale.hits_player p bs (Bullet.update bullet)) eqn:E; [|reflexivity].
      apply hits_player_reach in E. contradiction. }
    split.
    + intros j bot (Hj & Hin & Hbefore).
      unfold BattleRoyale.update_bullet. rewrite Hf.
      rewrite (scan_bots_first _ bs O j bot Hj Hin Hbefore).
      split; [reflexivity | split].
      * unfold Bot.hit; cbn. apply hit_hp.
      * intros k Hk. apply nth_error_replaced with (a := bot); assumption.
    + intros Hnone. unfold BattleRoyale.update_bullet. rewrite Hf.
      rewrite (scan_bots_none _ bs O Hnone). reflexivity.
Qed.

(** A bullet that has hit is the advanced bullet with its alive flag down. *)
Lemma killed_bullet (bullet : Bullet.t) :
  Bullet.set_alive (Bullet.update bullet) false
  = Bullet.mk (Bullet.owner bullet) (Bullet.x bullet + Bullet.vx bullet)
      (Bullet.y bullet + Bullet.vy bullet) (Bullet.vx bullet) (Bullet.vy bullet) false.
Proof.
  unfold Bullet.set_alive.
  destruct (bullet_update_moves bullet) as (-> & -> & -> & -> & ->). reflexivity.
Qed.

(** The loop hands a live bullet to its body and goes on with the player
    and the bots the body leaves. *)
Lemma update_bullets_live (p : Player.t) (bs : list Bot.t) (bullet : Bullet.t)
      (rest : list Bullet.t) :
  Bullet.alive bullet = true ->
  BattleRoyale.update_bullets p bs (bullet :: rest)
  = let '(p1, bs1, bullet1) := BattleRoyale.update_bullet p bs bullet in
    kept_before bullet1 (BattleRoyale.update_bullets p1 bs1 rest).
Proof.
  intros Ha. cbn [BattleRoyale.update_bullets]. rewrite Ha. cbn [negb].
  destruct (BattleRoyale.update_bullet p bs bullet) as [[p1 bs1] bullet1].
  reflexivity.
Qed.

(** ** Replenishing the bots *)

Lemma spawn_bot_appends (g : BattleRoyale.t) (o : Oracle) (n : nat) :
  exists x y,
    BattleRoyale.spawn_bot g o n
    = Returns (BattleRoyale.set_bots g (BattleRoyale.bots g ++ [Bot.init x y]))
              (S (S (S n))).
Proof.
  unfold BattleRoyale.spawn_bot, bind, random_choice.
  repeat (destruct (String.eqb _ _));
    unfold random_uniform, random_random, bind, ret; eexists; eexists; reflexivity.
Qed.

(** C8, as the code has it: with MAX_BOTS = 10 the end of a tick spawns a
    bot exactly when fewer than max(2, 10 // 3) = 3 bots are alive, fewer
    than 2 * 10 = 20 bots are in the list, and the draw is below 0.02; the
    draw is made only when the two counts allow it, and otherwise the state
    is left as it was. *)
Theorem bots_replenished_below_cap (g : BattleRoyale.t) (o : Oracle) (n : nat) :
  let wanted :=
    (BattleRoyale.live_bots g < 3)%nat /\ (List.length (BattleRoyale.bots g) < 20)%nat in
  Nat.max 2 (MAX_BOTS / 3) = 3%nat /\ (MAX_BOTS * 2 = 20)%nat
  /\ (wanted -> random_at o n < 2 / 100 ->
      exists x y,
        BattleRoyale.replenish g o n
        = Returns (BattleRoyale.set_bots g (BattleRoyale.bots g ++ [Bot.init x y]))
                  (S (S (S (S n)))))
  /\ (wanted -> ~ random_at o n < 2 / 100 -> BattleRoyale.replenish g o n = Returns g (S n))
  /\ (~ wanted -> BattleRoyale.replenish g o n = Returns g n).
Proof.
  cbv zeta. split; [reflexivity | split; [reflexivity |]].
  unfold BattleRoyale.replenish.
  change (Nat.max 2 (MAX_BOTS / 3)) with 3%nat. change (MAX_BOTS * 2)%nat with 20%nat.
  destruct (BattleRoyale.live_bots g <? 3)%nat eqn:E1;
    [apply Nat.ltb_lt in E1 | apply Nat.ltb_ge in E1];
    (destruct (List.length (BattleRoyale.bots g) <? 20)%nat eqn:E2;
     [apply Nat.ltb_lt in E2 | apply Nat.ltb_ge in E2]); cbn [andb].
  - unfold bind, random_random, ret.
    destruct (Rlt_b (random_at o n) (2 / 100)) eqn:Er;
      [apply Rlt_b_true in Er | apply Rlt_b_false in Er].
    + split; [| split].
      * intros _ _. apply spawn_bot_appends.
      * intros _ H. contradiction.
      * intros H. exfalso. apply H. split; assumption.
    + split; [| split].
      * intros _ H. lra.
      * intros _ _. reflexivity.
      * intros H. exfalso. apply H. split; assumption.
  - split; [| split]; try (intros [_ H]; lia). intros _. reflexivity.
  - split; [| split]; try (intros [H _]; lia). intros _. reflexivity.
  - split; [| split]; try (intros [H _]; lia). intros _. reflexivity.
Qed.

(** C8, the claim as stated fails: with 12 bots in the list, 2 of them
    alive, and a draw of 0.01, the end of the tick appends a 13th bot. *)
Lemma twelve_spawned_two_alive_still_spawns :
  let dead := Bot.mk (Entity.mk 0 0 10 "orange" 3 0 false) None 0 0 in
  let g := BattleRoyale.mk (Player.init 450 300)
             (Bot.init 100 100 :: Bot.init 200 200 :: repeat dead 10) [] []
             (450, 300) false 0 (450, 300) 270 0 true None 1 0 in
  let o := mkOracle (fun _ => 0) (fun _ => 1 / 100) (fun _ => O) in
  MAX_BOTS = 10%nat
  /\ BattleRoyale.live_bots g = 2%nat
  /\ List.length (BattleRoyale.bots g) = 12%nat
  /\ exists g' n',
       BattleRoyale.replenish g o 0%nat = Returns g' n'
       /\ List.length (BattleRoyale.bots g') = 13%nat.
Proof.
  cbv zeta. split; [reflexivity | split; [reflexivity | split; [reflexivity |]]].
  unfold BattleRoyale.replenish, BattleRoyale.live_bots; cbn.
  replace (Rlt_b (1 / 100) (2 / 100)) with true by (symmetry; apply Rlt_b_true; lra).
  match goal with |- context [BattleRoyale.spawn_bot ?g ?o ?n] =>
    destruct (spawn_bot_appends g o n) as (x & y & H)
  end.
  eexists; eexists. split; [exact H | reflexivity].
Qed.

(** ** The timer loop and restart *)

Lemma spawn_bots_only_bots (k : nat) (g : BattleRoyale.t) (o : Oracle) (n : nat) :
  exists bs n',
    BattleRoyale.spawn_bots k g o n = Returns (BattleRoyale.set_bots g bs) n'.
Proof.
  revert g n. induction k as [|k IH]; intros g n.
  - exists (BattleRoyale.bots g), n. destruct g; reflexivity.
  - cbn [BattleRoyale.spawn_bots]. unfold bind.
    destruct (spawn_bot_appends g o n) as (x & y & ->).
    destruct (IH (BattleRoyale.set_bots g (BattleRoyale.bots g ++ [Bot.init x y]))
                 (S (S (S n)))) as (bs & n' & ->).
    exists bs, n'. reflexivity.
Qed.

(** The callback in which the simulation ends the session still draws the
    frame with the end screen and registers the next callback. *)
Lemma update_loop_while_running (g g' : BattleRoyale.t) (o : Oracle) (n n' : nat) :
  BattleRoyale.running g = true ->
  BattleRoyale.paused g = false ->
  BattleRoyale.update
    (BattleRoyale.set_clock g (BattleRoyale.start_time g) (time_at o n))
    (time_at o n - BattleRoyale.last_time g) o (S n) = Returns g' n' ->
  BattleRoyale.update_loop g o n
  = Returns (BattleRoyale.after (BattleRoyale.drawn g')) (S n').
Proof.
  intros Hr Hp Hu. unfold BattleRoyale.update_loop. rewrite Hr. cbn [negb].
  unfold bind at 1. unfold time_time at 1. cbn [BattleRoyale.paused BattleRoyale.set_clock].
  rewrite Hp. cbn [negb]. unfold bind. rewrite Hu. reflexivity.
Qed.

(** C9 does not hold of the code, which does this instead: once the
    running flag is down, the one registered callback returns at once,
    drawing no frame and registering no successor; [restart] then raises
    the flag again and rebuilds the entities but registers nothing, so
    however many timer delays pass afterwards, no simulation step and no
    render ever runs. *)
Theorem ended_loop_is_not_resumed_by_restart
  (g : BattleRoyale.t) (o : Oracle) (n : nat) :
  BattleRoyale.running g = false ->
  BattleRoyale.pending g = 1%nat ->
  exists g1 g2 n2,
    BattleRoyale.timer_fire g o n = Returns g1 n
    /\ BattleRoyale.frames g1 = BattleRoyale.frames g
    /\ BattleRoyale.pending g1 = 0%nat
    /\ BattleRoyale.restart g1 o n = Returns g2 n2
    /\ BattleRoyale.running g2 = true
    /\ BattleRoyale.paused g2 = false
    /\ BattleRoyale.pending g2 = 0%nat
    /\ forall k, timer_fires k g2 o n2 = Returns g2 n2.
Proof.
  intros Hr Hp.
  exists (BattleRoyale.set_host g 0 (BattleRoyale.frames g)).
  unfold BattleRoyale.restart, bind.
  match goal with |- context [BattleRoyale.spawn_bots ?k ?g0 o n] =>
    destruct (spawn_bots_only_bots k g0 o n) as (bs & n' & Hs)
  end.
  eexists; eexists.
  split.
  { unfold BattleRoyale.timer_fire. rewrite Hp.
    unfold BattleRoyale.update_loop. cbn. rewrite Hr. reflexivity. }
  split; [reflexivity|]. split; [reflexivity|].
  split.
  { cbn in Hs |- *. rewrite Hs. unfold time_time, ret. reflexivity. }
  split; [reflexivity|]. split; [reflexivity|]. split; [reflexivity|].
  intros k. induction k as [|k IH]; [reflexivity|].
  cbn [timer_fires]. unfold bind. unfold BattleRoyale.timer_fire at 1. cbn.
  exact IH.
Qed.

Lemma ended_loop_is_not_resumed_by_restart_witness :
  exists g1 g2 n2,
    BattleRoyale.timer_fire ended_game still_oracle 0%nat = Returns g1 0%nat
    /\ BattleRoyale.frames g1 = BattleRoyale.frames ended_game
    /\ BattleRoyale.pending g1 = 0%nat
    /\ BattleRoyale.restart g1 still_oracle 0%nat = Returns g2 n2
    /\ BattleRoyale.running g2 = true
    /\ BattleRoyale.paused g2 = false
    /\ BattleRoyale.pending g2 = 0%nat
    /\ forall k, timer_fires k g2 still_oracle n2 = Returns g2 n2.
Proof.
  exact (ended_loop_is_not_resumed_by_restart ended_game still_oracle 0%nat eq_refl eq_refl).
Defined.

(** ** Reasoning about computations that return *)

Lemma returns_ret {A : Type} (a : A) (Q : A -> Prop) : Q a -> returns (ret a) Q.
Proof. intros H o n. exists a, n. split; [reflexivity | split; [lia | exact H]]. Qed.

Lemma returns_bind {A B : Type} (m : M A) (k : A -> M B) (P : A -> Prop) (Q : B -> Prop) :
  returns m P -> (forall a, P a -> returns (k a) Q) -> returns (bind m k) Q.
Proof.
  intros Hm Hk o n. destruct (Hm o n) as (a & n1 & E & Hle & Ha).
  destruct (Hk a Ha o n1) as (b & n2 & E2 & Hle2 & Hb).
  exists b, n2. unfold bind. rewrite E. split; [assumption | split; [lia | assumption]].
Qed.

Lemma returns_weaken {A : Type} (m : M A) (P Q : A -> Prop) :
  returns m P -> (forall a, P a -> Q a) -> returns m Q.
Proof.
  intros Hm HPQ o n. destruct (Hm o n) as (a & n1 & E & Hle & Ha).
  exists a, n1. split; [exact E | split; [exact Hle | apply HPQ; exact Ha]].
Qed.

Lemma returns_time : returns time_time (fun _ => True).
Proof. intros o n. exists (time_at o n), (S n). split; [reflexivity | split; [lia | exact I]]. Qed.

Lemma returns_random : returns random_random (fun _ => True).
Proof. intros o n. exists (random_at o n), (S n). split; [reflexivity | split; [lia | exact I]]. Qed.


(** ** Health and the alive flag *)

Lemma decays_refl (e : Entity.t) : decays e e.
Proof. unfold decays. split; [lra | split; auto]. Qed.

Lemma decays_trans (e1 e2 e3 : Entity.t) : decays e1 e2 -> decays e2 e3 -> decays e1 e3.
Proof.
  intros (H1 & H2 & H3) (H4 & H5 & H6). unfold decays.
  split; [lra | split; auto].
Qed.

Lemma decays_same (e e' : Entity.t) :
  Entity.hp e' = Entity.hp e -> Entity.alive e' = Entity.alive e -> decays e e'.
Proof.
  intros Hh Ha. unfold decays, consistent. rewrite Hh, Ha.
  split; [lra | split; auto].
Qed.

Lemma hit_decays (e : Entity.t) (damage : R) : 0 <= damage -> decays e (Entity.hit e damage).
Proof.
  intros Hd. unfold decays, consistent. rewrite hit_hp, hit_alive.
  destruct (Rle_b (Entity.hp e - damage) 0) eqn:E;
    [apply Rle_b_true in E | apply Rle_b_false in E].
  - split; [lra | split; [reflexivity |]]. intros _. split; [intros _; lra | reflexivity].
  - split; [lra | split; [auto |]].
    intros [H1 H2]. split; intros H.
    + apply H1 in H. lra.
    + lra.
Qed.

Lemma init_consistent (x0 y0 r0 : R) (c : string) (s0 : R) :
  consistent (Entity.init x0 y0 r0 c s0).
Proof.
  unfold consistent, Entity.init, MAX_HEALTH; cbn. split; [discriminate | lra].
Qed.

Lemma bots_decay_refl (bs : list Bot.t) : bots_decay bs bs.
Proof. induction bs; constructor; auto using decays_refl. Qed.

Lemma bots_decay_trans (l1 l2 l3 : list Bot.t) :
  bots_decay l1 l2 -> bots_decay l2 l3 -> bots_decay l1 l3.
Proof.
  intros H12. revert l3. induction H12 as [|a b l1 l2 Hab _ IH]; intros l3 H23.
  - inversion H23; subst. constructor.
  - inversion H23 as [|b' c l2' l3' Hbc Hrest]; subst.
    constructor; [eapply decays_trans; eassumption | apply IH; assumption].
Qed.

Lemma bots_decay_consistent (l l' : list Bot.t) :
  bots_decay l l' ->
  Forall (fun b => consistent (Bot.ent b)) l ->
  Forall (fun b => consistent (Bot.ent b)) l'.
Proof.
  induction 1 as [|a b l l' Hab _ IH]; intros Hc; [constructor|].
  inversion Hc; subst. constructor; [apply Hab; assumption | apply IH; assumption].
Qed.

(** ** The phases of a simulation step *)

Lemma step_keeps_health (b : Bot.t) (p : Player.t) (bs : list Bot.t) :
  returns (Bot.step b p bs) (fun b' => decays (Bot.ent b) (Bot.ent b')).
Proof.
  intros o n.
  destruct (update_ai_sets_target b p o n) as (b1 & n1 & Hu & Ht & He & Hle).
  unfold Bot.step, bind. rewrite Hu.
  destruct (Bot.target b1) as [tg|] eqn:E; [| contradiction].
  destruct tg as [r | px py];
    destruct (normalize _ _) as [nx ny];
    unfold random_uniform, random_random, bind, ret; cbn;
    eexists; eexists; (split; [reflexivity |]); (split; [lia |]);
    apply decays_same; cbn; rewrite He; reflexivity.
Qed.

Lemma try_fire_returns (r : EntityRef) (b : Bot.t) (p : Player.t) :
  returns (Bot.try_fire r b p) (fun _ => True).
Proof.
  unfold Bot.try_fire.
  destruct (negb _ || negb _); [apply returns_ret; exact I|].
  eapply returns_bind; [apply returns_random|].
  intros draw _. cbn beta.
  destruct (Rlt_b _ _); [| apply returns_ret; exact I].
  destruct (normalize _ _) as [nx ny]. apply returns_ret. exact I.
Qed.

Lemma update_bots_decay (p : Player.t) (todo : list Bot.t) :
  forall (done : list Bot.t) (bl : list Bullet.t),
    returns (BattleRoyale.update_bots p done todo bl)
            (fun r => exists todo', fst r = done ++ todo' /\ bots_decay todo todo').
Proof.
  induction todo as [|bot rest IH]; intros done bl.
  - apply returns_ret. exists []. split; [symmetry; apply app_nil_r | constructor].
  - cbn [BattleRoyale.update_bots].
    destruct (negb (Entity.alive (Bot.ent bot))).
    + eapply returns_weaken; [apply IH|].
      intros r (todo' & Hr & Hd). exists (bot :: todo'). split.
      * rewrite Hr, <- app_assoc. reflexivity.
      * constructor; [apply decays_refl | exact Hd].
    + eapply returns_bind; [apply step_keeps_health|].
      intros bot1 Hb. cbn beta.
      eapply returns_bind; [apply try_fire_returns|].
      intros fired _. cbn beta.
      eapply returns_weaken; [apply IH|].
      intros r (todo' & Hr & Hd). exists (bot1 :: todo'). split.
      * rewrite Hr, <- app_assoc. reflexivity.
      * constructor; [exact Hb | exact Hd].
Qed.

Lemma scan_bots_decay (bullet : Bullet.t) (bs : list Bot.t) :
  forall i, bots_decay bs (fst (BattleRoyale.scan_bots bullet i bs)).
Proof.
  induction bs as [|bot rest IH]; intros i; [constructor|].
  cbn [BattleRoyale.scan_bots].
  specialize (IH (S i)).
  destruct (BattleRoyale.scan_bots bullet (S i) rest) as [rest' h].
  destruct (negb _ || _).
  - constructor; [apply decays_refl | exact IH].
  - destruct (Rle_b _ _).
    + constructor; [| apply bots_decay_refl].
      unfold Bot.hit; cbn. apply hit_decays. lra.
    + constructor; [apply decays_refl | exact IH].
Qed.

Lemma update_bullet_decay (p : Player.t) (bs : list Bot.t) (bullet : Bullet.t) :
  decays (Player.ent p) (Player.ent (fst (fst (BattleRoyale.update_bullet p bs bullet))))
  /\ bots_decay bs (snd (fst (BattleRoyale.update_bullet p bs bullet))).
Proof.
  unfold BattleRoyale.update_bullet.
  destruct (BattleRoyale.hits_player _ _ _).
  - cbn. split; [apply hit_decays; lra | apply bots_decay_refl].
  - pose proof (scan_bots_decay (Bullet.update bullet) bs O) as H.
    destruct (BattleRoyale.scan_bots _ _ _) as [bs' h]. cbn in *.
    split; [apply decays_refl | exact H].
Qed.

Lemma update_bullets_decay (bl : list Bullet.t) :
  forall (p : Player.t) (bs : list Bot.t),
    decays (Player.ent p) (Player.ent (fst (fst (BattleRoyale.update_bullets p bs bl))))
    /\ bots_decay bs (snd (fst (BattleRoyale.update_bullets p bs bl))).
Proof.
  induction bl as [|bullet rest IH]; intros p bs.
  - cbn. split; [apply decays_refl | apply bots_decay_refl].
  - cbn [BattleRoyale.update_bullets].
    destruct (negb (Bullet.alive bullet)); [apply IH|].
    pose proof (update_bullet_decay p bs bullet) as [Hp Hb].
    destruct (BattleRoyale.update_bullet p bs bullet) as [[p1 bs1] bullet1].
    specialize (IH p1 bs1).
    destruct (BattleRoyale.update_bullets p1 bs1 rest) as [[p2 bs2] rest'].
    cbn in *. destruct IH as [Hp2 Hb2].
    split; [eapply decays_trans; eassumption | eapply bots_decay_trans; eassumption].
Qed.

Lemma outside_damage_decays (c : R * R) (radius dt : R) (e : Entity.t) :
  0 <= dt -> decays e (BattleRoyale.outside_damage c radius dt e).
Proof.
  intros Hdt. unfold BattleRoyale.outside_damage.
  destruct (negb (Entity.alive e)); [apply decays_refl|].
  destruct (Rgt_b _ _); [| apply decays_refl].
  apply hit_decays. unfold OUTSIDE_DAMAGE. nra.
Qed.

Lemma evolves_of_parts (g g' : BattleRoyale.t) :
  decays (Player.ent (BattleRoyale.player g)) (Player.ent (BattleRoyale.player g')) ->
  bots_decay (BattleRoyale.bots g) (BattleRoyale.bots g') ->
  evolves g g'.
Proof.
  intros Hp Hb. split; [exact Hp|].
  exists (BattleRoyale.bots g'), []. rewrite app_nil_r. repeat split; auto.
Qed.

Lemma evolves_refl (g : BattleRoyale.t) : evolves g g.
Proof. apply evolves_of_parts; [apply decays_refl | apply bots_decay_refl]. Qed.

Lemma evolves_trans (g1 g2 g3 : BattleRoyale.t) :
  evolves g1 g2 -> evolves g2 g3 -> evolves g1 g3.
Proof.
  intros (Hp & bs1 & ex1 & E1 & Hd1 & Hc1) (Hp' & bs2 & ex2 & E2 & Hd2 & Hc2).
  split; [eapply decays_trans; eassumption|].
  rewrite E1 in Hd2. apply Forall2_app_inv_l in Hd2.
  destruct Hd2 as (bs1' & ex1' & Ha & Hb & ->).
  exists bs1', (ex1' ++ ex2). split; [rewrite E2, app_assoc; reflexivity | split].
  - eapply bots_decay_trans; eassumption.
  - apply Forall_app. split; [| exact Hc2].
    eapply bots_decay_consistent; eassumption.
Qed.


Lemma move_player_evolves (g : BattleRoyale.t) : evolves g (BattleRoyale.move_player g).
Proof.
  unfold BattleRoyale.move_player.
  destruct (normalize _ _) as [nx ny].
  apply evolves_of_parts; cbn; [apply decays_same; reflexivity | apply bots_decay_refl].
Qed.

Lemma check_win_evolves (g : BattleRoyale.t) :
  returns (BattleRoyale.check_win g) (evolves g).
Proof.
  unfold BattleRoyale.check_win.
  destruct (_ <=? _)%nat.
  - eapply returns_bind; [apply returns_time|].
    intros now _. apply returns_ret.
    apply evolves_of_parts; cbn; [apply decays_refl | apply bots_decay_refl].
  - apply returns_ret. apply evolves_refl.
Qed.

Lemma spawn_bot_evolves (g : BattleRoyale.t) :
  returns (BattleRoyale.spawn_bot g) (evolves g).
Proof.
  intros o n. destruct (spawn_bot_appends g o n) as (x & y & E).
  eexists; eexists. split; [exact E|]. split; [lia|].
  split; [apply decays_refl|].
  exists (BattleRoyale.bots g), [Bot.init x y]. cbn.
  split; [reflexivity | split; [apply bots_decay_refl|]].
  constructor; [apply init_consistent | constructor].
Qed.

Lemma replenish_evolves (g : BattleRoyale.t) :
  returns (BattleRoyale.replenish g) (evolves g).
Proof.
  unfold BattleRoyale.replenish.
  destruct (_ && _); [| apply returns_ret, evolves_refl].
  eapply returns_bind; [apply returns_random|].
  intros r _. cbn beta.
  destruct (Rlt_b _ _); [apply spawn_bot_evolves | apply returns_ret, evolves_refl].
Qed.

(** A simulation step for which the clock has not gone backwards. *)
Section ForwardStep.

Variable dt : R.
Hypothesis dt_forward : 0 <= dt.

Lemma zone_damage_evolves (g : BattleRoyale.t) :
  evolves g (BattleRoyale.zone_damage g dt).
Proof.
  apply evolves_of_parts; cbn.
  - apply outside_damage_decays; exact dt_forward.
  - induction (BattleRoyale.bots g) as [|b bs IH]; constructor; auto.
    cbn. apply outside_damage_decays; exact dt_forward.
Qed.

Lemma update_evolves (g : BattleRoyale.t) :
  returns (BattleRoyale.update g dt) (evolves g).
Proof.
  unfold BattleRoyale.update.
  pose proof (move_player_evolves g) as H1.
  set (g1 := BattleRoyale.move_player g) in *.
  eapply returns_bind; [apply update_bots_decay|].
  intros [bs bl] (todo' & Hr & Hd). cbn in Hr. subst bs.
  pose proof (update_bullets_decay bl (BattleRoyale.player g1) todo') as [Hp Hb].
  destruct (BattleRoyale.update_bullets _ _ _) as [[p3 bs3] bl3]. cbn in Hp, Hb.
  eapply returns_bind; [apply returns_time|].
  intros now _. cbn beta.
  eapply returns_bind; [apply check_win_evolves|].
  intros g6 H6. cbn beta.
  eapply returns_weaken; [apply replenish_evolves|].
  intros g7 H7.
  eapply evolves_trans; [exact H1|].
  eapply evolves_trans; [| exact H7].
  eapply evolves_trans; [| exact H6].
  eapply evolves_trans; [| apply zone_damage_evolves].
  apply evolves_of_parts; cbn; [exact Hp|].
  eapply bots_decay_trans; eassumption.
Qed.

End ForwardStep.

Lemma on_click_evolves (g : BattleRoyale.t) (ex ey : R) :
  returns (BattleRoyale.on_click g ex ey) (evolves g).
Proof.
  intros o n. unfold BattleRoyale.on_click.
  unfold bind at 1.
  unfold Player.fire, Player.can_fire, bind, ret, time_time.
  cbn [BattleRoyale.player BattleRoyale.set_input].
  destruct (negb _ || negb _).
  - eexists; eexists. split; [reflexivity|]. split; [lia|].
    apply evolves_of_parts; cbn; [apply decays_refl | apply bots_decay_refl].
  - destruct (normalize _ _) as [nx ny].
    eexists; eexists. split; [reflexivity|]. split; [lia|].
    apply evolves_of_parts; cbn; [apply decays_refl | apply bots_decay_refl].
Qed.

(** ** Sessions *)

Lemma handle_evolves (g : BattleRoyale.t) (ev : event) :
  forward ev -> returns (handle g ev) (evolves g).
Proof.
  destruct ev as [dt | ex ey]; cbn; intros H.
  - apply update_evolves; exact H.
  - apply on_click_evolves.
Qed.

Lemma run_evolves (evs : list event) :
  forall g, Forall forward evs -> returns (run g evs) (evolves g).
Proof.
  induction evs as [|ev rest IH]; intros g Hf.
  - apply returns_ret, evolves_refl.
  - inversion Hf; subst. cbn [run].
    eapply returns_bind; [apply handle_evolves; assumption|].
    intros g1 Hg1. eapply returns_weaken; [apply IH; assumption|].
    intros g2 Hg2. eapply evolves_trans; eassumption.
Qed.

Lemma run_app (evs1 evs2 : list event) :
  forall g o n,
    run g (evs1 ++ evs2) o n = (g1 <- run g evs1 ;; run g1 evs2) o n.
Proof.
  induction evs1 as [|ev rest IH]; intros g o n; [reflexivity|].
  cbn [run app]. unfold bind.
  destruct (handle g ev o n) as [g1 n1 | e]; [| reflexivity].
  rewrite IH. reflexivity.
Qed.

Lemma evolves_entity (g g' : BattleRoyale.t) (r : EntityRef) (e : Entity.t) :
  evolves g g' -> entity_at g r = Some e ->
  exists e', entity_at g' r = Some e' /\ decays e e'.
Proof.
  intros (Hp & bs1 & extra & E & Hd & _) He.
  destruct r as [|i]; cbn in *.
  - injection He as <-. eexists; split; [reflexivity | exact Hp].
  - rewrite E. clear E.
    revert i He. induction Hd as [|b b' l l' Hbb _ IH]; intros i He.
    + destruct i; discriminate He.
    + destruct i as [|i]; cbn in *.
      * injection He as <-. eexists; split; [reflexivity | exact Hbb].
      * apply IH; exact He.
Qed.

Lemma evolves_consistent (g g' : BattleRoyale.t) :
  evolves g g' -> all_consistent g -> all_consistent g'.
Proof.
  intros (Hp & bs1 & extra & E & Hd & Hx) Hc r e He.
  destruct r as [|i]; cbn in He.
  - injection He as <-. apply Hp. apply (Hc PlayerRef). reflexivity.
  - rewrite E in He.
    assert (Hall : Forall (fun b => consistent (Bot.ent b)) (bs1 ++ extra)).
    { apply Forall_app. split; [| exact Hx].
      eapply bots_decay_consistent; [exact Hd|].
      apply Forall_forall. intros b Hin.
      apply In_nth_error in Hin. destruct Hin as [k Hk].
      apply (Hc (BotRef k)). cbn. rewrite Hk. reflexivity. }
    destruct (nth_error (bs1 ++ extra) i) as [b|] eqn:Eb; [| discriminate He].
    cbn in He. injection He as <-.
    rewrite Forall_forall in Hall. apply Hall.
    eapply nth_error_In; exact Eb.
Qed.

(** C1, amended: over any sequence of fire requests and of simulation steps
    whose [dt] is not negative (the clock did not step back between two
    frames), from any state whose entities are consistent (as the freshly
    built ones are), the session returns a state that is consistent again,
    in which every entity of the start, player or bot, has no more health
    than it had, is dead if it was dead, and is dead exactly when its health
    was at most 0 after some prefix of the sequence.  Without the condition
    on [dt] the health can rise, as the loop shows when the clock steps
    back. *)
Theorem health_never_rises_and_death_is_final
  (g0 : BattleRoyale.t) (evs : list event) (o : Oracle) (n : nat) :
  all_consistent g0 ->
  Forall forward evs ->
  exists g n',
    run g0 evs o n = Returns g n'
    /\ all_consistent g
    /\ forall r e0, entity_at g0 r = Some e0 ->
       exists e,
         entity_at g r = Some e
         /\ Entity.hp e <= Entity.hp e0
         /\ (Entity.alive e0 = false -> Entity.alive e = false)
         /\ (Entity.alive e = false <->
             exists evs1 evs2 g1 n1 e1,
               evs = evs1 ++ evs2
               /\ run g0 evs1 o n = Returns g1 n1
               /\ entity_at g1 r = Some e1
               /\ Entity.hp e1 <= 0).
Proof.
  intros Hc Hf.
  destruct (run_evolves evs g0 Hf o n) as (g & n' & Hrun & _ & Hev).
  exists g, n'. split; [exact Hrun|].
  assert (Hcg : all_consistent g) by (eapply evolves_consistent; eassumption).
  split; [exact Hcg|].
  intros r e0 He0.
  destruct (evolves_entity g0 g r e0 Hev He0) as (e & He & Hhp & Hdead & _).
  exists e. split; [exact He|]. split; [exact Hhp|]. split; [exact Hdead|].
  split.
  - intros Ha. exists evs, [], g, n', e.
    split; [symmetry; apply app_nil_r|]. split; [exact Hrun|]. split; [exact He|].
    apply (Hcg r e He). exact Ha.
  - intros (evs1 & evs2 & g1 & n1 & e1 & -> & Hrun1 & He1 & Hz).
    apply Forall_app in Hf. destruct Hf as [Hf1 Hf2].
    assert (Hev1 : evolves g0 g1).
    { destruct (run_evolves evs1 g0 Hf1 o n) as (g1' & n1' & Hr & _ & H).
      rewrite Hrun1 in Hr. injection Hr as <- <-. exact H. }
    assert (Hc1 : all_consistent g1) by (eapply evolves_consistent; eassumption).
    rewrite run_app in Hrun. unfold bind in Hrun. rewrite Hrun1 in Hrun.
    destruct (run_evolves evs2 g1 Hf2 o n1) as (g' & n2 & Hr & _ & Hev2).
    rewrite Hrun in Hr. injection Hr as <- <-.
    destruct (evolves_entity g1 g r e1 Hev2 He1) as (e' & He' & _ & Hd' & _).
    rewrite He in He'. injection He' as <-.
    apply Hd'. apply (Hc1 r e1 He1). exact Hz.
Qed.

Lemma health_never_rises_and_death_is_final_witness :
  exists g n',
    run ended_game [Tick (1 / 30); Click 10 10] still_oracle 0%nat = Returns g n'
    /\ all_consistent g
    /\ forall r e0, entity_at ended_game r = Some e0 ->
       exists e,
         entity_at g r = Some e
         /\ Entity.hp e <= Entity.hp e0
         /\ (Entity.alive e0 = false -> Entity.alive e = false)
         /\ (Entity.alive e = false <->
             exists evs1 evs2 g1 n1 e1,
               [Tick (1 / 30); Click 10 10] = evs1 ++ evs2
               /\ run ended_game evs1 still_oracle 0%nat = Returns g1 n1
               /\ entity_at g1 r = Some e1
               /\ Entity.hp e1 <= 0).
Proof.
  apply (health_never_rises_and_death_is_final ended_game
           [Tick (1 / 30); Click 10 10] still_oracle 0%nat).
  - intros r e He. destruct r as [|[|[|i]]]; cbn in He; try discriminate;
      injection He as <-; unfold consistent; cbn.
    + unfold MAX_HEALTH. split; [discriminate | lra].
    + split; [intros _; lra | reflexivity].
  - repeat constructor. cbn. lra.
Defined.

(** ** The zone radius a simulation step leaves *)

Lemma bind_returns {A B : Type} (m : M A) (k : A -> M B) (o : Oracle) (n n1 : nat) (a : A) :
  m o n = Returns a n1 -> bind m k o n = k a o n1.
Proof. intros E. unfold bind. rewrite E. reflexivity. Qed.

Lemma check_win_keeps_zone (g : BattleRoyale.t) :
  returns (BattleRoyale.check_win g)
          (fun g' => BattleRoyale.zone_radius g' = BattleRoyale.zone_radius g).
Proof.
  unfold BattleRoyale.check_win.
  destruct (_ <=? _)%nat; [| apply returns_ret; reflexivity].
  eapply returns_bind; [apply returns_time|].
  intros now _. apply returns_ret. reflexivity.
Qed.

Lemma replenish_keeps_zone (g : BattleRoyale.t) :
  returns (BattleRoyale.replenish g)
          (fun g' => BattleRoyale.zone_radius g' = BattleRoyale.zone_radius g).
Proof.
  unfold BattleRoyale.replenish.
  destruct (_ && _); [| apply returns_ret; reflexivity].
  eapply returns_bind; [apply returns_random|].
  intros draw _. cbn beta.
  destruct (Rlt_b _ _); [| apply returns_ret; reflexivity].
  intros o n. destruct (spawn_bot_appends g o n) as (x & y & E).
  eexists; eexists. split; [exact E | split; [lia | reflexivity]].
Qed.

(** The step reads the clock once after the bots have moved and sets the
    radius from the time elapsed since [start_time]. *)
Lemma update_sets_zone_radius (g : BattleRoyale.t) (dt : R) (o : Oracle) (n : nat) :
  exists g' n' k,
    BattleRoyale.update g dt o n = Returns g' n'
    /\ (n <= k < n')%nat
    /\ BattleRoyale.zone_radius g'
       = BattleRoyale.zone_update (time_at o k - BattleRoyale.start_time g).
Proof.
  unfold BattleRoyale.update.
  assert (Hst : BattleRoyale.start_time (BattleRoyale.move_player g)
                = BattleRoyale.start_time g).
  { unfold BattleRoyale.move_player. destruct (normalize _ _); reflexivity. }
  set (g1 := BattleRoyale.move_player g) in *.
  destruct (update_bots_decay (BattleRoyale.player g1) (BattleRoyale.bots g1) []
              (BattleRoyale.bullets g1) o n) as ([bs bl] & n1 & E & Hle & _).
  rewrite (bind_returns _ _ _ _ _ _ E).
  destruct (BattleRoyale.update_bullets _ _ _) as [[p3 bs3] bl3].
  rewrite (bind_returns time_time _ o n1 (S n1) (time_at o n1) eq_refl).
  match goal with |- context [BattleRoyale.check_win ?g5] =>
    destruct (check_win_keeps_zone g5 o (S n1)) as (g6 & n6 & E6 & Hle6 & H6)
  end.
  rewrite (bind_returns _ _ _ _ _ _ E6).
  destruct (replenish_keeps_zone g6 o n6) as (g7 & n7 & E7 & Hle7 & H7).
  exists g7, n7, n1. split; [exact E7|]. split; [lia|].
  rewrite H7, H6. cbn. rewrite Hst. reflexivity.
Qed.

(** C4: a simulation step leaves as zone radius the value of the zone
    update at the time elapsed since the session start, read from the clock
    during the step; that value is the initial radius before the 8th second
    and the linear interpolation towards the final radius, over the clamped
    fraction of 60 seconds, from then on; it never grows with the elapsed
    time and stays between the final and the initial radius. *)
Theorem zone_radius_shrinks
  (g : BattleRoyale.t) (dt : R) (o : Oracle) (n : nat) (t1 t2 : R) :
  0 <= t1 -> t1 <= t2 ->
  (exists g' n' k,
      BattleRoyale.update g dt o n = Returns g' n'
      /\ (n <= k < n')%nat
      /\ BattleRoyale.zone_radius g'
         = BattleRoyale.zone_update (time_at o k - BattleRoyale.start_time g))
  /\ (t1 < 8 -> BattleRoyale.zone_update t1 = INITIAL_ZONE_RADIUS)
  /\ (8 <= t1 ->
      BattleRoyale.zone_update t1
      = INITIAL_ZONE_RADIUS
        + (FINAL_ZONE_RADIUS - INITIAL_ZONE_RADIUS) * clamp ((t1 - 8) / 60) 0 1)
  /\ BattleRoyale.zone_update t2 <= BattleRoyale.zone_update t1
  /\ FINAL_ZONE_RADIUS <= BattleRoyale.zone_update t1 <= INITIAL_ZONE_RADIUS.
Proof.
  intros H0 H12. split; [apply update_sets_zone_radius|].
  split; [| split; [| split]].
  - intros Hlt. unfold BattleRoyale.zone_update, ZONE_SHRINK_START.
    replace (Rlt_b t1 8) with true by (symmetry; apply Rlt_b_true; lra). reflexivity.
  - intros Hge. unfold BattleRoyale.zone_update, ZONE_SHRINK_START, ZONE_SHRINK_DURATION.
    replace (Rlt_b t1 8) with false by (symmetry; apply Rlt_b_false; lra). reflexivity.
  - pose proof (zone_update_bounds t2) as [_ Hup].
    unfold BattleRoyale.zone_update in *.
    rewrite initial_zone_radius_value in *.
    unfold FINAL_ZONE_RADIUS, ZONE_SHRINK_START, ZONE_SHRINK_DURATION in *.
    destruct (Rlt_b t1 8) eqn:E1.
    + exact Hup.
    + apply Rlt_b_false in E1.
      replace (Rlt_b t2 8) with false by (symmetry; apply Rlt_b_false; lra).
      pose proof (clamp_monotone ((t1 - 8) / 60) ((t2 - 8) / 60) 0 1) as Hm.
      specialize (Hm ltac:(lra)). nra.
  - apply zone_update_bounds.
Qed.

Lemma zone_radius_shrinks_witness :
  BattleRoyale.zone_update 38 = 165
  /\ BattleRoyale.zone_update 68 <= BattleRoyale.zone_update 38.
Proof.
  destruct (zone_radius_shrinks ended_game (1 / 30) still_oracle 0%nat 38 68
              ltac:(lra) ltac:(lra)) as (_ & _ & Heq & Hmon & _).
  split; [| exact Hmon].
  rewrite Heq by lra. rewrite initial_zone_radius_value.
  unfold FINAL_ZONE_RADIUS, clamp.
  rewrite Rmin_right by lra. rewrite Rmax_right by lra. lra.
Defined.

(** ** Fresh sessions *)

Lemma spawn_bots_evolves (k : nat) :
  forall g, returns (BattleRoyale.spawn_bots k g) (evolves g).
Proof.
  induction k as [|k IH]; intros g; cbn [BattleRoyale.spawn_bots].
  - apply returns_ret, evolves_refl.
  - eapply returns_bind; [apply spawn_bot_evolves|].
    intros g1 Hg1. eapply returns_weaken; [apply IH|].
    intros g2 Hg2. eapply evolves_trans; eassumption.
Qed.

(** The entities [restart] builds are consistent: full health, alive. *)
Lemma restart_all_consistent (g : BattleRoyale.t) :
  returns (BattleRoyale.restart g) all_consistent.
Proof.
  unfold BattleRoyale.restart.
  set (g1 := BattleRoyale.set_entities g (Player.init (WIDTH / 2) (HEIGHT / 2)) [] []).
  assert (H1 : all_consistent g1).
  { intros r e He. destruct r as [|i]; cbn in He.
    - injection He as <-. apply init_consistent.
    - destruct i; discriminate He. }
  eapply returns_bind; [apply spawn_bots_evolves|].
  intros g2 Hg2. cbn beta.
  eapply returns_bind; [apply returns_time|]. intros start _.
  eapply returns_bind; [apply returns_time|]. intros last _.
  apply returns_ret.
  pose proof (evolves_consistent g1 g2 Hg2 H1) as H2.
  intros r e He. apply (H2 r). destruct r; exact He.
Qed.

(** ** Collision resolution within a simulation step *)

(** A simulation step runs the bullet loop once, over the bullets left by
    the bots' moves; the bullets it leaves are the step's bullets, and its
    player and bots pass through the damage outside the zone, before any
    bot that is spawned joins them. *)
Lemma update_runs_bullet_loop (g : BattleRoyale.t) (dt : R) (o : Oracle) (n : nat) :
  let g1 := BattleRoyale.move_player g in
  exists bs1 bl1 n1 g' n',
    BattleRoyale.update_bots (BattleRoyale.player g1) [] (BattleRoyale.bots g1)
      (BattleRoyale.bullets g1) o n = Returns (bs1, bl1) n1
    /\ BattleRoyale.update g dt o n = Returns g' n'
    /\ let '(p3, bs3, bl3) :=
         BattleRoyale.update_bullets (BattleRoyale.player g1) bs1 bl1 in
       let f := BattleRoyale.outside_damage (BattleRoyale.zone_center g)
                  (BattleRoyale.zone_update (time_at o n1 - BattleRoyale.start_time g)) dt in
       BattleRoyale.bullets g' = bl3
       /\ BattleRoyale.player g' = Player.set_ent p3 (f (Player.ent p3))
       /\ exists extra,
            BattleRoyale.bots g'
            = map (fun b => Bot.set_ent b (f (Bot.ent b))) bs3 ++ extra.
Proof.
  cbv zeta.
  assert (Hm : BattleRoyale.zone_center (BattleRoyale.move_player g) = BattleRoyale.zone_center g
               /\ BattleRoyale.start_time (BattleRoyale.move_player g)
                  = BattleRoyale.start_time g).
  { unfold BattleRoyale.move_player. destruct (normalize _ _); split; reflexivity. }
  destruct Hm as [Hc Hs].
  set (g1 := BattleRoyale.move_player g) in *.
  destruct (update_bots_decay (BattleRoyale.player g1) (BattleRoyale.bots g1) []
              (BattleRoyale.bullets g1) o n) as ([bs1 bl1] & n1 & E & _ & _).
  exists bs1, bl1, n1.
  unfold BattleRoyale.update. fold g1. rewrite (bind_returns _ _ _ _ _ _ E).
  destruct (BattleRoyale.update_bullets (BattleRoyale.player g1) bs1 bl1) as [[p3 bs3] bl3].
  rewrite (bind_returns time_time _ o n1 (S n1) (time_at o n1) eq_refl).
  cbn [BattleRoyale.start_time BattleRoyale.set_entities]. rewrite Hs.
  match goal with |- context [BattleRoyale.check_win ?x] => set (g5 := x) end.
  assert (H5 : BattleRoyale.bullets g5 = bl3
               /\ BattleRoyale.player g5
                  = Player.set_ent p3
                      (BattleRoyale.outside_damage (BattleRoyale.zone_center g)
                         (BattleRoyale.zone_update (time_at o n1 - BattleRoyale.start_time g))
                         dt (Player.ent p3))
               /\ BattleRoyale.bots g5
                  = map (fun b => Bot.set_ent b
                                    (BattleRoyale.outside_damage (BattleRoyale.zone_center g)
                                       (BattleRoyale.zone_update
                                          (time_at o n1 - BattleRoyale.start_time g))
                                       dt (Bot.ent b))) bs3).
  { subst g5. unfold BattleRoyale.zone_damage. cbn. rewrite Hc. auto. }
  clearbody g5. destruct H5 as (Hbl & Hpl & Hbs).
  assert (H6 : exists g6 n6, BattleRoyale.check_win g5 o (S n1) = Returns g6 n6
                             /\ BattleRoyale.bullets g6 = BattleRoyale.bullets g5
                             /\ BattleRoyale.player g6 = BattleRoyale.player g5
                             /\ BattleRoyale.bots g6 = BattleRoyale.bots g5).
  { unfold BattleRoyale.check_win. destruct (_ <=? _)%nat.
    - eexists; eexists. split; [reflexivity | cbn; auto].
    - eexists; eexists. split; [reflexivity | auto]. }
  destruct H6 as (g6 & n6 & E6 & H6a & H6b & H6c).
  rewrite (bind_returns _ _ _ _ _ _ E6).
  assert (H7 : exists g7 n7, BattleRoyale.replenish g6 o n6 = Returns g7 n7
                             /\ BattleRoyale.bullets g7 = BattleRoyale.bullets g6
                             /\ BattleRoyale.player g7 = BattleRoyale.player g6
                             /\ exists extra, BattleRoyale.bots g7 = BattleRoyale.bots g6 ++ extra).
  { assert (Hsame : forall k, exists g7 n7, ret g6 o k = Returns g7 n7
                             /\ BattleRoyale.bullets g7 = BattleRoyale.bullets g6
                             /\ BattleRoyale.player g7 = BattleRoyale.player g6
                             /\ exists extra, BattleRoyale.bots g7 = BattleRoyale.bots g6 ++ extra).
    { intros k. exists g6, k. split; [reflexivity | split; [reflexivity | split; [reflexivity|]]].
      exists []. symmetry; apply app_nil_r. }
    unfold BattleRoyale.replenish. destruct (_ && _); [| apply Hsame].
    unfold bind, random_random. destruct (Rlt_b _ _); [| apply Hsame].
    destruct (spawn_bot_appends g6 o (S n6)) as (x & y & Hsp).
    eexists; eexists. split; [exact Hsp | cbn].
    split; [reflexivity | split; [reflexivity | exists [Bot.init x y]; reflexivity]]. }
  destruct H7 as (g7 & n7 & E7 & H7a & H7b & extra & H7c).
  exists g7, n7. split; [exact E|]. split; [exact E7|].
  split; [congruence | split; [congruence |]].
  exists extra. congruence.
Qed.


(** C6: the collision resolution of a simulation step is the bullet loop,
    run once over all bullets, and for each bullet the loop does this.  A
    bullet found dead is dropped.  A live bullet advances; when the player
    is then in reach (the bullet is not the player's, the player is alive,
    and the distance is at most owner radius + player radius + bullet
    radius) the player is hit for 18, the bots are not scanned for this
    bullet, the bullet is kept with its alive flag false, and the loop goes
    on with the bullets that follow; when not, the first bot in reach in
    list order (alive, not the owner, distance at most bullet radius + bot
    radius) is hit for 22, every other bot stays as it was, and the bullet
    is kept with its alive flag false; with no bot in reach nothing changes
    but the bullet's advance. *)
Theorem collision_resolution (p : Player.t) (bs : list Bot.t) (bullet : Bullet.t)
        (rest : list Bullet.t) :
  let b1 := Bullet.update bullet in
  let dead := Bullet.mk (Bullet.owner bullet) (Bullet.x bullet + Bullet.vx bullet)
                (Bullet.y bullet + Bullet.vy bullet) (Bullet.vx bullet)
                (Bullet.vy bullet) false in
  (Bullet.alive bullet = false ->
   BattleRoyale.update_bullets p bs (bullet :: rest)
   = BattleRoyale.update_bullets p bs rest)
  /\ (Bullet.alive bullet = true ->
      (player_in_reach p bs b1 ->
       BattleRoyale.update_bullets p bs (bullet :: rest)
       = kept_before dead (BattleRoyale.update_bullets (Player.hit p 18) bs rest)
       /\ Entity.hp (Player.ent (Player.hit p 18)) = Entity.hp (Player.ent p) - 18)
      /\ (~ player_in_reach p bs b1 ->
          (forall j bot, first_in_reach b1 bs j bot ->
             let bs' := firstn j bs ++ Bot.hit bot 22 :: skipn (S j) bs in
             BattleRoyale.update_bullets p bs (bullet :: rest)
             = kept_before dead (BattleRoyale.update_bullets p bs' rest)
             /\ Entity.hp (Bot.ent (Bot.hit bot 22)) = Entity.hp (Bot.ent bot) - 22
             /\ forall k, k <> j -> nth_error bs' k = nth_error bs k)
          /\ (none_in_reach b1 bs ->
              BattleRoyale.update_bullets p bs (bullet :: rest)
              = kept_before b1 (BattleRoyale.update_bullets p bs rest))))
  /\ Bullet.alive dead = false
  /\ (forall (g : BattleRoyale.t) (dt : R) (o : Oracle) (n : nat),
        let g1 := BattleRoyale.move_player g in
        exists bs1 bl1 n1 g' n',
          BattleRoyale.update_bots (BattleRoyale.player g1) [] (BattleRoyale.bots g1)
            (BattleRoyale.bullets g1) o n = Returns (bs1, bl1) n1
          /\ BattleRoyale.update g dt o n = Returns g' n'
          /\ let '(p3, bs3, bl3) :=
               BattleRoyale.update_bullets (BattleRoyale.player g1) bs1 bl1 in
             let f := BattleRoyale.outside_damage (BattleRoyale.zone_center g)
                        (BattleRoyale.zone_update
                           (time_at o n1 - BattleRoyale.start_time g)) dt in
             BattleRoyale.bullets g' = bl3
             /\ BattleRoyale.player g' = Player.set_ent p3 (f (Player.ent p3))
             /\ exists extra,
                  BattleRoyale.bots g'
                  = map (fun b => Bot.set_ent b (f (Bot.ent b))) bs3 ++ extra).
Proof.
  cbv zeta.
  destruct (update_bullet_cases p bs bullet) as [Hplayer Hbots]. cbv zeta in Hbots.
  split; [| split; [| split; [reflexivity | apply update_runs_bullet_loop]]].
  - intros Ha. cbn [BattleRoyale.update_bullets]. rewrite Ha. reflexivity.
  - intros Ha. pose proof (update_bullets_live p bs bullet rest Ha) as Hl.
    rewrite <- killed_bullet. split.
    + intros Hp. destruct (Hplayer Hp) as [E Hhp].
      rewrite E in Hl. split; [exact Hl | exact Hhp].
    + intros Hp. destruct (Hbots Hp) as [Hfirst Hnone]. split.
      * intros j bot Hj. destruct (Hfirst j bot Hj) as (E & Hhp & Hk).
        rewrite E in Hl. split; [exact Hl | split; [exact Hhp | exact Hk]].
      * intros Hn. rewrite (Hnone Hn) in Hl. exact Hl.
Qed.

(** ** The contracts at concrete inputs *)

Lemma hypot_3_4 : hypot 3 4 = 5.
Proof.
  unfold hypot. replace (3 * 3 + 4 * 4) with (5 * 5) by lra.
  apply sqrt_square. lra.
Qed.

Lemma normalize_3_4 : normalize 3 4 = (3 / 5, 4 / 5).
Proof.
  unfold normalize. rewrite hypot_3_4.
  unfold Req_b. destruct (Req_dec_T 5 0) as [H | H]; [lra | reflexivity].
Qed.

Lemma distance_same_point (a b : R * R) : a = b -> distance a b = 0.
Proof.
  intros ->. unfold distance, hypot.
  replace ((fst b - fst b) * (fst b - fst b) + (snd b - snd b) * (snd b - snd b))
    with 0 by lra.
  apply sqrt_0.
Qed.

(** A player at the origin, 100 s after the last shot, fires at (3,4): the
    bullet starts 14 units out along (3/5, 4/5) and flies at 12 a tick. *)
Lemma player_fire_contract_witness :
  let p := Player.mk (Entity.mk 0 0 10 "dodgerblue" 5 100 true) 0 in
  let o := mkOracle (fun _ => 100) (fun _ => 0) (fun _ => O) in
  Player.fire p (0 + 3) (0 + 4) o 0%nat
  = Returns (Player.mk (Entity.mk 0 0 10 "dodgerblue" 5 100 true) 100,
             Some (Bullet.mk PlayerRef (0 + 3 / 5 * (10 + BULLET_RADIUS + 1))
                                       (0 + 4 / 5 * (10 + BULLET_RADIUS + 1))
                                       (3 / 5 * 12) (4 / 5 * 12) true))
            2%nat.
Proof.
  cbv zeta.
  match goal with |- Player.fire ?p ?tx ?ty ?o ?n = _ =>
    destruct (player_fire_contract p tx ty o n) as (_ & _ & H & _)
  end.
  cbn [Player.ent Player.last_fire Entity.x Entity.y Entity.radius Entity.alive time_at] in H.
  replace (0 + 3 - 0) with 3 in H by lra. replace (0 + 4 - 0) with 4 in H by lra.
  rewrite normalize_3_4 in H. cbn [fst snd] in H.
  apply H. intros [Hd | Hc]; [discriminate | lra].
Defined.

(** A fresh bot has no target: its first tick picks the living player. *)
Lemma bot_retargets_when_due_witness :
  let p := Player.init 450 300 in
  Bot.update_ai (Bot.init 30 30) p still_oracle 0%nat
  = Returns (Bot.set_target (Bot.set_last_target_time (Bot.init 30 30) 31)
               (Some (TEntity PlayerRef))) 3%nat.
Proof.
  cbv zeta.
  destruct (bot_retargets_when_due (Bot.init 30 30) (Player.init 450 300) still_oracle 0%nat)
    as [H _].
  rewrite H by (right; reflexivity).
  cbn. replace (Rlt_b 0 (7 / 10)) with true by (symmetry; apply Rlt_b_true; lra).
  reflexivity.
Defined.

(** A bullet of the player that lands on the spot where a dead bot and two
    living bots stand hits the first living one only; a bullet of a bot
    that lands on the living player hits the player and no bot. *)
Lemma collision_resolution_witness :
  let p := Player.init 450 300 in
  let dead := Bot.mk (Entity.mk 100 100 10 "orange" 3 (-4) false) None 0 0 in
  let bs := [dead; Bot.init 100 100; Bot.init 100 100] in
  let mine := Bullet.mk PlayerRef 100 88 0 12 true in
  let theirs := Bullet.mk (BotRef 1) 450 288 0 12 true in
  (BattleRoyale.update_bullets p bs [mine]
   = (p, [dead; Bot.hit (Bot.init 100 100) 22; Bot.init 100 100],
      [Bullet.mk PlayerRef (100 + 0) (88 + 12) 0 12 false])
   /\ Entity.hp (Bot.ent (Bot.hit (Bot.init 100 100) 22))
      = Entity.hp (Bot.ent (Bot.init 100 100)) - 22)
  /\ (BattleRoyale.update_bullets p bs [theirs]
      = (Player.hit p 18, bs, [Bullet.mk (BotRef 1) (450 + 0) (288 + 12) 0 12 false])
      /\ Entity.hp (Player.ent (Player.hit p 18)) = Entity.hp (Player.ent p) - 18).
Proof.
  cbv zeta. split.
  - match goal with |- BattleRoyale.update_bullets ?p ?bs [?b] = _ /\ _ =>
      destruct (collision_resolution p bs b []) as (_ & H & _)
    end.
    destruct (H eq_refl) as [_ H1]. clear H.
    destruct H1 as [H _].
    + intros (Hown & _). apply Hown.
      destruct (bullet_update_moves (Bullet.mk PlayerRef 100 88 0 12 true))
        as (_ & _ & _ & _ & Ho). exact Ho.
    + destruct (H 1%nat (Bot.init 100 100)) as (E & Hhp & _); [| split; [exact E | exact Hhp]].
      destruct (bullet_update_moves (Bullet.mk PlayerRef 100 88 0 12 true))
        as (Hx & Hy & _ & _ & Ho).
      split; [reflexivity | split].
      * split; [reflexivity | split].
        -- rewrite Ho. discriminate.
        -- rewrite Hx, Hy. cbn.
           rewrite distance_same_point by (f_equal; lra).
           unfold BULLET_RADIUS, BOT_RADIUS. lra.
      * intros k bot' Hk Hn (Halive & _).
        assert (k = O) by lia. subst k. cbn in Hn. injection Hn as <-.
        discriminate Halive.
  - match goal with |- BattleRoyale.update_bullets ?p ?bs [?b] = _ /\ _ =>
      destruct (collision_resolution p bs b []) as (_ & H & _)
    end.
    destruct (H eq_refl) as [H1 _]. clear H.
    apply H1.
    destruct (bullet_update_moves (Bullet.mk (BotRef 1) 450 288 0 12 true))
      as (Hx & Hy & _ & _ & Ho).
    split; [rewrite Ho; discriminate | split; [reflexivity |]].
    rewrite Hx, Hy, Ho. cbn.
    rewrite distance_same_point by (f_equal; lra).
    unfold BULLET_RADIUS, BOT_RADIUS, PLAYER_RADIUS. lra.
Defined.

(** ** The loop as the source of simulation steps *)

(** The win check lowers the running flag, and stamps the end time, as soon
    as at most one entity is alive. *)
Lemma check_win_ends_session (g : BattleRoyale.t) (o : Oracle) (n : nat) :
  (List.length (BattleRoyale.living g) <= 1)%nat ->
  BattleRoyale.check_win g o n
  = Returns (BattleRoyale.set_running g false (Some (time_at o n))) (S n).
Proof.
  intros H. unfold BattleRoyale.check_win.
  apply Nat.leb_le in H. rewrite H. reflexivity.
Qed.

(** A callback that runs while the clock reads no less than [last_time]
    hands [update] a [dt] that is not negative, so the entities decay. *)
Lemma update_loop_evolves (g : BattleRoyale.t) (o : Oracle) (n : nat) :
  BattleRoyale.last_time g <= time_at o n ->
  exists g' n', BattleRoyale.update_loop g o n = Returns g' n' /\ evolves g g'.
Proof.
  intros Hclock. unfold BattleRoyale.update_loop.
  destruct (BattleRoyale.running g); cbn [negb].
  2: { exists g, n. split; [reflexivity | apply evolves_refl]. }
  rewrite (bind_returns time_time _ o n (S n) (time_at o n) eq_refl).
  cbn [BattleRoyale.paused BattleRoyale.set_clock].
  destruct (BattleRoyale.paused g); cbn [negb].
  - eexists; eexists. split; [reflexivity|].
    apply evolves_of_parts; cbn; [apply decays_refl | apply bots_decay_refl].
  - match goal with |- context [BattleRoyale.update ?g1 ?dt] =>
      destruct (update_evolves dt ltac:(lra) g1 o (S n)) as (g2 & n2 & E & _ & Hev)
    end.
    rewrite (bind_returns _ _ _ _ _ _ E).
    eexists; eexists. split; [reflexivity|].
    destruct Hev as (Hp & bs1 & extra & Hb & Hd & Hx).
    split; [exact Hp|]. exists bs1, extra. cbn. auto.
Qed.

(** C1, as stated for every sequence of operations, fails when the wall
    clock steps back between two frames: [update_loop] hands [update] the
    negative [dt = now - last_time], the damage outside the zone is
    negative, and [hit] adds it to the health.  In [corner_game], whose
    entities are consistent, the callback that runs at clock reading 9 after
    the frame taken at 10 is the simulation step with [dt = 9 - 10], and the
    living player's health goes from 100 to 136. *)
Lemma backward_clock_raises_health :
  all_consistent corner_game
  /\ entity_at corner_game PlayerRef = Some (Entity.mk 0 0 10 "dodgerblue" 5 100 true)
  /\ exists g,
       BattleRoyale.update_loop corner_game early_oracle 0%nat
       = Returns (BattleRoyale.after (BattleRoyale.drawn g)) 5%nat
       /\ run (BattleRoyale.set_clock corner_game 0 9) [Tick (9 - 10)] early_oracle 1%nat
          = Returns g 4%nat
       /\ entity_at g PlayerRef = Some (Entity.mk 0 0 10 "dodgerblue" 5 136 true).
Proof.
  split.
  { intros r e He. destruct r as [|i]; cbn in He.
    - injection He as <-. unfold consistent; cbn. unfold MAX_HEALTH.
      split; [discriminate | lra].
    - destruct i; discriminate. }
  split; [reflexivity|].
  assert (En : normalize 0 0 = (0, 0)).
  { unfold normalize, hypot. replace (0 * 0 + 0 * 0) with 0 by lra. rewrite sqrt_0.
    unfold Req_b. destruct (Req_dec_T 0 0); [reflexivity | contradiction]. }
  assert (Ec : forall b, 0 <= b -> clamp (0 + 0 * PLAYER_SPEED) 0 b = 0).
  { intros b Hb. unfold clamp. replace (0 + 0 * PLAYER_SPEED) with 0 by lra.
    rewrite Rmin_right by exact Hb. apply Rmax_left. lra. }
  assert (Em : BattleRoyale.move_player (BattleRoyale.set_clock corner_game 0 9)
               = BattleRoyale.set_clock corner_game 0 9).
  { unfold BattleRoyale.move_player, BattleRoyale.has_key. cbn.
    rewrite En. cbn.
    rewrite !Ec by (unfold WIDTH, HEIGHT; lra). reflexivity. }
  assert (Ez : Rgt_b (distance (0, 0) (450, 300)) (BattleRoyale.zone_update (9 - 0)) = true).
  { apply Rgt_b_true. pose proof (zone_update_bounds (9 - 0)) as Hb.
    rewrite initial_zone_radius_value in Hb.
    assert (Hd : 270 < distance (0, 0) (450, 300)).
    { unfold distance, hypot. cbn [fst snd].
      rewrite <- (sqrt_square 270) at 1 by lra.
      apply sqrt_lt_1_alt. lra. }
    lra. }
  assert (Eh : Entity.hit (Entity.init 0 0 PLAYER_RADIUS PLAYER_COLOR PLAYER_SPEED)
                 (OUTSIDE_DAMAGE * (9 - 10) * 60)
               = Entity.mk 0 0 10 "dodgerblue" 5 136 true).
  { unfold Entity.hit, Entity.init. cbn.
    replace (MAX_HEALTH - OUTSIDE_DAMAGE * (9 - 10) * 60) with 136
      by (unfold MAX_HEALTH, OUTSIDE_DAMAGE; lra).
    replace (Rle_b 136 0) with false by (symmetry; apply Rle_b_false; lra).
    reflexivity. }
  assert (Eu : exists g,
             BattleRoyale.update (BattleRoyale.set_clock corner_game 0 9) (9 - 10)
               early_oracle 1%nat = Returns g 4%nat
             /\ entity_at g PlayerRef = Some (Entity.mk 0 0 10 "dodgerblue" 5 136 true)).
  { unfold BattleRoyale.update. rewrite Em. cbn.
    unfold BattleRoyale.zone_damage, BattleRoyale.outside_damage. cbn.
    rewrite Ez, Eh.
    unfold bind, BattleRoyale.check_win, BattleRoyale.living. cbn.
    unfold BattleRoyale.replenish, BattleRoyale.live_bots. cbn.
    replace (Rlt_b 1 (2 / 100)) with false by (symmetry; apply Rlt_b_false; lra).
    eexists. split; reflexivity. }
  destruct Eu as (g & Eg & Hp). exists g.
  split; [| split; [cbn [run handle]; unfold bind; rewrite Eg; reflexivity | exact Hp]].
  unfold BattleRoyale.update_loop. cbn [BattleRoyale.running corner_game negb].
  unfold bind at 1. unfold time_time at 1. cbn [time_at early_oracle BattleRoyale.last_time].
  cbn [BattleRoyale.paused BattleRoyale.set_clock negb BattleRoyale.start_time].
  erewrite bind_returns by exact Eg. reflexivity.
Qed.

(** * Further properties of the code *)

(** ** Vectors: hypot, normalize, distance, clamp *)

Lemma hypot_nonneg (x y : R) : 0 <= hypot x y.
Proof. unfold hypot. apply sqrt_pos. Qed.

Lemma hypot_sqr (x y : R) : hypot x y * hypot x y = x * x + y * y.
Proof. unfold hypot. apply sqrt_sqrt. nra. Qed.

Lemma hypot_zero_iff (x y : R) : hypot x y = 0 <-> x = 0 /\ y = 0.
Proof.
  split.
  - intros H. pose proof (hypot_sqr x y) as Hs. rewrite H in Hs. split; nra.
  - intros [-> ->]. unfold hypot. replace (0 * 0 + 0 * 0) with 0 by lra. apply sqrt_0.
Qed.

Lemma hypot_unique (x y r : R) : 0 <= r -> r * r = x * x + y * y -> hypot x y = r.
Proof.
  intros Hr Hsq. unfold hypot. rewrite <- Hsq. apply sqrt_square. exact Hr.
Qed.

Lemma hypot_scale (k x y : R) : 0 <= k -> hypot (k * x) (k * y) = k * hypot x y.
Proof.
  intros Hk. apply hypot_unique.
  - apply Rmult_le_pos; [exact Hk | apply hypot_nonneg].
  - pose proof (hypot_sqr x y). nra.
Qed.

Lemma hypot_le (x y x' y' : R) :
  Rabs x <= Rabs x' -> Rabs y <= Rabs y' -> hypot x y <= hypot x' y'.
Proof.
  intros Hx Hy. unfold hypot. apply sqrt_le_1_alt.
  assert (x * x <= x' * x').
  { unfold Rabs in Hx. destruct (Rcase_abs x), (Rcase_abs x'); nra. }
  assert (y * y <= y' * y').
  { unfold Rabs in Hy. destruct (Rcase_abs y), (Rcase_abs y'); nra. }
  lra.
Qed.

Lemma normalize_zero : normalize 0 0 = (0, 0).
Proof.
  unfold normalize. replace (hypot 0 0) with 0 by (symmetry; apply hypot_zero_iff; auto).
  unfold Req_b. destruct (Req_dec_T 0 0); [reflexivity | contradiction].
Qed.

Lemma normalize_nonzero (vx vy : R) :
  hypot vx vy <> 0 -> normalize vx vy = (vx / hypot vx vy, vy / hypot vx vy).
Proof.
  intros H. unfold normalize, Req_b.
  destruct (Req_dec_T (hypot vx vy) 0); [contradiction | reflexivity].
Qed.

Lemma normalize_length (vx vy : R) :
  hypot (fst (normalize vx vy)) (snd (normalize vx vy))
  = if Req_b (hypot vx vy) 0 then 0 else 1.
Proof.
  unfold normalize.
  destruct (Req_b (hypot vx vy) 0) eqn:E; cbn [fst snd].
  - apply hypot_zero_iff; auto.
  - unfold Req_b in E. destruct (Req_dec_T (hypot vx vy) 0) as [|Hm]; [discriminate|].
    apply hypot_unique; [lra|].
    pose proof (hypot_sqr vx vy) as Hs. field_simplify_eq; [lra | exact Hm].
Qed.

Lemma normalize_length_le_1 (vx vy : R) :
  hypot (fst (normalize vx vy)) (snd (normalize vx vy)) <= 1.
Proof. rewrite normalize_length. destruct (Req_b _ _); lra. Qed.

(** X1: [normalize] never divides by zero: the zero vector is sent to
    (0,0); every other vector is sent to the vector of length 1 that points
    the same way, so scaling it back by the length gives the input. *)
Theorem normalize_unit_or_zero (vx vy : R) :
  let n := normalize vx vy in
  (vx = 0 /\ vy = 0 -> n = (0, 0))
  /\ (~ (vx = 0 /\ vy = 0) ->
      hypot (fst n) (snd n) = 1
      /\ hypot vx vy * fst n = vx
      /\ hypot vx vy * snd n = vy).
Proof.
  cbv zeta. split.
  - intros [-> ->]. apply normalize_zero.
  - intros Hnz.
    assert (Hm : hypot vx vy <> 0) by (intros H; apply Hnz, hypot_zero_iff; exact H).
    split.
    + rewrite normalize_length. unfold Req_b.
      destruct (Req_dec_T (hypot vx vy) 0); [contradiction | reflexivity].
    + rewrite normalize_nonzero by exact Hm. cbn [fst snd]. split; field; exact Hm.
Qed.

(** X2: [clamp(v, a, b)] with a <= b lands in [a, b], leaves a value of
    that range as it is, and clamping twice changes nothing more; with the
    bounds the wrong way round (b < a) it returns a whatever v is. *)
Theorem clamp_into_range (v a b : R) :
  (a <= b ->
   a <= clamp v a b <= b
   /\ (a <= v <= b -> clamp v a b = v)
   /\ (v < a -> clamp v a b = a)
   /\ (b < v -> clamp v a b = b)
   /\ clamp (clamp v a b) a b = clamp v a b)
  /\ (b < a -> clamp v a b = a).
Proof.
  split.
  - intros Hab.
    assert (Hin : forall w, a <= w <= b -> clamp w a b = w).
    { intros w [H1 H2]. unfold clamp. rewrite Rmin_right, Rmax_right; lra. }
    pose proof (clamp_bounds v a b Hab) as Hb.
    split; [exact Hb | split; [apply Hin | split; [| split]]].
    + intros H. unfold clamp. rewrite Rmin_right, Rmax_left; lra.
    + intros H. unfold clamp. rewrite Rmin_left, Rmax_right; lra.
    + apply Hin. exact Hb.
  - intros Hba. unfold clamp. apply Rmax_left.
    pose proof (Rmin_l b v). lra.
Qed.

(** X3: [distance] is never negative, does not depend on the order of the
    two points, and is 0 exactly for a point and itself. *)
Theorem distance_is_a_distance (a b : R * R) :
  0 <= distance a b
  /\ distance a b = distance b a
  /\ (distance a b = 0 <-> a = b).
Proof.
  destruct a as [ax ay], b as [bx by_]. unfold distance; cbn [fst snd].
  split; [apply hypot_nonneg | split].
  - unfold hypot. f_equal. ring.
  - rewrite hypot_zero_iff. split.
    + intros [H1 H2]. f_equal; lra.
    + intros H. injection H as -> ->. split; lra.
Qed.

(** ** Movement stays inside the playfield *)

Lemma clamp_contracts (x d a b : R) :
  a <= x <= b -> Rabs (clamp (x + d) a b - x) <= Rabs d.
Proof.
  intros [H1 H2]. unfold clamp, Rmax, Rmin.
  destruct (Rle_dec b (x + d)); destruct (Rle_dec a _);
    unfold Rabs; repeat destruct (Rcase_abs _); lra.
Qed.

(** X4: whatever the clock and the draws, [Bot.step] returns the bot
    inside the playfield, also when it started outside, with health, alive
    flag, radius and speed as they were. *)
Theorem bot_step_stays_in_playfield (b : Bot.t) (p : Player.t) (bs : list Bot.t) :
  returns (Bot.step b p bs)
    (fun b' =>
       in_playfield (Bot.ent b')
       /\ Entity.hp (Bot.ent b') = Entity.hp (Bot.ent b)
       /\ Entity.alive (Bot.ent b') = Entity.alive (Bot.ent b)
       /\ Entity.radius (Bot.ent b') = Entity.radius (Bot.ent b)
       /\ Entity.speed (Bot.ent b') = Entity.speed (Bot.ent b)).
Proof.
  intros o n.
  destruct (update_ai_sets_target b p o n) as (b1 & n1 & Hu & Ht & He & Hle).
  unfold Bot.step, bind. rewrite Hu.
  destruct (Bot.target b1) as [tg|] eqn:E; [| contradiction].
  destruct tg as [r | px py];
    destruct (normalize _ _) as [nx ny];
    unfold random_uniform, random_random, bind, ret; cbn;
    eexists; eexists; (split; [reflexivity |]); (split; [lia |]);
    unfold in_playfield; cbn; rewrite He;
    (split; [split; apply clamp_bounds; unfold WIDTH, HEIGHT; lra | auto]).
Qed.

(** X5: the player movement of a simulation step leaves the player inside
    the playfield with health and alive flag untouched, and leaves bots and
    bullets alone; a player that was inside the playfield is displaced by at
    most its speed, along a diagonal as along an axis. *)
Theorem move_player_bounded (g : BattleRoyale.t) :
  let e := Player.ent (BattleRoyale.player g) in
  let g' := BattleRoyale.move_player g in
  let e' := Player.ent (BattleRoyale.player g') in
  in_playfield e'
  /\ Entity.hp e' = Entity.hp e
  /\ Entity.alive e' = Entity.alive e
  /\ BattleRoyale.bots g' = BattleRoyale.bots g
  /\ BattleRoyale.bullets g' = BattleRoyale.bullets g
  /\ (in_playfield e -> 0 <= Entity.speed e ->
      distance (Entity.x e', Entity.y e') (Entity.x e, Entity.y e) <= Entity.speed e).
Proof.
  cbv zeta. unfold BattleRoyale.move_player.
  match goal with |- context [normalize ?a ?b] =>
    pose proof (normalize_length_le_1 a b) as Hn; destruct (normalize a b) as [nx ny]
  end.
  cbn [fst snd] in Hn. cbn.
  split; [split; apply clamp_bounds; unfold WIDTH, HEIGHT; lra|].
  repeat (split; [reflexivity|]).
  intros [Hx Hy] Hs. unfold distance; cbn [fst snd].
  set (e := Player.ent (BattleRoyale.player g)) in *.
  eapply Rle_trans.
  - apply hypot_le; apply clamp_contracts; assumption.
  - rewrite (Rmult_comm nx), (Rmult_comm ny), hypot_scale by exact Hs.
    pose proof (hypot_nonneg nx ny). nra.
Qed.

(** ** Spawning *)

(** X6: with draws in the unit interval, [spawn_bot] appends one bot to the
    list and changes nothing else; the new bot is alive at full health with
    no target, stands inside the playfield, and is within
    [BOT_SPAWN_MARGIN] of one of its edges. *)
Theorem spawn_bot_at_the_edge (g : BattleRoyale.t) (o : Oracle) (n : nat) :
  unit_draws o ->
  exists x y,
    BattleRoyale.spawn_bot g o n
    = Returns (BattleRoyale.set_bots g (BattleRoyale.bots g ++ [Bot.init x y]))
              (S (S (S n)))
    /\ in_playfield (Bot.ent (Bot.init x y))
    /\ near_edge (Bot.ent (Bot.init x y))
    /\ Entity.hp (Bot.ent (Bot.init x y)) = MAX_HEALTH
    /\ Entity.alive (Bot.ent (Bot.init x y)) = true
    /\ Bot.target (Bot.init x y) = None.
Proof.
  intros Hu.
  pose proof (Hu (S n)) as H1. pose proof (Hu (S (S n))) as H2.
  unfold BattleRoyale.spawn_bot, bind, random_choice.
  repeat (destruct (String.eqb _ _));
    unfold random_uniform, random_random, bind, ret;
    eexists; eexists; (split; [reflexivity |]);
    unfold in_playfield, near_edge, BOT_SPAWN_MARGIN, WIDTH, HEIGHT; cbn;
    (split; [| split; [| auto]]); nra.
Qed.

Lemma spawn_bot_at_the_edge_witness :
  exists x y,
    BattleRoyale.spawn_bot ended_game still_oracle 0%nat
    = Returns (BattleRoyale.set_bots ended_game
                 (BattleRoyale.bots ended_game ++ [Bot.init x y])) 3%nat
    /\ in_playfield (Bot.ent (Bot.init x y))
    /\ near_edge (Bot.ent (Bot.init x y))
    /\ Entity.hp (Bot.ent (Bot.init x y)) = MAX_HEALTH
    /\ Entity.alive (Bot.ent (Bot.init x y)) = true
    /\ Bot.target (Bot.init x y) = None.
Proof.
  apply (spawn_bot_at_the_edge ended_game still_oracle 0%nat).
  intros k. cbn. lra.
Defined.

(** ** Bullets in flight *)

Lemma ticks_motion (b : Bullet.t) (k : nat) :
  Bullet.x (Bullet.ticks k b) = Bullet.x b + INR k * Bullet.vx b
  /\ Bullet.y (Bullet.ticks k b) = Bullet.y b + INR k * Bullet.vy b
  /\ Bullet.vx (Bullet.ticks k b) = Bullet.vx b
  /\ Bullet.vy (Bullet.ticks k b) = Bullet.vy b
  /\ Bullet.owner (Bullet.ticks k b) = Bullet.owner b.
Proof.
  induction k as [|k (Hx & Hy & Hvx & Hvy & Ho)].
  - cbn. repeat split; lra.
  - cbn [Bullet.ticks].
    destruct (bullet_update_moves (Bullet.ticks k b)) as (Ux & Uy & Uvx & Uvy & Uo).
    rewrite Ux, Uy, Uvx, Uvy, Uo, Hx, Hy, Hvx, Hvy, Ho, S_INR.
    repeat split; lra.
Qed.

Lemma ticks_dead_stays_dead (b : Bullet.t) (k m : nat) :
  Bullet.alive (Bullet.ticks k b) = false ->
  Bullet.alive (Bullet.ticks (k + m) b) = false.
Proof.
  intros H. induction m as [|m IH].
  - rewrite Nat.add_0_r. exact H.
  - rewrite Nat.add_succ_r. cbn [Bullet.ticks].
    apply bullet_update_alive. left. exact IH.
Qed.

Lemma nat_above (r : R) : exists k : nat, r < INR k.
Proof.
  destruct (Rle_dec r 0) as [Hr | Hr].
  - exists 1%nat. cbn. lra.
  - destruct (archimed r) as [Hup _].
    assert (Hz : (0 <= up r)%Z).
    { apply le_IZR. lra. }
    exists (Z.to_nat (up r)).
    rewrite INR_IZR_INZ, Znat.Z2Nat.id by exact Hz. lra.
Qed.

(** X7: a bullet moves in a straight line, its velocity added once a tick;
    once marked not alive it is never alive again; a bullet whose velocity
    is not zero is marked not alive after finitely many ticks, while a live
    bullet at rest inside the margin is left as it is for ever. *)
Theorem moving_bullet_leaves_playfield (b : Bullet.t) :
  (forall k,
      Bullet.x (Bullet.ticks k b) = Bullet.x b + INR k * Bullet.vx b
      /\ Bullet.y (Bullet.ticks k b) = Bullet.y b + INR k * Bullet.vy b)
  /\ (forall k m, Bullet.alive (Bullet.ticks k b) = false ->
                  Bullet.alive (Bullet.ticks (k + m) b) = false)
  /\ (Bullet.vx b <> 0 \/ Bullet.vy b <> 0 ->
      exists k, Bullet.alive (Bullet.ticks k b) = false)
  /\ (Bullet.vx b = 0 -> Bullet.vy b = 0 -> Bullet.alive b = true ->
      -50 <= Bullet.x b <= WIDTH + 50 -> -50 <= Bullet.y b <= HEIGHT + 50 ->
      forall k, Bullet.ticks k b = b).
Proof.
  split; [| split; [| split]].
  - intros k. destruct (ticks_motion b k) as (Hx & Hy & _). split; assumption.
  - apply ticks_dead_stays_dead.
  - intros Hv.
    assert (Hfar : exists k,
               Bullet.x b + INR (S k) * Bullet.vx b < -50
               \/ Bullet.x b + INR (S k) * Bullet.vx b > WIDTH + 50
               \/ Bullet.y b + INR (S k) * Bullet.vy b < -50
               \/ Bullet.y b + INR (S k) * Bullet.vy b > HEIGHT + 50).
    { assert (Hgo : forall p v bound : R, v > 0 ->
                 exists k, p + INR (S k) * v > bound).
      { intros p v bound Hpos.
        destruct (nat_above ((bound - p) / v)) as [k Hk].
        exists k. rewrite S_INR.
        apply (Rmult_lt_compat_r v) in Hk; [| exact Hpos].
        unfold Rdiv in Hk. rewrite Rmult_assoc, Rinv_l, Rmult_1_r in Hk by lra.
        nra. }
      destruct Hv as [Hv | Hv].
      - destruct (Rtotal_order (Bullet.vx b) 0) as [Hn | [Hz | Hp]]; [| contradiction |].
        + destruct (Hgo (- Bullet.x b) (- Bullet.vx b) 50 ltac:(lra)) as [k Hk].
          exists k. left. lra.
        + destruct (Hgo (Bullet.x b) (Bullet.vx b) (WIDTH + 50) Hp) as [k Hk].
          exists k. right; left. exact Hk.
      - destruct (Rtotal_order (Bullet.vy b) 0) as [Hn | [Hz | Hp]]; [| contradiction |].
        + destruct (Hgo (- Bullet.y b) (- Bullet.vy b) 50 ltac:(lra)) as [k Hk].
          exists k. right; right; left. lra.
        + destruct (Hgo (Bullet.y b) (Bullet.vy b) (HEIGHT + 50) Hp) as [k Hk].
          exists k. right; right; right. exact Hk. }
    destruct Hfar as [k Hfar]. exists (S k).
    cbn [Bullet.ticks]. apply bullet_update_alive. right.
    destruct (ticks_motion b k) as (Hx & Hy & Hvx & Hvy & _).
    rewrite Hx, Hy, Hvx, Hvy. rewrite S_INR in Hfar.
    destruct Hfar as [H | [H | [H | H]]]; [left | right; left | right; right; left | right; right; right]; lra.
  - intros Hvx Hvy Ha Hx Hy k. induction k as [|k IH]; [reflexivity|].
    cbn [Bullet.ticks]. rewrite IH.
    unfold Bullet.update. rewrite Hvx, Hvy. cbn.
    replace (Rlt_b (Bullet.x b + 0) (-50)) with false by (symmetry; apply Rlt_b_false; lra).
    replace (Rgt_b (Bullet.x b + 0) (WIDTH + 50)) with false by (symmetry; apply Rgt_b_false; lra).
    replace (Rlt_b (Bullet.y b + 0) (-50)) with false by (symmetry; apply Rlt_b_false; lra).
    replace (Rgt_b (Bullet.y b + 0) (HEIGHT + 50)) with false by (symmetry; apply Rgt_b_false; lra).
    cbn. destruct b as [ow bx by_ bvx bvy ba]; cbn in *. subst. f_equal; lra.
Qed.

(** ** The bullet loop and the population of a step *)

Lemma update_bullet_advanced (p : Player.t) (bs : list Bot.t) (bullet : Bullet.t) :
  advanced bullet (snd (BattleRoyale.update_bullet p bs bullet)).
Proof.
  destruct (bullet_update_moves bullet) as (Hx & Hy & Hvx & Hvy & Ho).
  unfold BattleRoyale.update_bullet, advanced.
  destruct (BattleRoyale.hits_player _ _ _); [cbn; auto|].
  destruct (BattleRoyale.scan_bots _ _ _) as [bs' h]. cbn [snd].
  destruct h; cbn; auto.
Qed.

(** X8: the bullet loop of a step drops exactly the bullets that were not
    alive when it started and keeps the others in their order, each moved
    by its velocity once; the list of bots keeps its length. *)
Theorem update_bullets_drops_dead (p : Player.t) (bs : list Bot.t) (bl : list Bullet.t) :
  let r := BattleRoyale.update_bullets p bs bl in
  Forall2 advanced (filter Bullet.alive bl) (snd r)
  /\ List.length (snd r) = List.length (filter Bullet.alive bl)
  /\ List.length (snd (fst r)) = List.length bs.
Proof.
  cbv zeta.
  assert (H : Forall2 advanced (filter Bullet.alive bl)
                (snd (BattleRoyale.update_bullets p bs bl))).
  { revert p bs. induction bl as [|bullet rest IH]; intros p bs; [constructor|].
    cbn [BattleRoyale.update_bullets filter].
    destruct (Bullet.alive bullet); cbn [negb]; [| apply IH].
    pose proof (update_bullet_advanced p bs bullet) as Ha.
    destruct (BattleRoyale.update_bullet p bs bullet) as [[p1 bs1] bullet1].
    specialize (IH p1 bs1).
    destruct (BattleRoyale.update_bullets p1 bs1 rest) as [[p2 bs2] rest'].
    cbn [snd] in *. constructor; assumption. }
  split; [exact H | split].
  - symmetry. eapply Forall2_length. exact H.
  - destruct (update_bullets_decay bl p bs) as [_ Hb].
    symmetry. eapply Forall2_length. exact Hb.
Qed.

Lemma replenish_population (g : BattleRoyale.t) :
  returns (BattleRoyale.replenish g)
    (fun g' =>
       BattleRoyale.bots g' = BattleRoyale.bots g
       \/ (exists x y, BattleRoyale.bots g' = BattleRoyale.bots g ++ [Bot.init x y])
          /\ (List.length (BattleRoyale.bots g) < 20)%nat).
Proof.
  unfold BattleRoyale.replenish.
  destruct (BattleRoyale.live_bots g <? _)%nat; cbn [andb];
    [| apply returns_ret; left; reflexivity].
  change (MAX_BOTS * 2)%nat with 20%nat.
  destruct (List.length (BattleRoyale.bots g) <? 20)%nat eqn:E;
    [apply Nat.ltb_lt in E | apply returns_ret; left; reflexivity].
  eapply returns_bind; [apply returns_random|].
  intros draw _. cbn beta.
  destruct (Rlt_b _ _); [| apply returns_ret; left; reflexivity].
  intros o n. destruct (spawn_bot_appends g o n) as (x & y & Hs).
  eexists; eexists. split; [exact Hs|]. split; [lia|].
  right. split; [exists x, y; reflexivity | exact E].
Qed.

Lemma check_win_keeps_entities (g : BattleRoyale.t) :
  returns (BattleRoyale.check_win g)
    (fun g' => BattleRoyale.bots g' = BattleRoyale.bots g
               /\ BattleRoyale.player g' = BattleRoyale.player g
               /\ BattleRoyale.bullets g' = BattleRoyale.bullets g
               /\ BattleRoyale.running g'
                  = (BattleRoyale.running g
                     && negb (List.length (BattleRoyale.living g) <=? 1)%nat)).
Proof.
  unfold BattleRoyale.check_win.
  destruct (_ <=? _)%nat.
  - eapply returns_bind; [apply returns_time|].
    intros now _. apply returns_ret. cbn. rewrite andb_false_r. auto.
  - apply returns_ret. rewrite andb_true_r. auto.
Qed.

Lemma update_population_effect (g : BattleRoyale.t) (dt : R) :
  returns (BattleRoyale.update g dt)
    (fun g' =>
       let before := List.length (BattleRoyale.bots g) in
       let after := List.length (BattleRoyale.bots g') in
       (after = before \/ (after = S before /\ (before < MAX_BOTS * 2)%nat))
       /\ (after <= Nat.max before (MAX_BOTS * 2))%nat).
Proof.
  unfold BattleRoyale.update.
  assert (Hm : BattleRoyale.bots (BattleRoyale.move_player g) = BattleRoyale.bots g).
  { unfold BattleRoyale.move_player. destruct (normalize _ _); reflexivity. }
  set (g1 := BattleRoyale.move_player g) in *.
  eapply returns_bind; [apply update_bots_decay|].
  intros [bs bl] (todo' & Hr & Hd). cbn in Hr. subst bs.
  apply Forall2_length in Hd. rewrite Hm in Hd.
  pose proof (update_bullets_decay bl (BattleRoyale.player g1) todo') as [_ Hb].
  apply Forall2_length in Hb.
  destruct (BattleRoyale.update_bullets _ _ _) as [[p3 bs3] bl3]. cbn in Hb.
  eapply returns_bind; [apply returns_time|].
  intros now _. cbn beta.
  eapply returns_bind; [apply check_win_keeps_entities|].
  intros g6 (H6 & _). cbn beta.
  eapply returns_weaken; [apply replenish_population|].
  intros g7 H7. cbv zeta.
  assert (Hlen : List.length (BattleRoyale.bots g6) = List.length (BattleRoyale.bots g)).
  { rewrite H6. cbn. rewrite length_map. lia. }
  change (MAX_BOTS * 2)%nat with 20%nat.
  destruct H7 as [H7 | [(x & y & H7) Hlt]]; rewrite H7.
  - rewrite Hlen. split; [left; reflexivity | lia].
  - rewrite length_app, Hlen in *. cbn. split; [right; lia | lia].
Qed.

(** X9: a simulation step never removes a bot and adds at most one, at
    the end of the list; it adds none once 2 * MAX_BOTS = 20 bots have been
    spawned, so replenishing never takes the list past 20. *)
Theorem update_population (g : BattleRoyale.t) (dt : R) :
  returns (BattleRoyale.update g dt)
    (fun g' =>
       let before := List.length (BattleRoyale.bots g) in
       let after := List.length (BattleRoyale.bots g') in
       (after = before \/ (after = S before /\ (before < MAX_BOTS * 2)%nat))
       /\ (after <= Nat.max before (MAX_BOTS * 2))%nat).
Proof. exact (update_population_effect g dt). Qed.

(** ** Shots *)

Lemma fire_outcome (p : Player.t) (tx ty : R) (o : Oracle) (n : nat) :
  let e := Player.ent p in
  let d := normalize (tx - Entity.x e) (ty - Entity.y e) in
  let off := Entity.radius e + BULLET_RADIUS + 1 in
  Player.fire p tx ty o n
  = if Rge_b (time_at o n - Player.last_fire p) FIRE_COOLDOWN && Entity.alive e
    then Returns (Player.set_last_fire p (time_at o (S n)),
                  Some (Bullet.mk PlayerRef
                          (Entity.x e + fst d * off) (Entity.y e + snd d * off)
                          (fst d * BULLET_SPEED) (snd d * BULLET_SPEED) true))
                 (S (S n))
    else Returns (p, None) (S n).
Proof.
  cbv zeta. unfold Player.fire, Player.can_fire, bind, ret, time_time.
  destruct (normalize _ _) as [nx ny]; cbn [fst snd].
  destruct (Rge_b _ _); destruct (Entity.alive _); reflexivity.
Qed.

Lemma aimed_velocity (dx dy s : R) :
  0 <= s ->
  hypot (fst (normalize dx dy) * s) (snd (normalize dx dy) * s)
  = if Req_b (hypot dx dy) 0 then 0 else s.
Proof.
  intros Hs.
  rewrite (Rmult_comm (fst _)), (Rmult_comm (snd _)), hypot_scale by exact Hs.
  rewrite normalize_length. destruct (Req_b _ _); lra.
Qed.

(** X10: a bullet that [Player.fire] returns is the player's own, alive,
    and leaves the player's health and position alone; aimed at any point
    but the player's own position it flies at BULLET_SPEED and starts at
    distance radius + BULLET_RADIUS + 1 from the player; aimed at the
    player's own position it has velocity (0,0) and starts on the player. *)
Theorem fired_bullet_flies_at_bullet_speed
  (p p' : Player.t) (tx ty : R) (o : Oracle) (n n' : nat) (b : Bullet.t) :
  Player.fire p tx ty o n = Returns (p', Some b) n' ->
  let e := Player.ent p in
  Bullet.owner b = PlayerRef
  /\ Bullet.alive b = true
  /\ Player.ent p' = e
  /\ ((tx, ty) <> (Entity.x e, Entity.y e) ->
      hypot (Bullet.vx b) (Bullet.vy b) = BULLET_SPEED
      /\ (0 <= Entity.radius e + BULLET_RADIUS + 1 ->
          distance (Bullet.x b, Bullet.y b) (Entity.x e, Entity.y e)
          = Entity.radius e + BULLET_RADIUS + 1))
  /\ ((tx, ty) = (Entity.x e, Entity.y e) ->
      Bullet.vx b = 0 /\ Bullet.vy b = 0
      /\ Bullet.x b = Entity.x e /\ Bullet.y b = Entity.y e).
Proof.
  intros H. cbv zeta. rewrite fire_outcome in H. cbv zeta in H.
  destruct (_ && _); [| discriminate H].
  injection H as <- <- <-. cbn.
  split; [reflexivity | split; [reflexivity | split; [reflexivity | split]]].
  - intros Hne.
    assert (Hm : Req_b (hypot (tx - Entity.x (Player.ent p)) (ty - Entity.y (Player.ent p))) 0
                 = false).
    { unfold Req_b. destruct (Req_dec_T _ 0) as [Hz|]; [| reflexivity].
      apply hypot_zero_iff in Hz. exfalso. apply Hne. f_equal; lra. }
    split.
    + rewrite aimed_velocity by (unfold BULLET_SPEED; lra). rewrite Hm. reflexivity.
    + intros Hoff. unfold distance; cbn [fst snd].
      match goal with |- hypot ?a ?b = _ =>
        replace a with (fst (normalize (tx - Entity.x (Player.ent p))
                                       (ty - Entity.y (Player.ent p)))
                        * (Entity.radius (Player.ent p) + BULLET_RADIUS + 1)) by ring;
        replace b with (snd (normalize (tx - Entity.x (Player.ent p))
                                       (ty - Entity.y (Player.ent p)))
                        * (Entity.radius (Player.ent p) + BULLET_RADIUS + 1)) by ring
      end.
      rewrite aimed_velocity by exact Hoff. rewrite Hm. reflexivity.
  - intros Heq. injection Heq as -> ->.
    replace (Entity.x (Player.ent p) - Entity.x (Player.ent p)) with 0 by lra.
    replace (Entity.y (Player.ent p) - Entity.y (Player.ent p)) with 0 by lra.
    rewrite normalize_zero. cbn. repeat split; lra.
Qed.

Lemma fired_bullet_flies_at_bullet_speed_witness :
  let p := Player.init 450 300 in
  let b := Bullet.mk PlayerRef (450 + 0 * (PLAYER_RADIUS + BULLET_RADIUS + 1))
                     (300 + 0 * (PLAYER_RADIUS + BULLET_RADIUS + 1))
                     (0 * BULLET_SPEED) (0 * BULLET_SPEED) true in
  Bullet.vx b = 0 /\ Bullet.vy b = 0 /\ Bullet.x b = 450 /\ Bullet.y b = 300.
Proof.
  cbv zeta.
  assert (H : Player.fire (Player.init 450 300) 450 300 still_oracle 0%nat
              = Returns (Player.set_last_fire (Player.init 450 300) 31,
                         Some (Bullet.mk PlayerRef
                                 (450 + 0 * (PLAYER_RADIUS + BULLET_RADIUS + 1))
                                 (300 + 0 * (PLAYER_RADIUS + BULLET_RADIUS + 1))
                                 (0 * BULLET_SPEED) (0 * BULLET_SPEED) true)) 2%nat).
  { rewrite fire_outcome. cbn.
    replace (Rge_b (31 - 0) FIRE_COOLDOWN) with true
      by (symmetry; apply Rge_b_true; unfold FIRE_COOLDOWN; lra).
    replace (450 - 450) with 0 by lra. replace (300 - 300) with 0 by lra.
    rewrite normalize_zero. reflexivity. }
  destruct (fired_bullet_flies_at_bullet_speed _ _ _ _ _ _ _ _ H) as (_ & _ & _ & _ & Hz).
  apply Hz. reflexivity.
Defined.

Lemma try_fire_shot (r : EntityRef) (b : Bot.t) (p : Player.t) :
  returns (Bot.try_fire r b p)
    (fun fired =>
       match fired with
       | None => True
       | Some bullet =>
         Entity.alive (Player.ent p) = true
         /\ Entity.alive (Bot.ent b) = true
         /\ Bullet.owner bullet = r
         /\ Bullet.alive bullet = true
         /\ hypot (Bullet.vx bullet) (Bullet.vy bullet) <= BULLET_SPEED
       end).
Proof.
  unfold Bot.try_fire.
  destruct (Entity.alive (Player.ent p)) eqn:Ep; cbn [negb orb];
    [| apply returns_ret; exact I].
  destruct (Entity.alive (Bot.ent b)) eqn:Eb; cbn [negb];
    [| apply returns_ret; exact I].
  eapply returns_bind; [apply returns_random|].
  intros draw _. cbn beta.
  destruct (Rlt_b _ _); [| apply returns_ret; exact I].
  match goal with |- context [normalize ?a ?c] =>
    pose proof (aimed_velocity a c BULLET_SPEED ltac:(unfold BULLET_SPEED; lra)) as Hv;
    destruct (normalize a c) as [nx ny]
  end.
  cbn [fst snd] in Hv. apply returns_ret. cbn.
  repeat (split; [reflexivity|]).
  rewrite Hv. destruct (Req_b _ _); unfold BULLET_SPEED; lra.
Qed.

Lemma update_bots_shots (p : Player.t) (todo : list Bot.t) :
  forall (done : list Bot.t) (bl : list Bullet.t),
    returns (BattleRoyale.update_bots p done todo bl)
      (fun r => exists new,
           snd r = bl ++ new
           /\ (List.length new
               <= List.length (filter (fun b => Entity.alive (Bot.ent b)) todo))%nat
           /\ Forall (shot_by_living_bot (List.length done) todo) new
           /\ (Entity.alive (Player.ent p) = false -> new = [])).
Proof.
  induction todo as [|bot rest IH]; intros done bl.
  - apply returns_ret. exists []. cbn. rewrite app_nil_r. auto.
  - cbn [BattleRoyale.update_bots filter].
    assert (Hshift : forall new,
               Forall (shot_by_living_bot (List.length (done ++ [bot])) rest) new ->
               Forall (shot_by_living_bot (List.length done) (bot :: rest)) new).
    { intros new. apply Forall_impl. intros b (Ha & Hv & j & bj & Ho & Hn & Hl).
      split; [exact Ha | split; [exact Hv|]].
      exists (S j), bj. rewrite Ho, length_app. cbn.
      split; [f_equal; lia | auto]. }
    destruct (Entity.alive (Bot.ent bot)) eqn:Ea; cbn [negb].
    + eapply returns_bind; [apply step_keeps_health|].
      intros bot1 Hb. cbn beta.
      eapply returns_bind; [apply try_fire_shot|].
      intros fired Hf. cbn beta.
      eapply returns_weaken; [apply IH|].
      intros r (new & Hr & Hlen & Hall & Hdead).
      rewrite length_app in Hall. cbn [List.length] in Hall.
      destruct fired as [bullet|].
      * destruct Hf as (Hp & _ & Ho & Hal & Hv).
        exists (bullet :: new). rewrite Hr, <- app_assoc. cbn.
        split; [reflexivity | split; [lia | split]].
        -- constructor.
           ++ split; [exact Hal | split; [exact Hv|]].
              exists O, bot. rewrite Ho, Nat.add_0_r. auto.
           ++ apply Hshift. rewrite length_app. exact Hall.
        -- intros Hd. rewrite Hd in Hp. discriminate Hp.
      * exists new. cbn. split; [exact Hr | split; [lia | split; [| exact Hdead]]].
        apply Hshift. rewrite length_app. exact Hall.
    + eapply returns_weaken; [apply IH|].
      intros r (new & Hr & Hlen & Hall & Hdead).
      exists new. split; [exact Hr | split; [exact Hlen | split; [| exact Hdead]]].
      apply Hshift. exact Hall.
Qed.

(** X11: the bot loop of a step only appends to the bullets: at most one
    new bullet for each bot that is alive, every one alive, owned by a
    living bot of the list and no faster than BULLET_SPEED; with the player
    dead no bot fires at all. *)
Theorem bots_fire_only_at_living_player
  (p : Player.t) (bots : list Bot.t) (bl : list Bullet.t) :
  returns (BattleRoyale.update_bots p [] bots bl)
    (fun r => exists new,
         snd r = bl ++ new
         /\ (List.length new
             <= List.length (filter (fun b => Entity.alive (Bot.ent b)) bots))%nat
         /\ Forall (shot_by_living_bot 0 bots) new
         /\ (Entity.alive (Player.ent p) = false -> new = [])).
Proof. apply (update_bots_shots p bots [] bl). Qed.

(** ** Bot.choose_target *)

Lemma min_by_first {A : Type} (key : A -> R) (rest : list A) :
  forall best, exists l1 l2,
    best :: rest = l1 ++ Bot.min_by key best rest :: l2
    /\ (forall c, In c l1 -> key (Bot.min_by key best rest) < key c)
    /\ (forall c, In c l2 -> key (Bot.min_by key best rest) <= key c).
Proof.
  induction rest as [|c rest IH]; intros best.
  - exists [], []. cbn. repeat split; intros c [].
  - cbn [Bot.min_by].
    destruct (Rlt_b (key c) (key best)) eqn:E;
      [apply Rlt_b_true in E | apply Rlt_b_false in E].
    + destruct (IH c) as (l1 & l2 & Heq & H1 & H2).
      set (m := Bot.min_by key c rest) in *.
      assert (Hmc : key m <= key c).
      { assert (Hin : In c (l1 ++ m :: l2)) by (rewrite <- Heq; left; reflexivity).
        apply in_app_or in Hin. destruct Hin as [Hin | [-> | Hin]];
          [apply Rlt_le, H1, Hin | lra | apply H2, Hin]. }
      exists (best :: l1), l2. rewrite Heq. split; [reflexivity | split; [| exact H2]].
      intros c' [<- | Hin]; [lra | apply H1, Hin].
    + destruct (IH best) as (l1 & l2 & Heq & H1 & H2).
      set (m := Bot.min_by key best rest) in *.
      destruct l1 as [|b0 l1]; cbn in Heq; injection Heq as Hb Hr.
      * exists [], (c :: l2). rewrite <- Hb, Hr. cbn.
        split; [reflexivity | split; [intros c' [] |]].
        intros c' [<- | Hin]; [lra | rewrite Hb; apply H2, Hin].
      * subst b0. exists (best :: c :: l1), l2. rewrite Hr. cbn.
        split; [reflexivity | split; [| exact H2]].
        assert (Hmb : key m < key best) by (apply H1; left; reflexivity).
        intros c' [<- | [<- | Hin]]; [exact Hmb | lra | apply H1; right; exact Hin].
Qed.

Section Enumerated.

Variable f : nat * Bot.t -> bool.

Lemma enumerated_in (l : list Bot.t) :
  forall s c,
    In c (filter f (combine (seq s (List.length l)) l)) <->
    (s <= fst c)%nat /\ nth_error l (fst c - s) = Some (snd c) /\ f c = true.
Proof.
  induction l as [|a l IH]; intros s c.
  - cbn. split; [intros [] | intros (_ & H & _)].
    destruct (fst c - s)%nat; discriminate H.
  - cbn [List.length seq combine filter].
    assert (Hrest : In c (filter f (combine (seq (S s) (List.length l)) l)) <->
                    (S s <= fst c)%nat /\ nth_error l (fst c - S s) = Some (snd c)
                    /\ f c = true) by apply IH.
    assert (Hhere : (s, a) = c <-> fst c = s /\ snd c = a).
    { destruct c as [i b]. cbn. split; [intros H; injection H; auto | intros [-> ->]; auto]. }
    split.
    + intros Hin.
      assert (Hcases : ((s, a) = c /\ f (s, a) = true)
                       \/ In c (filter f (combine (seq (S s) (List.length l)) l))).
      { destruct (f (s, a)) eqn:E; [destruct Hin as [H | H]; auto | auto]. }
      destruct Hcases as [[Hc Hf] | Hr].
      * subst c. cbn. rewrite Nat.sub_diag. auto.
      * apply Hrest in Hr. destruct Hr as (Hle & Hn & Hf).
        split; [lia | split; [| exact Hf]].
        replace (fst c - s)%nat with (S (fst c - S s)) by lia. exact Hn.
    + intros (Hle & Hn & Hf).
      destruct (Nat.eq_dec (fst c) s) as [Heq | Hne].
      * rewrite Heq, Nat.sub_diag in Hn. cbn in Hn. injection Hn as Ha.
        assert (Hc : (s, a) = c) by (apply Hhere; auto).
        rewrite Hc, Hf. left. reflexivity.
      * assert (Hin : In c (filter f (combine (seq (S s) (List.length l)) l))).
        { apply Hrest. split; [lia | split; [| exact Hf]].
          replace (fst c - s)%nat with (S (fst c - S s)) in Hn by lia. exact Hn. }
        destruct (f (s, a)); [right; exact Hin | exact Hin].
Qed.

Lemma enumerated_increasing (l : list Bot.t) :
  forall s l1 m l2,
    filter f (combine (seq s (List.length l)) l) = l1 ++ m :: l2 ->
    forall c, In c l2 -> (fst m < fst c)%nat.
Proof.
  induction l as [|a l IH]; intros s l1 m l2 Heq c Hc.
  - cbn in Heq. destruct l1; discriminate Heq.
  - cbn [List.length seq combine filter] in Heq.
    destruct (f (s, a)).
    + destruct l1 as [|x l1]; cbn in Heq; injection Heq as Hm Hr.
      * subst m. cbn.
        assert (Hin : In c (filter f (combine (seq (S s) (List.length l)) l)))
          by (rewrite Hr; exact Hc).
        apply enumerated_in in Hin. lia.
      * eapply IH; eassumption.
    + eapply IH; eassumption.
Qed.

End Enumerated.

(** X12: [choose_target] touches only the target.  With the player alive
    the target is the player.  With the player dead and no other bot alive
    the target becomes [None]; otherwise it becomes a living bot other than
    the bot itself that is nearest to it, and among equally near ones the
    first in the list. *)
Theorem choose_target_nearest
  (self_idx : nat) (b : Bot.t) (p : Player.t) (bots : list Bot.t) :
  let b' := Bot.choose_target self_idx b p bots in
  let d := fun bot : Bot.t =>
    distance (Entity.x (Bot.ent b), Entity.y (Bot.ent b))
             (Entity.x (Bot.ent bot), Entity.y (Bot.ent bot)) in
  let other := fun (k : nat) (bk : Bot.t) =>
    nth_error bots k = Some bk /\ Entity.alive (Bot.ent bk) = true /\ k <> self_idx in
  Bot.ent b' = Bot.ent b
  /\ Bot.last_target_time b' = Bot.last_target_time b
  /\ (Entity.alive (Player.ent p) = true -> Bot.target b' = Some (TEntity PlayerRef))
  /\ (Entity.alive (Player.ent p) = false ->
      ((forall k bk, ~ other k bk) /\ Bot.target b' = None)
      \/ exists j bj,
           Bot.target b' = Some (TEntity (BotRef j))
           /\ other j bj
           /\ forall k bk, other k bk -> d bj <= d bk /\ ((k < j)%nat -> d bj < d bk)).
Proof.
  cbv zeta. unfold Bot.choose_target.
  destruct (Entity.alive (Player.ent p)) eqn:Ep.
  { cbn. repeat split; auto. intros H; discriminate H. }
  set (f := fun c : nat * Bot.t =>
              Entity.alive (Bot.ent (snd c)) && negb (Nat.eqb (fst c) self_idx)).
  assert (Hf : forall k bk,
             f (k, bk) = true <-> Entity.alive (Bot.ent bk) = true /\ k <> self_idx).
  { intros k bk. unfold f. cbn.
    rewrite andb_true_iff, negb_true_iff, Nat.eqb_neq. tauto. }
  assert (Hin : forall k bk,
             In (k, bk) (Bot.living_others self_idx bots) <->
             nth_error bots k = Some bk /\ Entity.alive (Bot.ent bk) = true
             /\ k <> self_idx).
  { intros k bk. unfold Bot.living_others. fold f.
    rewrite (enumerated_in f bots O (k, bk)). cbn [fst snd].
    rewrite Nat.sub_0_r, Hf. split; [tauto | intros; repeat split; try tauto; lia]. }
  destruct (Bot.living_others self_idx bots) as [|c rest] eqn:El.
  - cbn. split; [reflexivity | split; [reflexivity | split; [intros H; discriminate H|]]].
    intros _. left. split; [| reflexivity].
    intros k bk Ho. apply Hin in Ho. exact Ho.
  - cbn [Bot.set_target Bot.ent Bot.last_target_time Bot.target].
    split; [reflexivity | split; [reflexivity | split; [intros H; discriminate H|]]].
    intros _. right.
    set (key := fun e : nat * Bot.t =>
                  distance (Entity.x (Bot.ent b), Entity.y (Bot.ent b))
                           (Entity.x (Bot.ent (snd e)), Entity.y (Bot.ent (snd e)))).
    destruct (min_by_first key rest c) as (l1 & l2 & Heq & H1 & H2).
    set (m := Bot.min_by key c rest) in *.
    assert (Hm : In m (c :: rest)) by (rewrite Heq; apply in_elt).
    exists (fst m), (snd m).
    split; [reflexivity | split].
    + apply Hin. rewrite <- surjective_pairing. exact Hm.
    + intros k bk Ho. apply Hin in Ho. rewrite Heq in Ho.
      apply in_app_or in Ho.
      assert (Hlater : forall c', In c' l2 -> (fst m < fst c')%nat).
      { apply (enumerated_increasing f bots O l1 m l2).
        unfold Bot.living_others in El. fold f in El. rewrite El. exact Heq. }
      destruct Ho as [Ho | [Ho | Ho]].
      * specialize (H1 _ Ho). unfold key in H1. cbn in H1. split; [lra | intros _; exact H1].
      * rewrite Ho. cbn. split; [lra | lia].
      * specialize (H2 _ Ho). specialize (Hlater _ Ho). unfold key in H2. cbn in *.
        split; [exact H2 | lia].
Qed.

(** ** Damage outside the zone *)

Lemma hit_position (e : Entity.t) (damage : R) :
  Entity.x (Entity.hit e damage) = Entity.x e
  /\ Entity.y (Entity.hit e damage) = Entity.y e.
Proof. unfold Entity.hit; cbn. destruct (Rle_b _ _); cbn; auto. Qed.

Lemma zone_ticks_outside (c : R * R) (radius dt : R) (e : Entity.t) (k : nat) :
  0 < dt -> Entity.alive e = true -> 0 < Entity.hp e ->
  distance (Entity.x e, Entity.y e) c > radius ->
  let e' := zone_ticks c radius dt k e in
  Entity.x e' = Entity.x e /\ Entity.y e' = Entity.y e
  /\ ((INR k * (OUTSIDE_DAMAGE * dt * 60) < Entity.hp e
       /\ Entity.alive e' = true
       /\ Entity.hp e' = Entity.hp e - INR k * (OUTSIDE_DAMAGE * dt * 60))
      \/ (Entity.hp e <= INR k * (OUTSIDE_DAMAGE * dt * 60)
          /\ Entity.alive e' = false)).
Proof.
  intros Hdt Ha Hh Hout. cbv zeta.
  induction k as [|k (Hx & Hy & IH)].
  - cbn. split; [reflexivity | split; [reflexivity|]]. left.
    split; [lra | split; [exact Ha | lra]].
  - cbn [zone_ticks]. rewrite S_INR.
    set (ek := zone_ticks c radius dt k e) in *.
    set (D := OUTSIDE_DAMAGE * dt * 60) in *.
    assert (HD : 0 < D) by (unfold D, OUTSIDE_DAMAGE; nra).
    unfold BattleRoyale.outside_damage. fold D.
    destruct IH as [(Hlt & Hal & Hhp) | (Hge & Hal)]; rewrite Hal; cbn [negb].
    + rewrite Hx, Hy.
      replace (Rgt_b (distance (Entity.x e, Entity.y e) c) radius) with true
        by (symmetry; apply Rgt_b_true; exact Hout).
      destruct (hit_position ek D) as [Hpx Hpy].
      rewrite Hpx, Hpy, hit_alive, hit_hp, Hhp, Hal.
      split; [exact Hx | split; [exact Hy |]].
      destruct (Rle_b (Entity.hp e - INR k * D - D) 0) eqn:E;
        [apply Rle_b_true in E; right | apply Rle_b_false in E; left].
      * split; [lra | reflexivity].
      * split; [lra | split; [reflexivity | lra]].
    + split; [exact Hx | split; [exact Hy |]]. right. split; [lra | exact Hal].
Qed.

(** X13: a living entity with positive health that stays outside the zone,
    with the same dt > 0 at every step, loses OUTSIDE_DAMAGE * dt * 60
    health a step and nothing else: it is alive after k steps exactly when
    k times that damage is still below the health it started with, and
    while it is alive its health is the start health less k times the
    damage.  The damage loop never moves it. *)
Theorem outside_zone_burns_down (c : R * R) (radius dt : R) (e : Entity.t) (k : nat) :
  0 < dt -> Entity.alive e = true -> 0 < Entity.hp e ->
  distance (Entity.x e, Entity.y e) c > radius ->
  let e' := zone_ticks c radius dt k e in
  let damage := OUTSIDE_DAMAGE * dt * 60 in
  (Entity.alive e' = true <-> INR k * damage < Entity.hp e)
  /\ (Entity.alive e' = true -> Entity.hp e' = Entity.hp e - INR k * damage)
  /\ Entity.x e' = Entity.x e /\ Entity.y e' = Entity.y e.
Proof.
  intros Hdt Ha Hh Hout. cbv zeta.
  destruct (zone_ticks_outside c radius dt e k Hdt Ha Hh Hout) as (Hx & Hy & H).
  split; [| split; [| split; assumption]].
  - destruct H as [(Hlt & Hal & _) | (Hge & Hal)]; rewrite Hal; split; intros; auto;
      try discriminate; lra.
  - destruct H as [(_ & _ & Hhp) | (_ & Hal)]; [intros _; exact Hhp|].
    rewrite Hal. discriminate.
Qed.

(** At 30 steps a second an entity at full health, 200 units from the
    centre of a zone of radius 60, is alive after 83 steps and dead after
    the 84th. *)
Lemma outside_zone_burns_down_witness :
  let e := Entity.init 650 300 PLAYER_RADIUS PLAYER_COLOR PLAYER_SPEED in
  Entity.alive (zone_ticks (450, 300) 60 (1 / 30) 83 e) = true
  /\ Entity.alive (zone_ticks (450, 300) 60 (1 / 30) 84 e) = false.
Proof.
  cbv zeta.
  assert (Hd : distance (650, 300) (450, 300) > 60).
  { unfold distance; cbn [fst snd].
    rewrite (hypot_unique (650 - 450) (300 - 300) 200); lra. }
  pose proof (outside_zone_burns_down (450, 300) 60 (1 / 30)
                (Entity.init 650 300 PLAYER_RADIUS PLAYER_COLOR PLAYER_SPEED)) as H.
  split.
  - destruct (H 83%nat ltac:(lra) eq_refl ltac:(cbn; unfold MAX_HEALTH; lra) Hd)
      as ([_ Hon] & _).
    apply Hon. unfold Entity.init. cbn -[INR]. unfold OUTSIDE_DAMAGE, MAX_HEALTH.
    replace (INR 83) with 83 by (rewrite INR_IZR_INZ; reflexivity). lra.
  - destruct (H 84%nat ltac:(lra) eq_refl ltac:(cbn; unfold MAX_HEALTH; lra) Hd)
      as ([Hon _] & _).
    destruct (Entity.alive (zone_ticks (450, 300) 60 (1 / 30) 84 _)); [| reflexivity].
    specialize (Hon eq_refl). exfalso. revert Hon.
    unfold Entity.init. cbn -[INR]. unfold OUTSIDE_DAMAGE, MAX_HEALTH.
    replace (INR 84) with 84 by (rewrite INR_IZR_INZ; reflexivity). lra.
Defined.

(** ** Restart *)

Lemma spawn_bots_fresh (k : nat) :
  forall (g : BattleRoyale.t) (o : Oracle) (n : nat),
  exists new,
    BattleRoyale.spawn_bots k g o n
    = Returns (BattleRoyale.set_bots g (BattleRoyale.bots g ++ new)) (n + 3 * k)
    /\ List.length new = k
    /\ Forall fresh_bot new.
Proof.
  induction k as [|k IH]; intros g o n.
  - exists []. cbn [BattleRoyale.spawn_bots]. rewrite app_nil_r, Nat.mul_0_r, Nat.add_0_r.
    split; [destruct g; reflexivity | split; [reflexivity | constructor]].
  - cbn [BattleRoyale.spawn_bots].
    destruct (spawn_bot_appends g o n) as (x & y & Hs).
    rewrite (bind_returns _ _ _ _ _ _ Hs).
    destruct (IH (BattleRoyale.set_bots g (BattleRoyale.bots g ++ [Bot.init x y])) o
                 (S (S (S n)))) as (new & Hn & Hlen & Hall).
    exists (Bot.init x y :: new). rewrite Hn. cbn.
    split; [| split].
    + rewrite <- app_assoc. f_equal. lia.
    + rewrite Hlen. reflexivity.
    + constructor; [exists x, y; reflexivity | exact Hall].
Qed.

Lemma restart_effect (g : BattleRoyale.t) (o : Oracle) (n : nat) :
  exists g',
    BattleRoyale.restart g o n = Returns g' (n + 3 * MAX_BOTS + 2)
    /\ BattleRoyale.player g' = Player.init (WIDTH / 2) (HEIGHT / 2)
    /\ List.length (BattleRoyale.bots g') = MAX_BOTS
    /\ Forall fresh_bot (BattleRoyale.bots g')
    /\ BattleRoyale.bullets g' = []
    /\ BattleRoyale.running g' = true
    /\ BattleRoyale.paused g' = false
    /\ BattleRoyale.start_time g' = time_at o (n + 3 * MAX_BOTS)
    /\ BattleRoyale.last_time g' = time_at o (n + 3 * MAX_BOTS + 1)
    /\ BattleRoyale.keys g' = BattleRoyale.keys g
    /\ BattleRoyale.mouse_pos g' = BattleRoyale.mouse_pos g
    /\ BattleRoyale.zone_radius g' = BattleRoyale.zone_radius g
    /\ BattleRoyale.end_time g' = BattleRoyale.end_time g
    /\ BattleRoyale.pending g' = BattleRoyale.pending g
    /\ BattleRoyale.frames g' = BattleRoyale.frames g.
Proof.
  unfold BattleRoyale.restart.
  match goal with |- context [BattleRoyale.spawn_bots ?k ?g0] =>
    destruct (spawn_bots_fresh k g0 o n) as (new & Hs & Hlen & Hall)
  end.
  rewrite (bind_returns _ _ _ _ _ _ Hs).
  unfold bind, time_time, ret. cbn.
  eexists. split.
  - f_equal. lia.
  - cbn. repeat split; auto; f_equal; lia.
Qed.

(** X14: [restart] always returns, and what it returns has a fresh player
    at the centre, exactly MAX_BOTS = 10 fresh bots and no bullet, with the
    running flag up and the pause flag down; the start time and the last
    frame time are the two clock readings that follow the spawning.  The
    held keys, the cursor, the zone, the end time and the host's
    bookkeeping are left as they were. *)
Theorem restart_rebuilds_the_session (g : BattleRoyale.t) (o : Oracle) (n : nat) :
  exists g',
    BattleRoyale.restart g o n = Returns g' (n + 3 * MAX_BOTS + 2)
    /\ BattleRoyale.player g' = Player.init (WIDTH / 2) (HEIGHT / 2)
    /\ List.length (BattleRoyale.bots g') = MAX_BOTS
    /\ Forall fresh_bot (BattleRoyale.bots g')
    /\ BattleRoyale.bullets g' = []
    /\ BattleRoyale.running g' = true
    /\ BattleRoyale.paused g' = false
    /\ BattleRoyale.start_time g' = time_at o (n + 3 * MAX_BOTS)
    /\ BattleRoyale.last_time g' = time_at o (n + 3 * MAX_BOTS + 1)
    /\ BattleRoyale.keys g' = BattleRoyale.keys g
    /\ BattleRoyale.mouse_pos g' = BattleRoyale.mouse_pos g
    /\ BattleRoyale.zone_radius g' = BattleRoyale.zone_radius g
    /\ BattleRoyale.end_time g' = BattleRoyale.end_time g
    /\ BattleRoyale.pending g' = BattleRoyale.pending g
    /\ BattleRoyale.frames g' = BattleRoyale.frames g.
Proof. exact (restart_effect g o n). Qed.

(** ** The end of a session *)

Lemma same_controls_refl (g : BattleRoyale.t) : same_controls g g.
Proof. unfold same_controls. repeat split. Qed.

Lemma same_controls_trans (g1 g2 g3 : BattleRoyale.t) :
  same_controls g1 g2 -> same_controls g2 g3 -> same_controls g1 g3.
Proof.
  unfold same_controls.
  intros (A1 & A2 & A3 & A4 & A5 & A6 & A7 & A8) (B1 & B2 & B3 & B4 & B5 & B6 & B7 & B8).
  repeat split; congruence.
Qed.

Lemma replenish_effect (g : BattleRoyale.t) :
  returns (BattleRoyale.replenish g)
    (fun g' =>
       same_controls g g'
       /\ BattleRoyale.player g' = BattleRoyale.player g
       /\ BattleRoyale.bullets g' = BattleRoyale.bullets g
       /\ BattleRoyale.running g' = BattleRoyale.running g
       /\ BattleRoyale.end_time g' = BattleRoyale.end_time g
       /\ (BattleRoyale.bots g' = BattleRoyale.bots g
           \/ exists x y, BattleRoyale.bots g' = BattleRoyale.bots g ++ [Bot.init x y])).
Proof.
  assert (Hsame : returns (ret g)
            (fun g' =>
               same_controls g g'
               /\ BattleRoyale.player g' = BattleRoyale.player g
               /\ BattleRoyale.bullets g' = BattleRoyale.bullets g
               /\ BattleRoyale.running g' = BattleRoyale.running g
               /\ BattleRoyale.end_time g' = BattleRoyale.end_time g
               /\ (BattleRoyale.bots g' = BattleRoyale.bots g
                   \/ exists x y,
                        BattleRoyale.bots g' = BattleRoyale.bots g ++ [Bot.init x y]))).
  { apply returns_ret. split; [apply same_controls_refl | auto 10]. }
  unfold BattleRoyale.replenish.
  destruct (_ && _); [| exact Hsame].
  eapply returns_bind; [apply returns_random|].
  intros draw _. cbn beta.
  destruct (Rlt_b _ _); [| exact Hsame].
  intros o n. destruct (spawn_bot_appends g o n) as (x & y & Hs).
  eexists; eexists. split; [exact Hs|]. split; [lia|].
  cbn. split; [unfold same_controls; cbn; repeat split | repeat split].
  right. exists x, y. reflexivity.
Qed.

Lemma check_win_effect (g : BattleRoyale.t) :
  returns (BattleRoyale.check_win g)
    (fun g' =>
       same_controls g g'
       /\ BattleRoyale.player g' = BattleRoyale.player g
       /\ BattleRoyale.bots g' = BattleRoyale.bots g
       /\ BattleRoyale.bullets g' = BattleRoyale.bullets g
       /\ BattleRoyale.zone_radius g' = BattleRoyale.zone_radius g
       /\ ((1 < List.length (BattleRoyale.living g))%nat ->
           BattleRoyale.running g' = BattleRoyale.running g
           /\ BattleRoyale.end_time g' = BattleRoyale.end_time g)
       /\ ((List.length (BattleRoyale.living g) <= 1)%nat ->
           BattleRoyale.running g' = false
           /\ exists stamp, BattleRoyale.end_time g' = Some stamp)).
Proof.
  unfold BattleRoyale.check_win.
  destruct (_ <=? _)%nat eqn:E; [apply Nat.leb_le in E | apply Nat.leb_gt in E].
  - eapply returns_bind; [apply returns_time|].
    intros now _. apply returns_ret.
    split; [unfold same_controls; cbn; repeat split|].
    repeat (split; [reflexivity|]).
    split; [intros H; lia | intros _; split; [reflexivity | exists now; reflexivity]].
  - apply returns_ret.
    split; [apply same_controls_refl|].
    repeat (split; [reflexivity|]).
    split; [intros _; split; reflexivity | intros H; lia].
Qed.

Lemma living_after_spawn (g g' : BattleRoyale.t) (x y : R) :
  BattleRoyale.player g' = BattleRoyale.player g ->
  BattleRoyale.bots g' = BattleRoyale.bots g ++ [Bot.init x y] ->
  List.length (BattleRoyale.living g') = S (List.length (BattleRoyale.living g)).
Proof.
  intros Hp Hb. unfold BattleRoyale.living. rewrite Hp, Hb, map_app.
  cbn [filter map].
  assert (H : forall l, List.length (filter Entity.alive (l ++ [Bot.ent (Bot.init x y)]))
                        = S (List.length (filter Entity.alive l))).
  { intros l. rewrite filter_app, length_app. cbn. lia. }
  destruct (Entity.alive (Player.ent (BattleRoyale.player g))); cbn [List.length];
    rewrite H; reflexivity.
Qed.

(** X15: a simulation step never raises the running flag; a session that
    is still running after a step has at least two entities alive, and a
    step that ends a running session leaves at most two alive: the one that
    was left at the win check, and a bot spawned after it. *)
Theorem step_ends_session_with_one_left (g : BattleRoyale.t) (dt : R) :
  returns (BattleRoyale.update g dt)
    (fun g' =>
       (BattleRoyale.running g = false -> BattleRoyale.running g' = false)
       /\ (BattleRoyale.running g' = true ->
           (2 <= List.length (BattleRoyale.living g'))%nat)
       /\ (BattleRoyale.running g = true -> BattleRoyale.running g' = false ->
           (List.length (BattleRoyale.living g') <= 2)%nat
           /\ exists stamp, BattleRoyale.end_time g' = Some stamp)).
Proof.
  unfold BattleRoyale.update.
  assert (Hm : BattleRoyale.running (BattleRoyale.move_player g) = BattleRoyale.running g).
  { unfold BattleRoyale.move_player. destruct (normalize _ _); reflexivity. }
  set (g1 := BattleRoyale.move_player g) in *.
  eapply returns_bind; [apply update_bots_decay|].
  intros [bs bl] _.
  destruct (BattleRoyale.update_bullets _ _ _) as [[p3 bs3] bl3].
  eapply returns_bind; [apply returns_time|].
  intros now _. cbn beta.
  match goal with |- context [BattleRoyale.check_win ?g0] => set (g5 := g0) end.
  assert (H5 : BattleRoyale.running g5 = BattleRoyale.running g) by exact Hm.
  eapply returns_bind; [apply check_win_effect|].
  intros g6 (_ & Hp6 & Hb6 & _ & _ & Hgo & Hend). cbn beta.
  eapply returns_weaken; [apply replenish_effect|].
  intros g7 (_ & Hp7 & _ & Hr7 & He7 & Hb7).
  assert (Hl6 : List.length (BattleRoyale.living g6) = List.length (BattleRoyale.living g5)).
  { unfold BattleRoyale.living. rewrite Hp6, Hb6. reflexivity. }
  assert (Hl7 : List.length (BattleRoyale.living g7) = List.length (BattleRoyale.living g6)
                \/ List.length (BattleRoyale.living g7)
                   = S (List.length (BattleRoyale.living g6))).
  { destruct Hb7 as [Hb7 | (x & y & Hb7)].
    - left. unfold BattleRoyale.living. rewrite Hp7, Hb7. reflexivity.
    - right. eapply living_after_spawn; eassumption. }
  destruct (Nat.le_gt_cases (List.length (BattleRoyale.living g5)) 1) as [Hle | Hgt].
  - destruct (Hend Hle) as [Hr6 (stamp & Hs6)].
    rewrite Hr7, Hr6, He7. split; [reflexivity | split; [discriminate|]].
    intros _ _. split; [lia | exists stamp; exact Hs6].
  - destruct (Hgo Hgt) as [Hr6 _].
    rewrite Hr7, Hr6, H5. split; [auto | split; [intros _; lia |]].
    intros H1 H2. rewrite H1 in H2. discriminate H2.
Qed.

(** The living are the player, if alive, and the live bots. *)
Lemma living_count (g : BattleRoyale.t) :
  List.length (BattleRoyale.living g)
  = ((if Entity.alive (Player.ent (BattleRoyale.player g)) then 1 else 0)
     + BattleRoyale.live_bots g)%nat.
Proof.
  unfold BattleRoyale.living, BattleRoyale.live_bots. cbn [filter].
  assert (Hmap : forall l,
             List.length (filter Entity.alive (map Bot.ent l))
             = List.length (filter (fun b => Entity.alive (Bot.ent b)) l)).
  { induction l as [|a l IH]; [reflexivity|]. cbn.
    destruct (Entity.alive (Bot.ent a)); cbn; rewrite IH; reflexivity. }
  destruct (Entity.alive _); cbn [List.length]; rewrite Hmap; reflexivity.
Qed.

(** The winner the end screen prints (lines 383-392). *)
Lemma winner_by_count (g : BattleRoyale.t) :
  BattleRoyale.running g = false ->
  BattleRoyale.winner g
  = if Entity.alive (Player.ent (BattleRoyale.player g)) then Some "Player (You)"%string
    else if (0 <? BattleRoyale.live_bots g)%nat then Some "Bot"%string
         else Some "No one"%string.
Proof.
  intros Hr. unfold BattleRoyale.winner, BattleRoyale.live_bots. rewrite Hr. cbn [negb].
  destruct (Entity.alive _); [reflexivity|].
  destruct (filter _ _); reflexivity.
Qed.

(** The winner in the state a simulation step leaves: the step spawns after
    the win check, so a bot spawned in the step that ends the session is
    alive beside the one the win check had found. *)
Lemma update_winner (g : BattleRoyale.t) (dt : R) :
  returns (BattleRoyale.update g dt)
    (fun g' =>
       (BattleRoyale.running g' = true -> BattleRoyale.winner g' = None)
       /\ (BattleRoyale.running g = true -> BattleRoyale.running g' = false ->
           exists spawned,
             List.length (BattleRoyale.bots g')
             = (List.length (BattleRoyale.bots g) + spawned)%nat
             /\ (spawned <= 1)%nat
             /\ BattleRoyale.live_bots g' = (survivors g g' + spawned)%nat
             /\ let alive := Entity.alive (Player.ent (BattleRoyale.player g')) in
                (alive = true /\ survivors g g' = 0%nat
                 /\ BattleRoyale.winner g' = Some "Player (You)"%string)
                \/ (alive = false /\ survivors g g' = 1%nat
                    /\ BattleRoyale.winner g' = Some "Bot"%string)
                \/ (alive = false /\ survivors g g' = 0%nat /\ spawned = 1%nat
                    /\ BattleRoyale.winner g' = Some "Bot"%string)
                \/ (alive = false /\ survivors g g' = 0%nat /\ spawned = 0%nat
                    /\ BattleRoyale.winner g' = Some "No one"%string))).
Proof.
  unfold BattleRoyale.update.
  assert (Hm : BattleRoyale.running (BattleRoyale.move_player g) = BattleRoyale.running g
               /\ BattleRoyale.bots (BattleRoyale.move_player g) = BattleRoyale.bots g).
  { unfold BattleRoyale.move_player. destruct (normalize _ _); split; reflexivity. }
  destruct Hm as [Hm Hmb].
  set (g1 := BattleRoyale.move_player g) in *.
  eapply returns_bind; [apply update_bots_decay|].
  intros [bs bl] (todo' & Hr & Hd). cbn in Hr. subst bs.
  apply Forall2_length in Hd. rewrite Hmb in Hd.
  pose proof (update_bullets_decay bl (BattleRoyale.player g1) todo') as [_ Hb].
  apply Forall2_length in Hb.
  destruct (BattleRoyale.update_bullets _ _ _) as [[p3 bs3] bl3]. cbn in Hb.
  eapply returns_bind; [apply returns_time|].
  intros now _. cbn beta.
  match goal with |- context [BattleRoyale.check_win ?g0] => set (g5 := g0) end.
  assert (H5 : BattleRoyale.running g5 = BattleRoyale.running g) by exact Hm.
  assert (Hlen5 : List.length (BattleRoyale.bots g5) = List.length (BattleRoyale.bots g)).
  { subst g5. cbn. rewrite length_map. lia. }
  clearbody g5.
  eapply returns_bind; [apply check_win_effect|].
  intros g6 (_ & Hp6 & Hb6 & _ & _ & Hgo & Hend). cbn beta.
  eapply returns_weaken; [apply replenish_effect|].
  intros g7 (_ & Hp7 & _ & Hr7 & He7 & Hb7).
  split.
  { intros Hrun. unfold BattleRoyale.winner. rewrite Hrun. reflexivity. }
  intros Hrg Hr7f.
  destruct (Nat.le_gt_cases (List.length (BattleRoyale.living g5)) 1) as [Hle | Hgt].
  2: { destruct (Hgo Hgt) as [Hr6 _]. congruence. }
  rewrite living_count in Hle.
  assert (Hsp : exists extra,
             BattleRoyale.bots g7 = BattleRoyale.bots g5 ++ extra
             /\ (List.length extra <= 1)%nat
             /\ List.length (filter (fun b => Entity.alive (Bot.ent b)) extra)
                = List.length extra).
  { destruct Hb7 as [Hb7 | (x & y & Hb7)].
    - exists []. rewrite Hb7, Hb6, app_nil_r. cbn. auto.
    - exists [Bot.init x y]. rewrite Hb7, Hb6. cbn. auto. }
  destruct Hsp as (extra & Hbots & Hex & Hlive).
  assert (Hsurv : survivors g g7 = BattleRoyale.live_bots g5).
  { unfold survivors, BattleRoyale.live_bots.
    rewrite Hbots, <- Hlen5, firstn_app, Nat.sub_diag, firstn_all. cbn [firstn].
    rewrite app_nil_r. reflexivity. }
  assert (Hlb : BattleRoyale.live_bots g7
                = (survivors g g7 + List.length extra)%nat).
  { rewrite Hsurv. unfold BattleRoyale.live_bots.
    rewrite Hbots, filter_app, length_app, Hlive. reflexivity. }
  exists (List.length extra).
  split; [rewrite Hbots, length_app; lia|].
  split; [exact Hex|]. split; [exact Hlb|].
  cbv zeta. rewrite (winner_by_count g7 Hr7f), Hlb, Hsurv, Hp7, Hp6.
  destruct (Entity.alive (Player.ent (BattleRoyale.player g5))).
  - left. split; [reflexivity | split; [lia | reflexivity]].
  - right. destruct (BattleRoyale.live_bots g5) as [|[|k]] eqn:El; [| | lia].
    + destruct extra as [|b [|b' extra]]; cbn in Hex |- *; [| | lia].
      * right; right. auto.
      * right; left. auto.
    + left. split; [reflexivity | split; [reflexivity|]].
      reflexivity.
Qed.

(** X16: the winner shown by [render].  A callback of a running, unpaused
    session renders the state its simulation step returns, after the win
    check and after the spawn that follows it.  While the session runs no
    winner is shown.  In the frame of the step that ends the session the
    winner is 'Player (You)' when the player is alive, and then no bot of
    the start of the step is; 'Bot' when the player is dead and either one
    bot of the start of the step is alive, or none is and the step has
    spawned one after the win check; 'No one' when the player is dead, no
    bot is alive and none was spawned.  The step spawns at most one bot, and
    the live bots on the end screen are the survivors and that bot. *)
Theorem winner_is_the_last_alive (g : BattleRoyale.t) (o : Oracle) (n : nat) :
  BattleRoyale.running g = true ->
  BattleRoyale.paused g = false ->
  exists g2 n2,
    BattleRoyale.update
      (BattleRoyale.set_clock g (BattleRoyale.start_time g) (time_at o n))
      (time_at o n - BattleRoyale.last_time g) o (S n) = Returns g2 n2
    /\ BattleRoyale.render g2 o n2 = Returns (BattleRoyale.drawn g2) (S n2)
    /\ BattleRoyale.update_loop g o n
       = Returns (BattleRoyale.after (BattleRoyale.drawn g2)) (S n2)
    /\ (BattleRoyale.running g2 = true -> BattleRoyale.winner g2 = None)
    /\ (BattleRoyale.running g2 = false ->
        exists spawned,
          List.length (BattleRoyale.bots g2)
          = (List.length (BattleRoyale.bots g) + spawned)%nat
          /\ (spawned <= 1)%nat
          /\ BattleRoyale.live_bots g2 = (survivors g g2 + spawned)%nat
          /\ let alive := Entity.alive (Player.ent (BattleRoyale.player g2)) in
             (alive = true /\ survivors g g2 = 0%nat
              /\ BattleRoyale.winner g2 = Some "Player (You)"%string)
             \/ (alive = false /\ survivors g g2 = 1%nat
                 /\ BattleRoyale.winner g2 = Some "Bot"%string)
             \/ (alive = false /\ survivors g g2 = 0%nat /\ spawned = 1%nat
                 /\ BattleRoyale.winner g2 = Some "Bot"%string)
             \/ (alive = false /\ survivors g g2 = 0%nat /\ spawned = 0%nat
                 /\ BattleRoyale.winner g2 = Some "No one"%string)).
Proof.
  intros Hr Hp.
  destruct (update_winner
              (BattleRoyale.set_clock g (BattleRoyale.start_time g) (time_at o n))
              (time_at o n - BattleRoyale.last_time g) o (S n))
    as (g2 & n2 & E & _ & Hrun & Hend).
  exists g2, n2. split; [exact E|]. split; [reflexivity|].
  split; [apply update_loop_while_running; assumption|].
  split; [exact Hrun|].
  intros Hf. exact (Hend Hr Hf).
Qed.

Lemma winner_is_the_last_alive_witness :
  exists g2 n2,
    BattleRoyale.update (BattleRoyale.set_clock corner_game 0 9) (9 - 10)
      early_oracle 1%nat = Returns g2 n2
    /\ BattleRoyale.update_loop corner_game early_oracle 0%nat
       = Returns (BattleRoyale.after (BattleRoyale.drawn g2)) (S n2)
    /\ (BattleRoyale.running g2 = true -> BattleRoyale.winner g2 = None).
Proof.
  destruct (winner_is_the_last_alive corner_game early_oracle 0%nat eq_refl eq_refl)
    as (g2 & n2 & E & _ & El & Hrun & _).
  exists g2, n2. split; [exact E | split; [exact El | exact Hrun]].
Defined.

(** ** What a step and the handlers leave alone *)

Lemma update_keeps_controls (g : BattleRoyale.t) (dt : R) :
  returns (BattleRoyale.update g dt) (same_controls g).
Proof.
  unfold BattleRoyale.update.
  assert (Hm : same_controls g (BattleRoyale.move_player g)).
  { unfold BattleRoyale.move_player. destruct (normalize _ _).
    unfold same_controls; cbn; repeat split. }
  set (g1 := BattleRoyale.move_player g) in *.
  eapply returns_bind; [apply update_bots_decay|].
  intros [bs bl] _.
  destruct (BattleRoyale.update_bullets _ _ _) as [[p3 bs3] bl3].
  eapply returns_bind; [apply returns_time|].
  intros now _. cbn beta.
  eapply returns_bind; [apply check_win_effect|].
  intros g6 (H6 & _). cbn beta.
  eapply returns_weaken; [apply replenish_effect|].
  intros g7 (H7 & _).
  eapply same_controls_trans; [| exact H7].
  eapply same_controls_trans; [| exact H6].
  eapply same_controls_trans; [exact Hm|].
  unfold same_controls; cbn; repeat split.
Qed.

Lemma on_click_keeps_host (g : BattleRoyale.t) (ex ey : R) :
  returns (BattleRoyale.on_click g ex ey)
    (fun g' => BattleRoyale.pending g' = BattleRoyale.pending g
               /\ BattleRoyale.frames g' = BattleRoyale.frames g).
Proof.
  intros o n. unfold BattleRoyale.on_click, bind. rewrite fire_outcome. cbv zeta.
  cbn [BattleRoyale.player BattleRoyale.set_input].
  destruct (_ && _); eexists; eexists;
    (split; [reflexivity | split; [lia | split; reflexivity]]).
Qed.

Lemma update_loop_paused (g : BattleRoyale.t) (o : Oracle) (n : nat) :
  BattleRoyale.running g = true ->
  BattleRoyale.paused g = true ->
  BattleRoyale.update_loop g o n
  = Returns (BattleRoyale.after
               (BattleRoyale.drawn
                  (BattleRoyale.set_clock g (BattleRoyale.start_time g) (time_at o n))))
            (S (S n)).
Proof.
  intros Hr Hp. unfold BattleRoyale.update_loop. rewrite Hr. cbn [negb].
  rewrite (bind_returns time_time _ o n (S n) (time_at o n) eq_refl).
  cbn [BattleRoyale.paused BattleRoyale.set_clock]. rewrite Hp. reflexivity.
Qed.

Lemma update_loop_host (g : BattleRoyale.t) :
  returns (BattleRoyale.update_loop g)
    (fun g' =>
       (BattleRoyale.running g = true ->
        BattleRoyale.pending g' = S (BattleRoyale.pending g)
        /\ BattleRoyale.frames g' = S (BattleRoyale.frames g))
       /\ (BattleRoyale.running g = false -> g' = g)).
Proof.
  intros o n.
  destruct (BattleRoyale.running g) eqn:Hr.
  2: { exists g, n. unfold BattleRoyale.update_loop. rewrite Hr.
       split; [reflexivity | split; [lia | split; [discriminate | reflexivity]]]. }
  destruct (BattleRoyale.paused g) eqn:Hp.
  - rewrite (update_loop_paused g o n Hr Hp).
    eexists; eexists. split; [reflexivity | split; [lia | split; [| discriminate]]].
    intros _. split; reflexivity.
  - unfold BattleRoyale.update_loop. rewrite Hr. cbn [negb].
    rewrite (bind_returns time_time _ o n (S n) (time_at o n) eq_refl).
    cbn [BattleRoyale.paused BattleRoyale.set_clock]. rewrite Hp. cbn [negb].
    match goal with |- context [BattleRoyale.update ?g1 ?dt] =>
      destruct (update_keeps_controls g1 dt o (S n))
        as (g2 & n2 & E & Hle & (_ & _ & _ & _ & _ & _ & Hpend & Hfr))
    end.
    rewrite (bind_returns _ _ _ _ _ _ E).
    eexists; eexists. split; [reflexivity | split; [lia | split; [| discriminate]]].
    intros _. cbn. rewrite Hpend, Hfr. split; reflexivity.
Qed.

(** ** The loop under the inputs of a session *)

Lemma deliver_host (g : BattleRoyale.t) (i : input) :
  returns (deliver g i)
    (fun g' => (BattleRoyale.pending g' <= BattleRoyale.pending g)%nat
               /\ (BattleRoyale.frames g <= BattleRoyale.frames g')%nat).
Proof.
  destruct i as [| ex ey | ex ey | k | k |]; cbn [deliver].
  - unfold BattleRoyale.timer_fire.
    destruct (BattleRoyale.pending g) as [|k] eqn:Hp.
    + apply returns_ret. rewrite Hp. split; lia.
    + eapply returns_weaken; [apply update_loop_host|].
      cbn [BattleRoyale.running BattleRoyale.set_host BattleRoyale.pending BattleRoyale.frames].
      intros g' [Hrun Hstop].
      destruct (BattleRoyale.running g).
      * destruct (Hrun eq_refl) as [-> ->]. split; lia.
      * rewrite (Hstop eq_refl). cbn. split; lia.
  - eapply returns_weaken; [apply on_click_keeps_host|].
    intros g' [-> ->]. split; lia.
  - apply returns_ret. cbn. split; lia.
  - apply returns_ret. unfold BattleRoyale.on_keypress.
    destruct (String.eqb _ _); cbn; split; lia.
  - apply returns_ret. unfold BattleRoyale.on_keyrelease.
    destruct (existsb _ _); cbn; split; lia.
  - intros o n. destruct (restart_effect g o n) as (g' & E & H).
    exists g', (n + 3 * MAX_BOTS + 2)%nat. split; [exact E | split; [lia|]].
    destruct H as (_ & _ & _ & _ & _ & _ & _ & _ & _ & _ & _ & _ & -> & ->). split; lia.
Qed.

(** X17: whatever the host delivers, in whatever order (timer callbacks,
    clicks, mouse moves, key presses and releases, restarts), the game
    always returns, the number of registered callbacks never grows, so no
    second loop is ever started and a loop that has stopped stays stopped,
    and the number of frames drawn never shrinks. *)
Theorem callbacks_never_multiply (inputs : list input) (g : BattleRoyale.t) :
  returns (session g inputs)
    (fun g' => (BattleRoyale.pending g' <= BattleRoyale.pending g)%nat
               /\ (BattleRoyale.frames g <= BattleRoyale.frames g')%nat).
Proof.
  revert g. induction inputs as [|i rest IH]; intros g; cbn [session].
  - apply returns_ret. split; lia.
  - eapply returns_bind; [apply deliver_host|].
    intros g1 [H1 H2]. eapply returns_weaken; [apply IH|].
    intros g2 [H3 H4]. split; lia.
Qed.

(** X18: while a running session is paused, every timer callback redraws
    and registers its successor but runs no simulation step: after k
    callbacks the player, the bots, the bullets and the zone radius are as
    they were, k more frames are drawn and one callback is pending.  Each
    callback reads the clock twice, once for the frame time and once in
    [render], and draws no random number, so 2k readings are used and the
    last frame time is the first reading of the last callback. *)
Theorem paused_loop_only_redraws (k : nat) :
  forall (g : BattleRoyale.t) (o : Oracle) (n : nat),
    BattleRoyale.running g = true ->
    BattleRoyale.paused g = true ->
    BattleRoyale.pending g = 1%nat ->
    exists g',
      timer_fires k g o n = Returns g' (n + 2 * k)
      /\ BattleRoyale.player g' = BattleRoyale.player g
      /\ BattleRoyale.bots g' = BattleRoyale.bots g
      /\ BattleRoyale.bullets g' = BattleRoyale.bullets g
      /\ BattleRoyale.zone_radius g' = BattleRoyale.zone_radius g
      /\ BattleRoyale.running g' = true
      /\ BattleRoyale.paused g' = true
      /\ BattleRoyale.pending g' = 1%nat
      /\ BattleRoyale.frames g' = (BattleRoyale.frames g + k)%nat
      /\ ((0 < k)%nat -> BattleRoyale.last_time g' = time_at o (n + 2 * k - 2)).
Proof.
  induction k as [|k IH]; intros g o n Hr Hp Hpend.
  - exists g. cbn [timer_fires]. rewrite Nat.mul_0_r, !Nat.add_0_r.
    repeat split; auto. intros H; lia.
  - cbn [timer_fires]. unfold BattleRoyale.timer_fire. rewrite Hpend.
    set (g0 := BattleRoyale.set_host g 0 (BattleRoyale.frames g)).
    assert (E : BattleRoyale.update_loop g0 o n
                = Returns (BattleRoyale.after
                             (BattleRoyale.drawn
                                (BattleRoyale.set_clock g0 (BattleRoyale.start_time g0)
                                   (time_at o n)))) (S (S n)))
      by (apply update_loop_paused; assumption).
    rewrite (bind_returns _ _ _ _ _ _ E).
    match goal with |- context [timer_fires k ?g1 o (S (S n))] =>
      destruct (IH g1 o (S (S n)) Hr Hp eq_refl)
        as (g' & Ef & H1 & H2 & H3 & H4 & H5 & H6 & H7 & H8 & H9)
    end.
    exists g'. split; [rewrite Ef; f_equal; lia|].
    repeat (split; [assumption|]).
    split; [rewrite H8; cbn; lia|].
    intros _. destruct k as [|k].
    + cbn [timer_fires] in Ef. injection Ef as <- _. cbn. f_equal. lia.
    + rewrite H9 by lia. f_equal. lia.
Qed.

Lemma paused_loop_only_redraws_witness :
  exists g',
    timer_fires 3 paused_game still_oracle 0%nat = Returns g' 6%nat
    /\ BattleRoyale.bullets g' = BattleRoyale.bullets paused_game
    /\ BattleRoyale.frames g' = 153%nat.
Proof.
  destruct (paused_loop_only_redraws 3 paused_game still_oracle 0%nat eq_refl eq_refl eq_refl)
    as (g' & E & _ & _ & Hb & _ & _ & _ & _ & Hf & _).
  exists g'. split; [exact E | split; [exact Hb | exact Hf]].
Defined.

(** ** Keys *)

Lemma lower_ascii_idempotent (c : Ascii.ascii) :
  BattleRoyale.lower_ascii (BattleRoyale.lower_ascii c) = BattleRoyale.lower_ascii c.
Proof. destruct c as [[] [] [] [] [] [] [] []]; reflexivity. Qed.

Lemma lower_idempotent (s : string) :
  BattleRoyale.lower (BattleRoyale.lower s) = BattleRoyale.lower s.
Proof.
  induction s as [|c s IH]; [reflexivity|].
  cbn. rewrite lower_ascii_idempotent, IH. reflexivity.
Qed.

Lemma eqb_flip (a b : string) : String.eqb a b = String.eqb b a.
Proof.
  destruct (String.eqb a b) eqn:E.
  - apply String.eqb_eq in E. subst. symmetry. apply String.eqb_refl.
  - symmetry. apply String.eqb_neq. apply String.eqb_neq in E. congruence.
Qed.

Lemma keys_add_held (k k' : string) (ks : list string) :
  existsb (String.eqb k') (BattleRoyale.keys_add k ks)
  = String.eqb k' k || existsb (String.eqb k') ks.
Proof.
  unfold BattleRoyale.keys_add.
  destruct (existsb (String.eqb k) ks) eqn:E; [| reflexivity].
  destruct (String.eqb k' k) eqn:Ek; [| reflexivity].
  apply String.eqb_eq in Ek. subst. rewrite E. reflexivity.
Qed.

Lemma keys_remove_held (k k' : string) (ks : list string) :
  existsb (String.eqb k') (BattleRoyale.keys_remove k ks)
  = negb (String.eqb k' k) && existsb (String.eqb k') ks.
Proof.
  unfold BattleRoyale.keys_remove.
  induction ks as [|a ks IH]; cbn [filter existsb].
  - rewrite andb_false_r. reflexivity.
  - destruct (String.eqb k a) eqn:Ea; cbn [negb].
    + apply String.eqb_eq in Ea. subst a. rewrite IH.
      destruct (String.eqb k' k); reflexivity.
    + cbn [existsb]. rewrite IH.
      destruct (String.eqb k' a) eqn:E1; [| destruct (String.eqb k' k); reflexivity].
      apply String.eqb_eq in E1. subst a.
      rewrite (eqb_flip k' k), Ea. reflexivity.
Qed.

(** X19: the key handlers compare keys in lower case, so the case of the
    keysym makes no difference.  A press of P only toggles the pause flag,
    and a second one undoes it; a press of any other key adds that key to
    the held keys and changes nothing about the others; a release takes
    the key out, whether it was held or not.  None of them touches the
    player, the bots or the bullets. *)
Theorem keys_are_held_until_released (g : BattleRoyale.t) (keysym : string) :
  let key := BattleRoyale.lower keysym in
  let pressed := BattleRoyale.on_keypress g keysym in
  let released := BattleRoyale.on_keyrelease g keysym in
  BattleRoyale.on_keypress g key = pressed
  /\ BattleRoyale.on_keyrelease g key = released
  /\ (key = "p"%string ->
      BattleRoyale.paused pressed = negb (BattleRoyale.paused g)
      /\ BattleRoyale.keys pressed = BattleRoyale.keys g
      /\ BattleRoyale.on_keypress pressed keysym = g)
  /\ (key <> "p"%string ->
      BattleRoyale.paused pressed = BattleRoyale.paused g
      /\ forall k, BattleRoyale.has_key pressed k
                   = String.eqb k key || BattleRoyale.has_key g k)
  /\ BattleRoyale.paused released = BattleRoyale.paused g
  /\ (forall k, BattleRoyale.has_key released k
                = negb (String.eqb k key) && BattleRoyale.has_key g k)
  /\ BattleRoyale.player pressed = BattleRoyale.player g
  /\ BattleRoyale.bots pressed = BattleRoyale.bots g
  /\ BattleRoyale.bullets pressed = BattleRoyale.bullets g
  /\ BattleRoyale.player released = BattleRoyale.player g
  /\ BattleRoyale.bots released = BattleRoyale.bots g
  /\ BattleRoyale.bullets released = BattleRoyale.bullets g.
Proof.
  cbv zeta. unfold BattleRoyale.on_keypress, BattleRoyale.on_keyrelease.
  rewrite !lower_idempotent.
  split; [reflexivity | split; [reflexivity|]].
  destruct (String.eqb (BattleRoyale.lower keysym) "p") eqn:Ep.
  - apply String.eqb_eq in Ep.
    split; [intros _ | split; [intros H; contradiction |]].
    + cbn. split; [reflexivity | split; [reflexivity|]].
      rewrite negb_involutive. destruct g; reflexivity.
    + split; [destruct (existsb _ _); reflexivity|].
      split; [| destruct (existsb _ _); cbn; repeat split].
      intros k. unfold BattleRoyale.has_key.
      destruct (existsb (String.eqb (BattleRoyale.lower keysym)) (BattleRoyale.keys g)) eqn:E.
      * cbn. apply keys_remove_held.
      * destruct (String.eqb k (BattleRoyale.lower keysym)) eqn:Ek; [| reflexivity].
        apply String.eqb_eq in Ek. subst k. rewrite E. reflexivity.
  - apply String.eqb_neq in Ep.
    split; [intros H; contradiction | split; [intros _ |]].
    + cbn. split; [reflexivity|]. intros k. unfold BattleRoyale.has_key. cbn.
      apply keys_add_held.
    + split; [destruct (existsb _ _); reflexivity|].
      split; [| destruct (existsb _ _); cbn; repeat split].
      intros k. unfold BattleRoyale.has_key.
      destruct (existsb (String.eqb (BattleRoyale.lower keysym)) (BattleRoyale.keys g)) eqn:E.
      * cbn. apply keys_remove_held.
      * destruct (String.eqb k (BattleRoyale.lower keysym)) eqn:Ek; [| reflexivity].
        apply String.eqb_eq in Ek. subst k. rewrite E. reflexivity.
Qed.

(** ** Construction *)

(** X20: building the game always returns.  The game then has its first
    frame drawn and exactly one callback registered, no key held, the
    pause flag down, the start time read first and the last frame time
    read after the ten bots were placed, and the ten bots of the start,
    plus at most one that the first step spawned. *)
Theorem init_starts_one_loop (o : Oracle) (n : nat) :
  exists g n',
    BattleRoyale.init o n = Returns g n'
    /\ BattleRoyale.pending g = 1%nat
    /\ BattleRoyale.frames g = 1%nat
    /\ BattleRoyale.keys g = []
    /\ BattleRoyale.paused g = false
    /\ BattleRoyale.start_time g = time_at o n
    /\ BattleRoyale.last_time g = time_at o (n + 3 * MAX_BOTS + 2)
    /\ (MAX_BOTS <= List.length (BattleRoyale.bots g) <= S MAX_BOTS)%nat.
Proof.
  unfold BattleRoyale.init.
  rewrite (bind_returns time_time _ o n (S n) (time_at o n) eq_refl).
  match goal with |- context [BattleRoyale.spawn_bots ?k ?g0] =>
    destruct (spawn_bots_fresh k g0 o (S n)) as (new & Hs & Hlen & _)
  end.
  rewrite (bind_returns _ _ _ _ _ _ Hs).
  set (m := (S n + 3 * MAX_BOTS)%nat) in *.
  rewrite (bind_returns time_time _ o m (S m) (time_at o m) eq_refl).
  match goal with |- context [BattleRoyale.update_loop ?x] => set (g2 := x) end.
  unfold BattleRoyale.update_loop.
  change (BattleRoyale.running g2) with true. cbn [negb].
  rewrite (bind_returns time_time _ o (S m) (S (S m)) (time_at o (S m)) eq_refl).
  change (BattleRoyale.paused
            (BattleRoyale.set_clock g2 (BattleRoyale.start_time g2) (time_at o (S m))))
    with false. cbn [negb].
  match goal with |- context [BattleRoyale.update ?g3 ?dt] =>
    destruct (update_keeps_controls g3 dt o (S (S m)))
      as (g4 & n4 & E & _ & (Hk & _ & Hpz & Hst & _ & Hlt & Hpend & Hfr));
    destruct (update_population_effect g3 dt o (S (S m))) as (g4' & n4' & E' & _ & Hpop)
  end.
  rewrite E in E'. injection E' as <- <-.
  rewrite (bind_returns _ _ _ _ _ _ E).
  eexists; eexists. split; [reflexivity|].
  cbn. rewrite Hk, Hpz, Hst, Hlt, Hpend, Hfr. cbn.
  repeat (split; [reflexivity|]).
  split; [unfold m; f_equal; lia|].
  cbv zeta in Hpop. cbn in Hpop. rewrite Hlen in Hpop.
  destruct Hpop as [[Hpop | [Hpop _]] _]; rewrite Hpop; split; lia.
Qed.

(** ** Who a bullet can hurt, and what a step does to the dead *)

Lemma scan_bots_spares_owner (bullet : Bullet.t) (i0 : nat) (bs : list Bot.t) :
  Bullet.owner bullet = BotRef i0 ->
  forall s, (s <= i0)%nat ->
    nth_error (fst (BattleRoyale.scan_bots bullet s bs)) (i0 - s) = nth_error bs (i0 - s).
Proof.
  intros Ho. induction bs as [|bot rest IH]; intros s Hs; [reflexivity|].
  cbn [BattleRoyale.scan_bots].
  specialize (IH (S s)).
  destruct (BattleRoyale.scan_bots bullet (S s) rest) as [rest' h]. cbn [fst] in IH.
  destruct (Nat.eq_dec s i0) as [-> | Hne].
  - rewrite Ho. cbn [ref_eqb]. rewrite Nat.eqb_refl, orb_true_r, Nat.sub_diag. reflexivity.
  - assert (Hstep : (i0 - s = S (i0 - S s))%nat) by lia.
    destruct (negb _ || _).
    + cbn [fst]. rewrite Hstep. cbn. apply IH. lia.
    + destruct (Rle_b _ _); cbn [fst]; rewrite Hstep; cbn; [reflexivity | apply IH; lia].
Qed.

(** X21: a bullet never hurts the one who fired it: a bullet of the
    player leaves the player as it is, and a bullet of the bot at position
    i leaves that bot as it is, whatever else it hits. *)
Theorem bullets_spare_their_owner (p : Player.t) (bs : list Bot.t) (bullet : Bullet.t) :
  let r := BattleRoyale.update_bullet p bs bullet in
  (Bullet.owner bullet = PlayerRef -> fst (fst r) = p)
  /\ (forall i, Bullet.owner bullet = BotRef i ->
                nth_error (snd (fst r)) i = nth_error bs i).
Proof.
  cbv zeta. unfold BattleRoyale.update_bullet.
  destruct (bullet_update_moves bullet) as (_ & _ & _ & _ & Ho).
  split.
  - intros Hp. unfold BattleRoyale.hits_player. rewrite Ho, Hp. cbn.
    destruct (BattleRoyale.scan_bots _ _ _). reflexivity.
  - intros i Hi.
    destruct (BattleRoyale.hits_player _ _ _); [reflexivity|].
    pose proof (scan_bots_spares_owner (Bullet.update bullet) i bs
                  ltac:(rewrite Ho; exact Hi) O ltac:(lia)) as H.
    rewrite Nat.sub_0_r in H.
    destruct (BattleRoyale.scan_bots _ _ _). exact H.
Qed.

Lemma dead_stay_refl (bs : list Bot.t) : dead_stay bs bs.
Proof. induction bs; constructor; auto. Qed.

Lemma dead_stay_trans (l1 l2 l3 : list Bot.t) :
  dead_stay l1 l2 -> dead_stay l2 l3 -> dead_stay l1 l3.
Proof.
  intros H12. revert l3. induction H12 as [|a b l1 l2 Hab _ IH]; intros l3 H23.
  - inversion H23; subst. constructor.
  - inversion H23 as [|b' c l2' l3' Hbc Hrest]; subst.
    constructor; [| apply IH; assumption].
    intros Ha. specialize (Hab Ha). subst b. apply Hbc. exact Ha.
Qed.

Lemma update_bots_dead_stay (p : Player.t) (todo : list Bot.t) :
  forall (done : list Bot.t) (bl : list Bullet.t),
    returns (BattleRoyale.update_bots p done todo bl)
            (fun r => exists todo', fst r = done ++ todo' /\ dead_stay todo todo').
Proof.
  induction todo as [|bot rest IH]; intros done bl.
  - apply returns_ret. exists []. split; [symmetry; apply app_nil_r | constructor].
  - cbn [BattleRoyale.update_bots].
    destruct (Entity.alive (Bot.ent bot)) eqn:Ea; cbn [negb].
    + eapply returns_bind; [apply step_keeps_health|].
      intros bot1 _. cbn beta.
      eapply returns_bind; [apply try_fire_returns|].
      intros fired _. cbn beta.
      eapply returns_weaken; [apply IH|].
      intros r (todo' & Hr & Hd). exists (bot1 :: todo'). split.
      * rewrite Hr, <- app_assoc. reflexivity.
      * constructor; [intros H; congruence | exact Hd].
    + eapply returns_weaken; [apply IH|].
      intros r (todo' & Hr & Hd). exists (bot :: todo'). split.
      * rewrite Hr, <- app_assoc. reflexivity.
      * constructor; [reflexivity | exact Hd].
Qed.

Lemma scan_bots_dead_stay (bullet : Bullet.t) (bs : list Bot.t) :
  forall i, dead_stay bs (fst (BattleRoyale.scan_bots bullet i bs)).
Proof.
  induction bs as [|bot rest IH]; intros i; [constructor|].
  cbn [BattleRoyale.scan_bots].
  specialize (IH (S i)).
  destruct (BattleRoyale.scan_bots bullet (S i) rest) as [rest' h].
  destruct (Entity.alive (Bot.ent bot)) eqn:Ea; cbn [negb orb].
  - destruct (ref_eqb _ _); [constructor; [reflexivity | exact IH]|].
    destruct (Rle_b _ _); cbn [fst].
    + constructor; [intros H; congruence | apply dead_stay_refl].
    + constructor; [reflexivity | exact IH].
  - constructor; [reflexivity | exact IH].
Qed.

Lemma update_bullets_dead_stay (bl : list Bullet.t) :
  forall (p : Player.t) (bs : list Bot.t),
    dead_stay bs (snd (fst (BattleRoyale.update_bullets p bs bl))).
Proof.
  induction bl as [|bullet rest IH]; intros p bs.
  - apply dead_stay_refl.
  - cbn [BattleRoyale.update_bullets].
    destruct (negb (Bullet.alive bullet)); [apply IH|].
    assert (H1 : dead_stay bs (snd (fst (BattleRoyale.update_bullet p bs bullet)))).
    { unfold BattleRoyale.update_bullet.
      destruct (BattleRoyale.hits_player _ _ _); [apply dead_stay_refl|].
      pose proof (scan_bots_dead_stay (Bullet.update bullet) bs O) as H.
      destruct (BattleRoyale.scan_bots _ _ _). exact H. }
    destruct (BattleRoyale.update_bullet p bs bullet) as [[p1 bs1] bullet1].
    specialize (IH p1 bs1).
    destruct (BattleRoyale.update_bullets p1 bs1 rest) as [[p2 bs2] rest'].
    cbn in *. eapply dead_stay_trans; eassumption.
Qed.

Lemma zone_damage_dead_stay (g : BattleRoyale.t) (dt : R) :
  dead_stay (BattleRoyale.bots g) (BattleRoyale.bots (BattleRoyale.zone_damage g dt)).
Proof.
  cbn. induction (BattleRoyale.bots g) as [|b bs IH]; constructor; [| exact IH].
  intros Ha. unfold BattleRoyale.outside_damage. rewrite Ha. cbn.
  destruct b; reflexivity.
Qed.

Lemma dead_stay_nth (l l' : list Bot.t) (extra : list Bot.t) (i : nat) (b : Bot.t) :
  dead_stay l l' -> nth_error l i = Some b -> Entity.alive (Bot.ent b) = false ->
  nth_error (l' ++ extra) i = Some b.
Proof.
  intros H. revert i. induction H as [|a a' l l' Haa _ IH]; intros i Hn Ha.
  - destruct i; discriminate Hn.
  - destruct i as [|i]; cbn in *.
    + injection Hn as ->. rewrite (Haa Ha). reflexivity.
    + apply IH; assumption.
Qed.

(** X22: a simulation step leaves every dead bot exactly as it was, at
    the same position of the list: it is not moved, not retargeted, not
    hit and not burnt by the zone, and no spawn displaces it. *)
Theorem dead_bots_are_left_alone (g : BattleRoyale.t) (dt : R) :
  returns (BattleRoyale.update g dt)
    (fun g' => forall i b,
         nth_error (BattleRoyale.bots g) i = Some b ->
         Entity.alive (Bot.ent b) = false ->
         nth_error (BattleRoyale.bots g') i = Some b).
Proof.
  unfold BattleRoyale.update.
  assert (Hm : BattleRoyale.bots (BattleRoyale.move_player g) = BattleRoyale.bots g).
  { unfold BattleRoyale.move_player. destruct (normalize _ _); reflexivity. }
  set (g1 := BattleRoyale.move_player g) in *.
  eapply returns_bind; [apply update_bots_dead_stay|].
  intros [bs bl] (todo' & Hr & Hd). cbn in Hr. subst bs. rewrite Hm in Hd.
  pose proof (update_bullets_dead_stay bl (BattleRoyale.player g1) todo') as Hb.
  destruct (BattleRoyale.update_bullets _ _ _) as [[p3 bs3] bl3]. cbn in Hb.
  eapply returns_bind; [apply returns_time|].
  intros now _. cbn beta.
  match goal with |- context [BattleRoyale.check_win ?g0] =>
    pose proof (zone_damage_dead_stay
                  (BattleRoyale.set_zone_radius
                     (BattleRoyale.set_entities g1 p3 bs3 bl3)
                     (BattleRoyale.zone_update (now - BattleRoyale.start_time
                        (BattleRoyale.set_entities g1 p3 bs3 bl3)))) dt) as Hz;
    set (g5 := g0) in *
  end.
  cbn [BattleRoyale.bots BattleRoyale.set_zone_radius BattleRoyale.set_entities] in Hz.
  eapply returns_bind; [apply check_win_effect|].
  intros g6 (_ & _ & Hb6 & _). cbn beta.
  eapply returns_weaken; [apply replenish_effect|].
  intros g7 (_ & _ & _ & _ & _ & Hb7) i b Hn Ha.
  assert (Hall : dead_stay (BattleRoyale.bots g) (BattleRoyale.bots g5)).
  { eapply dead_stay_trans; [exact Hd|]. eapply dead_stay_trans; [exact Hb | exact Hz]. }
  pose proof (dead_stay_nth _ _ [] i b Hall Hn Ha) as H0.
  destruct Hb7 as [-> | (x & y & ->)]; rewrite Hb6.
  - rewrite app_nil_r in H0. exact H0.
  - apply (dead_stay_nth _ _ [Bot.init x y] i b Hall Hn Ha).
Qed.

(** ** Standing still *)

(** X23: with no movement key held, or with only keys that cancel each
    other, the direction is the zero vector, which [normalize] leaves at
    (0,0): a player inside the playfield is not moved by the step. *)
Theorem player_rests_without_keys (g : BattleRoyale.t) :
  (BattleRoyale.has_key g "w" || BattleRoyale.has_key g "up")
  = (BattleRoyale.has_key g "s" || BattleRoyale.has_key g "down") ->
  (BattleRoyale.has_key g "a" || BattleRoyale.has_key g "left")
  = (BattleRoyale.has_key g "d" || BattleRoyale.has_key g "right") ->
  in_playfield (Player.ent (BattleRoyale.player g)) ->
  BattleRoyale.player (BattleRoyale.move_player g) = BattleRoyale.player g.
Proof.
  intros Hv Hh [Hx Hy]. unfold BattleRoyale.move_player.
  rewrite Hv, Hh.
  assert (Hn : forall c1 c2 : bool,
             normalize (if c2 then (if c2 then 0 - 1 else 0) + 1
                        else if c2 then 0 - 1 else 0)
                       (if c1 then (if c1 then 0 - 1 else 0) + 1
                        else if c1 then 0 - 1 else 0) = (0, 0)).
  { intros [] []; replace (0 - 1 + 1) with 0 by lra; apply normalize_zero. }
  rewrite Hn. cbn.
  assert (Hc : forall v b, 0 <= v <= b -> clamp (v + 0 * Entity.speed
                 (Player.ent (BattleRoyale.player g))) 0 b = v).
  { intros v b [H1 H2]. unfold clamp.
    rewrite Rmin_right, Rmax_right; lra. }
  rewrite (Hc _ _ Hx), (Hc _ _ Hy).
  destruct (BattleRoyale.player g) as [[] ?]; reflexivity.
Qed.

Lemma player_rests_without_keys_witness :
  BattleRoyale.player (BattleRoyale.move_player paused_game)
  = BattleRoyale.player paused_game.
Proof.
  apply (player_rests_without_keys paused_game); [reflexivity | reflexivity |].
  unfold in_playfield, WIDTH, HEIGHT. cbn. lra.
Defined.
